(** * Apartment-listing crawler: a shallow embedding and its properties

    The development follows the Python sources of the crawler:
    - [scraper/card_parser.py]: the text parsers and the per-card field
      extractor ([parse_price], [parse_float_value], [parse_int_value],
      [parse_address], [scrape_offer_details], [scrape_offers_details]);
    - [scraper/url_parser.py]: the recursive catalogue walker
      ([_recursive_scrape_page]);
    - [db/cassandra_uploader.py]: the batch insert and its statistics,
      the parse history and [upload_from_json];
    - [scraper/scraper.py]: [upload_to_cassandra_db];
    - [yandex_uploader/]: the export pipeline and the upload helper.

    What the sources take from the interpreter is modelled beside them:
    [int], [str.split], [str.strip], the [re] digit class, and the part of
    [urllib.parse] behind [urljoin]. [float], [str.lower], [parse_qs],
    [urlencode], the browser, the database session and the object store
    are parameters of the sections that use them.

    Python [str] values are sequences of Unicode code points, Python
    [int] values are unbounded integers, [None] is [option]'s [None], and
    a raised exception is the [Raise] alternative of [result]. *)

From Stdlib Require Import ZArith NArith QArith Lia List Bool String Ascii.
From stdpp Require Import base list gmap.
Import ListNotations.

Local Open Scope N_scope.

(** ** Python strings *)

(** A [str] is the list of its code points. *)
Definition str := list N.

(** Source literals are UTF-8 text; [u8] reads one into its code points. *)
Fixpoint utf8_decode (bs : list N) : str :=
  match bs with
  | [] => []
  | b0 :: r0 =>
      if b0 <? 128 then b0 :: utf8_decode r0
      else if b0 <? 224 then
        match r0 with
        | b1 :: r1 => ((b0 - 192) * 64 + (b1 - 128)) :: utf8_decode r1
        | _ => []
        end
      else if b0 <? 240 then
        match r0 with
        | b1 :: b2 :: r2 =>
            ((b0 - 224) * 4096 + (b1 - 128) * 64 + (b2 - 128)) :: utf8_decode r2
        | _ => []
        end
      else
        match r0 with
        | b1 :: b2 :: b3 :: r3 =>
            ((b0 - 240) * 262144 + (b1 - 128) * 4096 + (b2 - 128) * 64 + (b3 - 128))
              :: utf8_decode r3
        | _ => []
        end
  end.

Definition u8 (s : string) : str :=
  utf8_decode (map N_of_ascii (list_ascii_of_string s)).

Definition str_eqb (a b : str) : bool := bool_decide (a = b).

(** [s.startswith(p)] *)
Fixpoint startswith (p s : str) : bool :=
  match p, s with
  | [], _ => true
  | c :: p', d :: s' => (c =? d) && startswith p' s'
  | _ :: _, [] => false
  end.

(** [s.replace(a, b)] for one-character [a] and [b]. *)
Definition replace_char (a b : N) (s : str) : str :=
  map (fun c => if c =? a then b else c) s.

(** *** The Unicode tables behind [str.isspace], [\d] and [str.isdigit]

    The tables are those of the Unicode Character Database 14.0.0, the
    version CPython 3.11 ships. *)
Module Unicode.

(** Code points [c] with [chr(c).isspace()]. *)
Definition space_ranges : list (N * N) :=
  [(9, 13); (28, 32); (133, 133); (160, 160); (5760, 5760); (8192, 8202);
   (8232, 8233); (8239, 8239); (8287, 8287); (12288, 12288)].

(** First code point of every run of ten decimal digits (category Nd);
    the digit's value is its offset in the run. *)
Definition decimal_starts : list N :=
  [48; 1632; 1776; 1984; 2406; 2534; 2662; 2790; 2918; 3046; 3174; 3302;
   3430; 3558; 3664; 3792; 3872; 4160; 4240; 6112; 6160; 6470; 6608; 6784;
   6800; 6992; 7088; 7232; 7248; 42528; 43216; 43264; 43472; 43504; 43600;
   44016; 65296; 66720; 68912; 69734; 69872; 69942; 70096; 70384; 70736;
   70864; 71248; 71360; 71472; 71904; 72016; 72784; 73040; 73120; 92768;
   92864; 93008; 120782; 120792; 120802; 120812; 120822; 123200; 123632;
   125264; 130032].

(** Code points [c] with [chr(c).isdigit()] (Numeric_Type Digit or Decimal). *)
Definition digit_ranges : list (N * N) :=
  [(48, 57); (178, 179); (185, 185); (1632, 1641); (1776, 1785);
   (1984, 1993); (2406, 2415); (2534, 2543); (2662, 2671); (2790, 2799);
   (2918, 2927); (3046, 3055); (3174, 3183); (3302, 3311); (3430, 3439);
   (3558, 3567); (3664, 3673); (3792, 3801); (3872, 3881); (4160, 4169);
   (4240, 4249); (4969, 4977); (6112, 6121); (6160, 6169); (6470, 6479);
   (6608, 6618); (6784, 6793); (6800, 6809); (6992, 7001); (7088, 7097);
   (7232, 7241); (7248, 7257); (8304, 8304); (8308, 8313); (8320, 8329);
   (9312, 9320); (9332, 9340); (9352, 9360); (9450, 9450); (9461, 9469);
   (9471, 9471); (10102, 10110); (10112, 10120); (10122, 10130);
   (42528, 42537); (43216, 43225); (43264, 43273); (43472, 43481);
   (43504, 43513); (43600, 43609); (44016, 44025); (65296, 65305);
   (66720, 66729); (68160, 68163); (68912, 68921); (69216, 69224);
   (69714, 69722); (69734, 69743); (69872, 69881); (69942, 69951);
   (70096, 70105); (70384, 70393); (70736, 70745); (70864, 70873);
   (71248, 71257); (71360, 71369); (71472, 71481); (71904, 71913);
   (72016, 72025); (72784, 72793); (73040, 73049); (73120, 73129);
   (92768, 92777); (92864, 92873); (93008, 93017); (120782, 120831);
   (123200, 123209); (123632, 123641); (125264, 125273); (127232, 127242);
   (130032, 130041)].

Definition in_range (c : N) (r : N * N) : bool := (fst r <=? c) && (c <=? snd r).

Definition isspace (c : N) : bool := existsb (in_range c) space_ranges.

Definition isdigit (c : N) : bool := existsb (in_range c) digit_ranges.

(** [Some v] when [c] is a decimal digit of value [v]. *)
Definition decimal (c : N) : option N :=
  match List.find (fun s => (s <=? c) && (c <? s + 10)) decimal_starts with
  | Some s => Some (c - s)
  | None => None
  end.

Definition isdecimal (c : N) : bool :=
  match decimal c with Some _ => true | None => false end.

End Unicode.

(** [s.strip()] *)
Fixpoint lstrip (s : str) : str :=
  match s with
  | c :: s' => if Unicode.isspace c then lstrip s' else s
  | [] => []
  end.

Definition rstrip (s : str) : str := rev (lstrip (rev s)).

Definition strip (s : str) : str := rstrip (lstrip s).

(** [s.split()]: the maximal runs of non-space characters. [cur] is the
    run being read, reversed. *)
Fixpoint split_ws_aux (cur : str) (s : str) : list str :=
  match s with
  | [] => match cur with [] => [] | _ => [rev cur] end
  | c :: s' =>
      if Unicode.isspace c
      then match cur with
           | [] => split_ws_aux [] s'
           | _ => rev cur :: split_ws_aux [] s'
           end
      else split_ws_aux (c :: cur) s'
  end.

Definition split_ws (s : str) : list str := split_ws_aux [] s.

(** [re.sub(r'[^\d]', '', s)] *)
Definition re_sub_non_digits (s : str) : str := List.filter Unicode.isdecimal s.

(** [re.findall(r'\d+', s)]: the maximal runs of decimal digits. *)
Fixpoint findall_digits_aux (cur : str) (s : str) : list str :=
  match s with
  | [] => match cur with [] => [] | _ => [rev cur] end
  | c :: s' =>
      if Unicode.isdecimal c
      then findall_digits_aux (c :: cur) s'
      else match cur with
           | [] => findall_digits_aux [] s'
           | _ => rev cur :: findall_digits_aux [] s'
           end
  end.

Definition re_findall_digits (s : str) : list str := findall_digits_aux [] s.

(** [s.isdigit()] *)
Definition str_isdigit (s : str) : bool :=
  match s with
  | [] => false
  | _ => forallb Unicode.isdigit s
  end.

(** ** Exceptions *)

Inductive exn : Type :=
| ValueError
| IndexError
| FileNotFoundError
| ClientError
| OtherError.

Inductive result (A : Type) : Type :=
| Ok (a : A)
| Raise (e : exn).
Arguments Ok {A} a.
Arguments Raise {A} e.

Definition rbind {A B} (r : result A) (k : A -> result B) : result B :=
  match r with
  | Ok a => k a
  | Raise e => Raise e
  end.

Notation "'do' x <- r ; k" := (rbind r (fun x => k))
  (at level 10, x name, r at level 100, k at level 200).

(** ** [int(s)] for a [str] argument, base ten

    CPython first maps the text to ASCII: code points below 127 are kept,
    other white space becomes a blank, other decimal digits become their
    ASCII digit, anything else is rejected. The ASCII text is then read as
    blanks, an optional sign, digits with single underscores between them,
    and blanks. A literal of more digits than the interpreter's limit,
    4300 unless it is reconfigured (the sources never do), is refused with
    [ValueError]; the sign, the blanks and the underscores do not count. *)

(** [sys.get_int_max_str_digits()], at its default. *)
Definition int_max_str_digits : Z := 4300.

Definition to_ascii (c : N) : option N :=
  if c <? 127 then Some c
  else if Unicode.isspace c then Some 32
  else match Unicode.decimal c with
       | Some v => Some (48 + v)
       | None => None
       end.

Fixpoint transform_decimal_and_space (s : str) : option str :=
  match s with
  | [] => Some []
  | c :: s' =>
      match to_ascii c, transform_decimal_and_space s' with
      | Some a, Some r => Some (a :: r)
      | _, _ => None
      end
  end.

Definition c_isspace (c : N) : bool := ((9 <=? c) && (c <=? 13)) || (c =? 32).

Fixpoint lstrip_c (s : str) : str :=
  match s with
  | c :: s' => if c_isspace c then lstrip_c s' else s
  | [] => []
  end.

Definition ascii_digit (c : N) : option Z :=
  if (48 <=? c) && (c <=? 57) then Some (Z.of_N (c - 48)) else None.

(** The digits of a literal; [after_us] holds at the start and after an
    underscore, where a digit must follow. *)
Fixpoint int_digits (acc : Z) (after_us : bool) (s : str) : option Z :=
  match s with
  | [] => if after_us then None else Some acc
  | c :: s' =>
      if c =? 95 then (if after_us then None else int_digits acc true s')
      else match ascii_digit c with
           | Some d => int_digits (10 * acc + d) false s'
           | None => None
           end
  end.

Definition py_int (s : str) : result Z :=
  match transform_decimal_and_space s with
  | None => Raise ValueError
  | Some a =>
      let a1 := lstrip_c a in
      let '(sign, a2) :=
        match a1 with
        | c :: r =>
            if c =? 43 then (1%Z, r)
            else if c =? 45 then ((-1)%Z, r)
            else (1%Z, a1)
        | [] => (1%Z, a1)
        end in
      let literal := rev (lstrip_c (rev a2)) in
      match int_digits 0 true literal with
      | Some v =>
          let digits := List.filter (fun c => negb (c =? 95)) literal in
          if (Z.of_nat (length digits) >? int_max_str_digits)%Z
          then Raise ValueError
          else Ok (sign * v)%Z
      | None => Raise ValueError
      end
  end.

(** The integer a run of decimal digits denotes. *)
Definition digit_val (c : N) : Z :=
  match Unicode.decimal c with
  | Some v => Z.of_N v
  | None => 0%Z
  end.

Definition digits_value (s : str) : Z :=
  fold_left (fun a c => (10 * a + digit_val c)%Z) s 0%Z.

(** [l[0]] *)
Definition first_item {A} (l : list A) : result A :=
  match l with
  | x :: _ => Ok x
  | [] => Raise IndexError
  end.

(** ** The text parsers of [card_parser.py] *)

Definition parse_price (text : option str) : result (option Z) :=
  match text with
  | None | Some [] => Ok None
  | Some t =>
      let clean_text := re_sub_non_digits t in
      if str_isdigit clean_text
      then do v <- py_int clean_text; Ok (Some v)
      else Ok None
  end.

Definition parse_int_value (text : option str) : result (option Z) :=
  match text with
  | None | Some [] => Ok None
  | Some t =>
      match re_findall_digits t with
      | n0 :: _ => do v <- py_int n0; Ok (Some v)
      | [] => Ok None
      end
  end.

Definition parse_address (text : option str) : option str :=
  match text with
  | None | Some [] => None
  | Some t =>
      if startswith (u8 "Уфа, ") t then Some (drop 5 t) else Some t
  end.

Section Float.

(** [float(s)] belongs to the interpreter: [F] is its type of floats and
    [py_float s] is [None] where [float(s)] raises [ValueError], the only
    exception it raises on a [str]. *)
Context {F : Type}.
Variable py_float : str -> option F.

Definition parse_float_value (text : option str) : result (option F) :=
  match text with
  | None | Some [] => Ok None
  | Some t =>
      do w <- first_item (split_ws t);
      let clean_text := replace_char 44 46 w in
      match py_float clean_text with
      | Some f => Ok (Some f)
      | None => Ok None
      end
  end.

End Float.

(** ** The listing record and the card page

    [scrape_offer_details] fills a dictionary with a fixed set of keys; it
    is a record here, one field per key. *)

Record offer {F : Type} : Type := mk_offer {
  url : str;
  address : option str;
  price_rub : option Z;
  total_area_sqm : option F;
  living_area_sqm : option F;
  kitchen_area_sqm : option F;
  floor : option Z;
  floor_total : option Z;
  ceiling_height_m : option F;
  year_built : option Z
}.
Arguments offer F : clear implicits.
Arguments mk_offer {F}.

Section OfferUpdate.
Context {F : Type}.
Implicit Type d : offer F.

Definition set_address v d :=
  mk_offer (url d) v (price_rub d) (total_area_sqm d) (living_area_sqm d)
    (kitchen_area_sqm d) (floor d) (floor_total d) (ceiling_height_m d) (year_built d).
Definition set_price_rub v d :=
  mk_offer (url d) (address d) v (total_area_sqm d) (living_area_sqm d)
    (kitchen_area_sqm d) (floor d) (floor_total d) (ceiling_height_m d) (year_built d).
Definition set_total_area_sqm v d :=
  mk_offer (url d) (address d) (price_rub d) v (living_area_sqm d)
    (kitchen_area_sqm d) (floor d) (floor_total d) (ceiling_height_m d) (year_built d).
Definition set_living_area_sqm v d :=
  mk_offer (url d) (address d) (price_rub d) (total_area_sqm d) v
    (kitchen_area_sqm d) (floor d) (floor_total d) (ceiling_height_m d) (year_built d).
Definition set_kitchen_area_sqm v d :=
  mk_offer (url d) (address d) (price_rub d) (total_area_sqm d) (living_area_sqm d)
    v (floor d) (floor_total d) (ceiling_height_m d) (year_built d).
Definition set_floor v d :=
  mk_offer (url d) (address d) (price_rub d) (total_area_sqm d) (living_area_sqm d)
    (kitchen_area_sqm d) v (floor_total d) (ceiling_height_m d) (year_built d).
Definition set_floor_total v d :=
  mk_offer (url d) (address d) (price_rub d) (total_area_sqm d) (living_area_sqm d)
    (kitchen_area_sqm d) (floor d) v (ceiling_height_m d) (year_built d).
Definition set_ceiling_height_m v d :=
  mk_offer (url d) (address d) (price_rub d) (total_area_sqm d) (living_area_sqm d)
    (kitchen_area_sqm d) (floor d) (floor_total d) v (year_built d).
Definition set_year_built v d :=
  mk_offer (url d) (address d) (price_rub d) (total_area_sqm d) (living_area_sqm d)
    (kitchen_area_sqm d) (floor d) (floor_total d) (ceiling_height_m d) v.

(** The dictionary [scrape_offer_details] starts from. *)
Definition empty_offer (u : str) : offer F :=
  mk_offer u None None None None None None None None None.

End OfferUpdate.

(** One highlight container: the texts of its value and label elements,
    [None] where [query_selector] finds no such element. *)
Record highlight : Type := mk_highlight {
  value_elem : option str;
  label_elem : option str
}.

(** What the selectors of [scrape_offer_details] find on a rendered card. *)
Record card_page : Type := mk_card_page {
  price_elem : option str;
  address_elem : option str;
  feature_containers : list highlight
}.

(** [page.goto] either raises or leaves a rendered page. *)
Inductive card_load : Type :=
| GotoFailed
| CardLoaded (p : card_page).

Section Extractor.

Context {F : Type}.
Variable py_float : str -> option F.
(** [str.lower()], the interpreter's Unicode lower-casing. *)
Variable py_lower : str -> str.

(** The [if]/[elif] chain on the normalised label. *)
Definition route_highlight (data : offer F) (value_text label_text : str)
  : result (offer F) :=
  if str_eqb label_text (u8 "общая") then
    do v <- parse_float_value py_float (Some value_text); Ok (set_total_area_sqm v data)
  else if str_eqb label_text (u8 "жилая") then
    do v <- parse_float_value py_float (Some value_text); Ok (set_living_area_sqm v data)
  else if str_eqb label_text (u8 "кухня") then
    do v <- parse_float_value py_float (Some value_text); Ok (set_kitchen_area_sqm v data)
  else if str_eqb label_text (u8 "этаж") then
    do v <- parse_int_value (Some value_text); Ok (set_floor v data)
  else if str_eqb label_text (u8 "из 10") || str_eqb label_text (u8 "этажей")
          || startswith (u8 "из") label_text then
    do v <- parse_int_value (Some value_text); Ok (set_floor_total v data)
  else if str_eqb label_text (u8 "потолки") then
    do v <- parse_float_value py_float (Some value_text); Ok (set_ceiling_height_m v data)
  else if str_eqb label_text (u8 "год постройки") then
    do v <- parse_int_value (Some value_text); Ok (set_year_built v data)
  else Ok data.

(** The loop over the containers. An exception leaves the loop with the
    dictionary as the completed assignments made it. *)
Fixpoint scan_features (data : offer F) (cs : list highlight)
  : offer F * option exn :=
  match cs with
  | [] => (data, None)
  | container :: rest =>
      match value_elem container, label_elem container with
      | Some value_text, Some label_text =>
          match route_highlight data value_text (py_lower (strip label_text)) with
          | Ok data' => scan_features data' rest
          | Raise e => (data, Some e)
          end
      | _, _ => scan_features data rest
      end
  end.

(** The body of the [try] block once the page is loaded. *)
Definition extract_fields (data : offer F) (p : card_page) : offer F * option exn :=
  match
    match price_elem p with
    | Some price_text => do v <- parse_price (Some price_text); Ok (set_price_rub v data)
    | None => Ok data
    end
  with
  | Raise e => (data, Some e)
  | Ok data1 =>
      let data2 :=
        match address_elem p with
        | Some address_text => set_address (parse_address (Some address_text)) data1
        | None => data1
        end in
      scan_features data2 (feature_containers p)
  end.

(** The browser: [goto w u] is the browser after navigating to [u] and
    what the navigation gave. *)
Context {W : Type}.
Variable goto : W -> str -> W * card_load.

(** [except Exception] prints and falls through to [return data]. *)
Definition scrape_offer_details (w : W) (u : str) : W * offer F :=
  let data := empty_offer u in
  let '(w', load) := goto w u in
  match load with
  | GotoFailed => (w', data)
  | CardLoaded p => (w', fst (extract_fields data p))
  end.

(** The [for] loop of [scrape_offers_details]; [results] is the list the
    loop appends to. *)
Fixpoint fetch_loop (w : W) (links : list str) (results : list (offer F))
  : W * list (offer F) :=
  match links with
  | [] => (w, results)
  | link :: rest =>
      let '(w', offer_data) := scrape_offer_details w link in
      fetch_loop w' rest (results ++ [offer_data])
  end.

Definition scrape_offers_details (w : W) (links : list str) : W * list (offer F) :=
  fetch_loop w links [].

End Extractor.

(** ** The batch insert of [cassandra_uploader.py] *)

Record batch_stats : Type := mk_batch_stats {
  successful : Z;
  failed : Z;
  total : Z
}.

Section Cassandra.

(** [Session] is the state of the database session and [Offer] the type
    of the dictionaries handed over; [execute s o] is the session after
    the insert statement for [o] ran on [s], and whether it raised. *)
Context {Session Offer : Type}.
Variable execute : Session -> Offer -> Session * result unit.

Definition insert_offer (s : Session) (offer_data : Offer) : Session * bool :=
  let '(s', r) := execute s offer_data in
  match r with
  | Ok _ => (s', true)
  | Raise _ => (s', false)
  end.

(** The [for] loop; [succ] and [fail] are the two counters. *)
Fixpoint insert_loop (s : Session) (offers_data : list Offer) (succ fail : Z)
  : Session * (Z * Z) :=
  match offers_data with
  | [] => (s, (succ, fail))
  | offer_data :: rest =>
      let '(s', inserted) := insert_offer s offer_data in
      if inserted
      then insert_loop s' rest (succ + 1)%Z fail
      else insert_loop s' rest succ (fail + 1)%Z
  end.

Definition insert_offers_batch (s : Session) (offers_data : list Offer)
  : Session * batch_stats :=
  let '(s', (succ, fail)) := insert_loop s offers_data 0%Z 0%Z in
  (s', mk_batch_stats succ fail (Z.of_nat (length offers_data))).

End Cassandra.

(** ** The parse history and the two callers of the batch insert

    [insert_parse_history] and [upload_from_json] of
    [cassandra_uploader.py], and [upload_to_cassandra_db] of [scraper.py]. *)

(** A JSON value where the uploader expects text: [null], a string, or
    anything else JSON can hold. *)
Inductive json_text : Type :=
| JNull
| JString (s : str)
| JOther.

(** A row of the [parse_history] table, without the identifier and the
    time stamp the uploader draws for it. The source is whatever the
    caller hands over. *)
Record history_row : Type := mk_history_row {
  h_source_url : json_text;
  h_total_offers : Z;
  h_successful_offers : Z;
  h_failed_offers : Z;
  h_status : str
}.

(** The JSON value under the key 'offers', as [upload_from_json] and the
    batch insert see it. An item is [Some] of a dictionary and [None] for
    anything else. *)
Inductive offers_value (Offer : Type) : Type :=
| OffersFalsy
    (* null, false, 0, an empty string, list or object *)
| OffersUnsized
    (* true, or a number other than 0: it has no [len] *)
| OffersItems (first : option Offer) (more : list (option Offer)).
    (* what a list, string or object that is not empty iterates over *)
Arguments OffersFalsy {Offer}.
Arguments OffersUnsized {Offer}.
Arguments OffersItems {Offer} first more.

(** What [json.load] gives for a run file, read the way [upload_from_json]
    reads it: the values under the keys 'offers' and 'source_url', [None]
    for a key that is missing. *)
Record run_file {Offer : Type} : Type := mk_run_file {
  file_offers : option (offers_value Offer);
  file_source_url : option json_text
}.
Arguments run_file Offer : clear implicits.
Arguments mk_run_file {Offer} _ _.

Section History.

Context {Session Offer : Type}.
Variable execute : Session -> Offer -> Session * result unit.
(** [session.execute] of the history statement. *)
Variable execute_history : Session -> history_row -> Session * result unit.

Definition insert_parse_history (s : Session) (source_url : json_text)
    (total_offers successful_offers failed_offers : Z) (status : str) : Session * bool :=
  let '(s', r) :=
    execute_history s
      (mk_history_row source_url total_offers successful_offers failed_offers status) in
  match r with
  | Ok _ => (s', true)
  | Raise _ => (s', false)
  end.

(** [upload_to_cassandra_db] of the parser whose [base_url] and
    [cassandra_uploader] are given; the uploader is its session. Both
    calls in the [try] handle their own exceptions. *)
Definition upload_to_cassandra_db (base_url : str) (cassandra_uploader : option Session)
    (offers : list Offer) : option Session * bool :=
  match cassandra_uploader with
  | None => (None, false)
  | Some s =>
      let '(s1, stats) := insert_offers_batch execute s offers in
      let '(s2, _) :=
        insert_parse_history s1 (JString base_url) (total stats) (successful stats)
          (failed stats)
          (if (successful stats >? 0)%Z then u8 "completed" else u8 "failed") in
      (Some s2, (successful stats >? 0)%Z)
  end.

(** The loop of [insert_offers_batch] over items read from a file. On an
    item that is no dictionary [offer_data.get] raises [AttributeError]
    in [insert_offer] before the statement is run, and the handler there,
    which calls [offer_data.get] again for its message, raises it anew:
    the exception leaves the loop. *)
Fixpoint insert_items_loop (s : Session) (items : list (option Offer)) (succ fail : Z)
  : Session * result (Z * Z) :=
  match items with
  | [] => (s, Ok (succ, fail))
  | None :: _ => (s, Raise OtherError)
  | Some offer :: rest =>
      let '(s', inserted) := insert_offer execute s offer in
      if inserted
      then insert_items_loop s' rest (succ + 1)%Z fail
      else insert_items_loop s' rest succ (fail + 1)%Z
  end.

Definition insert_items_batch (s : Session) (items : list (option Offer))
  : Session * result batch_stats :=
  match insert_items_loop s items 0%Z 0%Z with
  | (s', Ok (succ, fail)) => (s', Ok (mk_batch_stats succ fail (Z.of_nat (length items))))
  | (s', Raise e) => (s', Raise e)
  end.

(** [open] and [json.load] of the file at a path, and the two [get]s; it
    raises for a file that cannot be read as a JSON object. *)
Variable json_load : str -> result (run_file Offer).

(** [except Exception] answers [False] for whatever the [try] raises:
    [TypeError] from [len] of a value without one, and what the batch
    insert lets through. *)
Definition upload_from_json (s : Session) (json_file_path : str) : Session * bool :=
  match json_load json_file_path with
  | Raise _ => (s, false)
  | Ok data =>
      let source_url :=
        match file_source_url data with
        | Some v => v
        | None => JString (u8 "unknown")
        end in
      match file_offers data with
      | None | Some OffersFalsy => (s, false)
      | Some OffersUnsized => (s, false)
      | Some (OffersItems first more) =>
          match insert_items_batch s (first :: more) with
          | (s1, Raise _) => (s1, false)
          | (s1, Ok stats) =>
              let '(s2, _) :=
                insert_parse_history s1 source_url (total stats) (successful stats)
                  (failed stats) (u8 "completed") in
              (s2, (successful stats >? 0)%Z)
          end
      end
  end.

End History.

(** ** The export pipeline of [yandex_uploader/] *)

(** [not x] for an optional string: [None] and the empty string are false. *)
Definition str_truthy (x : option str) : bool :=
  match x with
  | None | Some [] => false
  | Some _ => true
  end.

Section ExportPipeline.

Context {DataFrame S3Client : Type}.

(** The surroundings of one export run: the environment variables read
    when [uploader.py] is imported and when the upload is called, and
    the outcomes of the calls that leave the repository. *)
Record export_env : Type := mk_export_env {
  YC_SA_KEY_ID : option str;
  YC_SA_SECRET_KEY : option str;
  YC_STORAGE_BUCKET : option str;
  getenv_bucket : option str;
  create_s3_session : option S3Client;
  s3_upload_file : S3Client -> str -> str -> result unit;
  create_offers_dataframe_with_districts : result (option DataFrame);
  df_empty : DataFrame -> bool;
  to_csv : DataFrame -> str -> result unit;
  remove_allowed : str -> bool
}.

Variable env : export_env.

(** The local files are the set of the paths that exist. *)
Definition upload_file_to_s3 (fs : gset str) (s3_client : S3Client)
    (file_path bucket_name : str) : result bool :=
  if negb (str_truthy (YC_SA_KEY_ID env)) || negb (str_truthy (YC_SA_SECRET_KEY env))
     || negb (str_truthy (YC_STORAGE_BUCKET env))
  then Ok false
  else if negb (bool_decide (file_path ∈ fs)) then Ok false
  else match s3_upload_file env s3_client file_path bucket_name with
       | Ok _ => Ok true
       | Raise ClientError => Ok false
       | Raise FileNotFoundError => Ok false
       | Raise e => Raise e
       end.

Definition upload_to_yandex_cloud (fs : gset str) (file_path : str)
    (bucket_name : option str) : bool :=
  match create_s3_session env with
  | None => false
  | Some s3_client =>
      match
        match bucket_name with
        | Some b => Some b
        | None => if str_truthy (getenv_bucket env) then getenv_bucket env else None
        end
      with
      | None => false
      | Some b =>
          match upload_file_to_s3 fs s3_client file_path b with
          | Ok success => success
          | Raise _ => false
          end
      end
  end.

Definition save_dataframe_to_csv (fs : gset str) (df : DataFrame)
    (filename : option str) : gset str * result str :=
  let filename := match filename with Some f => f | None => u8 "apartments.csv" end in
  match to_csv env df filename with
  | Ok _ => ({[filename]} ∪ fs, Ok filename)
  | Raise e => (fs, Raise e)
  end.

(** [os.remove] *)
Definition os_remove (fs : gset str) (p : str) : gset str * result unit :=
  if bool_decide (p ∈ fs)
  then if remove_allowed env p then (fs ∖ {[p]}, Ok tt) else (fs, Raise OtherError)
  else (fs, Raise FileNotFoundError).

Definition export_offers_to_yandex_cloud (fs : gset str)
    (bucket_name : option str) (keep_local_file : bool) : gset str * bool :=
  match create_offers_dataframe_with_districts env with
  | Raise _ => (fs, false)
  | Ok None => (fs, false)
  | Ok (Some df) =>
      if df_empty env df then (fs, false)
      else
        match save_dataframe_to_csv fs df None with
        | (fs1, Raise _) => (fs1, false)
        | (fs1, Ok csv_file) =>
            let upload_success := upload_to_yandex_cloud fs1 csv_file bucket_name in
            if negb upload_success then (fs1, false)
            else if negb keep_local_file
                 then (fst (os_remove fs1 csv_file), true)
                 else (fs1, true)
        end
  end.

End ExportPipeline.

(** ** [urllib.parse]: splitting, joining and resolving URLs

    The walker resolves every item link with [urljoin]. The functions
    below follow [urllib/parse.py] of CPython 3.11, on [str] arguments. *)

(** [sep in s] *)
Definition has_char (sep : N) (s : str) : bool := existsb (N.eqb sep) s.

(** [s.split(sep, 1)] when [sep] occurs, that is [s[:i]] and [s[i+1:]] for
    [i = s.find(sep)]; [None] when [sep] does not occur. *)
Fixpoint partition_char (sep : N) (s : str) : option (str * str) :=
  match s with
  | [] => None
  | c :: s' =>
      if c =? sep then Some ([], s')
      else match partition_char sep s' with
           | Some (a, b) => Some (c :: a, b)
           | None => None
           end
  end.

(** [s.split(sep)] *)
Fixpoint split_char (sep : N) (s : str) : list str :=
  match s with
  | [] => [[]]
  | c :: s' =>
      if c =? sep then [] :: split_char sep s'
      else match split_char sep s' with
           | h :: t => (c :: h) :: t
           | [] => [[c]]
           end
  end.

(** [sep.join(l)] *)
Fixpoint join_char (sep : N) (l : list str) : str :=
  match l with
  | [] => []
  | [x] => x
  | x :: rest => x ++ sep :: join_char sep rest
  end.

Module Urllib.

Definition uses_relative : list str :=
  map u8 [""; "ftp"; "http"; "gopher"; "nntp"; "imap"; "wais"; "file"; "https";
          "shttp"; "mms"; "prospero"; "rtsp"; "rtspu"; "sftp"; "svn"; "svn+ssh";
          "ws"; "wss"]%string.

Definition uses_netloc : list str :=
  map u8 [""; "ftp"; "http"; "gopher"; "nntp"; "telnet"; "imap"; "wais"; "file";
          "mms"; "https"; "shttp"; "snews"; "prospero"; "rtsp"; "rtspu"; "rsync";
          "svn"; "svn+ssh"; "sftp"; "nfs"; "git"; "git+ssh"; "ws"; "wss"]%string.

Definition uses_params : list str :=
  map u8 [""; "ftp"; "hdl"; "prospero"; "http"; "imap"; "https"; "shttp"; "rtsp";
          "rtspu"; "sip"; "sips"; "mms"; "sftp"; "tel"]%string.

Definition mem (s : str) (l : list str) : bool := existsb (str_eqb s) l.

Definition is_ascii_alpha (c : N) : bool :=
  ((65 <=? c) && (c <=? 90)) || ((97 <=? c) && (c <=? 122)).

(** Membership in [scheme_chars]. *)
Definition is_scheme_char (c : N) : bool :=
  is_ascii_alpha c || ((48 <=? c) && (c <=? 57)) || (c =? 43) || (c =? 45) || (c =? 46).

Definition ascii_lower (c : N) : N :=
  if (65 <=? c) && (c <=? 90) then c + 32 else c.

(** [lstrip] and [strip] of [_WHATWG_C0_CONTROL_OR_SPACE]. *)
Fixpoint lstrip_c0 (s : str) : str :=
  match s with
  | c :: s' => if c <=? 32 then lstrip_c0 s' else s
  | [] => []
  end.

Definition strip_c0 (s : str) : str := rev (lstrip_c0 (rev (lstrip_c0 s))).

(** Removal of [_UNSAFE_URL_BYTES_TO_REMOVE]. *)
Definition is_unsafe (c : N) : bool := (c =? 9) || (c =? 13) || (c =? 10).

Definition remove_unsafe (s : str) : str := List.filter (fun c => negb (is_unsafe c)) s.

Definition is_netloc_delim (c : N) : bool := (c =? 47) || (c =? 63) || (c =? 35).

(** [_splitnetloc(url, 2)] on the text after the two slashes. *)
Fixpoint splitnetloc (s : str) : str * str :=
  match s with
  | [] => ([], [])
  | c :: s' =>
      if is_netloc_delim c then ([], s)
      else let '(d, r) := splitnetloc s' in (c :: d, r)
  end.

Record split_result : Type := mk_split {
  s_scheme : str; s_netloc : str; s_url : str; s_query : str; s_fragment : str
}.

Record parse_result : Type := mk_parse {
  scheme : str; netloc : str; path : str; params : str; query : str; fragment : str
}.

Section Parse.

(** Two checks of [urlsplit] rest on other modules of the interpreter:
    [nfkc] is [unicodedata.normalize('NFKC', _)], and
    [check_bracketed_netloc n] tells whether [_check_bracketed_netloc]
    returns on [n] rather than raising [ValueError]. *)
Variable nfkc : str -> str.
Variable check_bracketed_netloc : str -> bool.

Definition isascii (s : str) : bool := forallb (fun c => c <? 128) s.

(** [true] when [_checknetloc] returns without raising. *)
Definition checknetloc (n0 : str) : bool :=
  match n0 with
  | [] => true
  | _ =>
      if isascii n0 then true
      else
        let n := List.filter
                   (fun c => negb ((c =? 64) || (c =? 58) || (c =? 35) || (c =? 63))) n0 in
        let netloc2 := nfkc n in
        if str_eqb n netloc2 then true
        else negb (existsb (fun c => has_char c netloc2) [47; 63; 35; 64; 58])
  end.

Definition urlsplit (url0 scheme0 : str) : result split_result :=
  let url := remove_unsafe (lstrip_c0 url0) in
  let scheme := remove_unsafe (strip_c0 scheme0) in
  let '(scheme, url) :=
    match partition_char 58 url with
    | Some (c :: pre, post) =>
        if is_ascii_alpha c && forallb is_scheme_char (c :: pre)
        then (map ascii_lower (c :: pre), post)
        else (scheme, url)
    | _ => (scheme, url)
    end in
  do nu <-
    if startswith [47; 47] url then
      let '(n, u) := splitnetloc (drop 2 url) in
      if (has_char 91 n && negb (has_char 93 n))
         || (has_char 93 n && negb (has_char 91 n))
      then Raise ValueError
      else if has_char 91 n && has_char 93 n && negb (check_bracketed_netloc n)
      then Raise ValueError
      else Ok (n, u)
    else Ok ([], url);
  let '(n, url) := nu in
  let '(url, frag) :=
    match partition_char 35 url with
    | Some (a, b) => (a, b)
    | None => (url, [])
    end in
  let '(url, q) :=
    match partition_char 63 url with
    | Some (a, b) => (a, b)
    | None => (url, [])
    end in
  if checknetloc n then Ok (mk_split scheme n url q frag)
  else Raise ValueError.

(** [url.rfind('/')] as a split: the text before the last slash, and
    the text from it on. *)
Fixpoint rsplit_slash (s : str) : option (str * str) :=
  match s with
  | [] => None
  | c :: s' =>
      match rsplit_slash s' with
      | Some (a, b) => Some (c :: a, b)
      | None => if c =? 47 then Some ([], s) else None
      end
  end.

Definition splitparams (url : str) : str * str :=
  match rsplit_slash url with
  | Some (before, last) =>
      match partition_char 59 last with
      | Some (a, b) => (before ++ a, b)
      | None => (url, [])
      end
  | None =>
      match partition_char 59 url with
      | Some (a, b) => (a, b)
      | None => (removelast url, url)
      end
  end.

Definition urlparse (url0 scheme0 : str) : result parse_result :=
  do sr <- urlsplit url0 scheme0;
  let '(url, prm) :=
    if mem (s_scheme sr) uses_params && has_char 59 (s_url sr)
    then splitparams (s_url sr)
    else (s_url sr, []) in
  Ok (mk_parse (s_scheme sr) (s_netloc sr) url prm (s_query sr) (s_fragment sr)).

Definition urlunsplit (sr : split_result) : str :=
  let url := s_url sr in
  let url :=
    if negb (bool_decide (s_netloc sr = []))
       || (negb (bool_decide (s_scheme sr = [])) && mem (s_scheme sr) uses_netloc
           && negb (startswith [47; 47] url))
    then
      let url :=
        match url with
        | c :: _ => if c =? 47 then url else 47 :: url
        | [] => url
        end in
      [47; 47] ++ s_netloc sr ++ url
    else url in
  let url := match s_scheme sr with [] => url | sc => sc ++ 58 :: url end in
  let url := match s_query sr with [] => url | q => url ++ 63 :: q end in
  match s_fragment sr with [] => url | f => url ++ 35 :: f end.

Definition urlunparse (p : parse_result) : str :=
  let url := match params p with [] => path p | prm => path p ++ 59 :: prm end in
  urlunsplit (mk_split (scheme p) (netloc p) url (query p) (fragment p)).

(** The loop over [segments]; [resolved] is [resolved_path], last
    element first. *)
Fixpoint resolve_segments (resolved : list str) (segments : list str) : list str :=
  match segments with
  | [] => resolved
  | seg :: rest =>
      if str_eqb seg [46; 46] then resolve_segments (tail resolved) rest
      else if str_eqb seg [46] then resolve_segments resolved rest
      else resolve_segments (seg :: resolved) rest
  end.

(** [segments[1:-1] = filter(None, segments[1:-1])] *)
Definition drop_empty_inner (segments : list str) : list str :=
  match segments with
  | first :: (_ :: _) as more =>
      first :: List.filter (fun x => negb (bool_decide (x = []))) (removelast more)
        ++ [List.last more []]
  | _ => segments
  end.

Definition urljoin (base url : str) : result str :=
  match base, url with
  | [], _ => Ok url
  | _, [] => Ok base
  | _, _ =>
      do b <- urlparse base [];
      do u <- urlparse url (scheme b);
      if negb (str_eqb (scheme u) (scheme b)) || negb (mem (scheme u) uses_relative)
      then Ok url
      else
        let use_netloc := mem (scheme u) uses_netloc in
        if use_netloc && negb (bool_decide (netloc u = []))
        then Ok (urlunparse u)
        else
          let nloc := if use_netloc then netloc b else netloc u in
          if bool_decide (path u = []) && bool_decide (params u = [])
          then
            let q := match query u with [] => query b | q => q end in
            Ok (urlunparse (mk_parse (scheme u) nloc (path b) (params b) q (fragment u)))
          else
            let base_parts := split_char 47 (path b) in
            let base_parts :=
              if bool_decide (List.last base_parts [] = []) then base_parts
              else removelast base_parts in
            let segments :=
              if startswith [47] (path u) then split_char 47 (path u)
              else drop_empty_inner (base_parts ++ split_char 47 (path u)) in
            let resolved_path := rev (resolve_segments [] segments) in
            let resolved_path :=
              if bool_decide (List.last segments [] = [46])
                 || bool_decide (List.last segments [] = [46; 46])
              then resolved_path ++ [[]]
              else resolved_path in
            let new_path :=
              match join_char 47 resolved_path with
              | [] => [47]
              | p => p
              end in
            Ok (urlunparse (mk_parse (scheme u) nloc new_path (params u) (query u)
                              (fragment u)))
  end.

End Parse.

End Urllib.

(** ** The catalogue walker of [url_parser.py] *)

(** [str(n)] for an [int]. *)
Fixpoint uint_chars (u : Decimal.uint) : str :=
  match u with
  | Decimal.Nil => []
  | Decimal.D0 u => 48 :: uint_chars u
  | Decimal.D1 u => 49 :: uint_chars u
  | Decimal.D2 u => 50 :: uint_chars u
  | Decimal.D3 u => 51 :: uint_chars u
  | Decimal.D4 u => 52 :: uint_chars u
  | Decimal.D5 u => 53 :: uint_chars u
  | Decimal.D6 u => 54 :: uint_chars u
  | Decimal.D7 u => 55 :: uint_chars u
  | Decimal.D8 u => 56 :: uint_chars u
  | Decimal.D9 u => 57 :: uint_chars u
  end.

Definition py_str (n : Z) : str :=
  match Z.to_int n with
  | Decimal.Pos u => uint_chars u
  | Decimal.Neg u => 45 :: uint_chars u
  end.

(** The dictionary [parse_qs] returns keeps its keys in insertion order:
    an association list with one entry per key. *)
Definition qs_dict := list (str * list str).

Fixpoint dict_get (k : str) (d : qs_dict) : option (list str) :=
  match d with
  | [] => None
  | (k', v) :: d' => if str_eqb k' k then Some v else dict_get k d'
  end.

(** [d[k] = v] *)
Fixpoint dict_set (k : str) (v : list str) (d : qs_dict) : qs_dict :=
  match d with
  | [] => [(k, v)]
  | (k', v') :: d' => if str_eqb k' k then (k', v) :: d' else (k', v') :: dict_set k v d'
  end.

(** What a catalogue page does when the walker navigates to it: [goto]
    raises, the wait for an item anchor raises, or the page is there with
    the [href] attribute of each anchor the selector finds ([None] for an
    anchor without one). *)
Inductive listing_load : Type :=
| GotoRaised
| WaitTimedOut
| ListingLoaded (hrefs : list (option str)).

Section Walker.

Variable nfkc : str -> str.
Variable check_bracketed_netloc : str -> bool.
(** [parse_qs] and [urlencode(_, doseq=True)] of [urllib.parse]. *)
Variable parse_qs : str -> qs_dict.
Variable urlencode : qs_dict -> str.

Context {W : Type}.
Variable nav : W -> str -> W * listing_load.

Local Abbreviation urlparse := (Urllib.urlparse nfkc check_bracketed_netloc).
Local Abbreviation urljoin := (Urllib.urljoin nfkc check_bracketed_netloc).

(** [int(parsed_q.get('page', [1])[0])] *)
Definition page_param_of (current_url : str) : result Z :=
  do parsed <- urlparse current_url [];
  match dict_get (u8 "page") (parse_qs (Urllib.query parsed)) with
  | None => Ok 1%Z
  | Some vs => do v <- first_item vs; py_int v
  end.

(** The loop over the anchors of the page. *)
Fixpoint collect_links (current_url : str) (hrefs : list (option str))
    (collected_links : gset str) : result (gset str) :=
  match hrefs with
  | [] => Ok collected_links
  | href :: rest =>
      match href with
      | Some h =>
          if negb (bool_decide (h = [])) && startswith (u8 "/offer/") h
          then do full_url <- urljoin current_url h;
               collect_links current_url rest ({[full_url]} ∪ collected_links)
          else collect_links current_url rest collected_links
      | None => collect_links current_url rest collected_links
      end
  end.

Definition next_page_url (current_url : str) (page_param : Z) : result str :=
  do parsed0 <- urlparse current_url [];
  let next_page_num_param :=
    match dict_get (u8 "page") (parse_qs (Urllib.query parsed0)) with
    | None => 2%Z
    | Some _ => (page_param + 1)%Z
    end in
  do parsed_url <- urlparse current_url [];
  let query_params :=
    dict_set (u8 "page") [py_str next_page_num_param]
      (parse_qs (Urllib.query parsed_url)) in
  let new_query := urlencode query_params in
  Ok (Urllib.urlunparse
        (Urllib.mk_parse (Urllib.scheme parsed_url) (Urllib.netloc parsed_url)
           (Urllib.path parsed_url) (Urllib.params parsed_url) new_query
           (Urllib.fragment parsed_url))).

(** The recursion of the source is not structural; [fuel] bounds the
    number of pages and [None] is the answer when it runs out. *)
Fixpoint _recursive_scrape_page (fuel : nat) (w : W) (current_url : str)
    (collected_links : gset str) : W * option (result (list str)) :=
  match fuel with
  | O => (w, None)
  | S fuel' =>
      match page_param_of current_url with
      | Raise e => (w, Some (Raise e))
      | Ok page_param =>
          let page_number_display := page_param in
          let '(w1, load) := nav w current_url in
          match load with
          | GotoRaised | WaitTimedOut => (w1, Some (Ok (elements collected_links)))
          | ListingLoaded hrefs =>
              let links_before_scrape := Z.of_nat (size collected_links) in
              match collect_links current_url hrefs collected_links with
              | Raise e => (w1, Some (Raise e))
              | Ok collected_links =>
                  let found_on_this_page :=
                    (Z.of_nat (size collected_links) - links_before_scrape)%Z in
                  if (found_on_this_page =? 0)%Z && (page_number_display >? 1)%Z
                  then (w1, Some (Ok (elements collected_links)))
                  else if (page_number_display >=? 25)%Z
                  then (w1, Some (Ok (elements collected_links)))
                  else
                    match next_page_url current_url page_param with
                    | Raise e => (w1, Some (Raise e))
                    | Ok next_url =>
                        _recursive_scrape_page fuel' w1 next_url collected_links
                    end
              end
          end
      end
  end.

(** One page that does not end the walk: the states before and after. *)
Inductive walks_on : W * str * gset str -> W * str * gset str -> Prop :=
| walks_on_page w current_url collected_links page_param w1 hrefs collected' next_url :
    page_param_of current_url = Ok page_param ->
    nav w current_url = (w1, ListingLoaded hrefs) ->
    collect_links current_url hrefs collected_links = Ok collected' ->
    (collected' ≠ collected_links \/ (page_param <= 1)%Z) ->
    (page_param < 25)%Z ->
    next_page_url current_url page_param = Ok next_url ->
    walks_on (w, current_url, collected_links) (w1, next_url, collected').

End Walker.

(** ** Sample surroundings

    Concrete stand-ins for what the interpreter, the browser and the cloud
    provide. They serve where a statement is exercised on an example. *)

(** A reader of plain decimal literals, digits around at most one point,
    for [float]. *)
Definition read_decimal (s : str) : option Q :=
  let '(ip, fp) :=
    match partition_char 46 s with
    | Some (a, b) => (a, b)
    | None => (s, [])
    end in
  match ip ++ fp with
  | [] => None
  | ds =>
      if forallb (fun c => (48 <=? c) && (c <=? 57)) ds
      then Some (Qmake (digits_value ds) (Z.to_pos (10 ^ Z.of_nat (length fp))))
      else None
  end.

(** Lower-casing of the Latin and Cyrillic capitals, for [str.lower]. *)
Definition lower_basic (s : str) : str :=
  map (fun c =>
         if (65 <=? c) && (c <=? 90) then c + 32
         else if (1040 <=? c) && (c <=? 1071) then c + 32
         else if (1024 <=? c) && (c <=? 1039) then c + 80
         else c) s.

(** Query strings without escapes, for [parse_qs] and [urlencode]. *)
Fixpoint dict_append (k v : str) (d : qs_dict) : qs_dict :=
  match d with
  | [] => [(k, [v])]
  | (k', vs) :: d' =>
      if str_eqb k' k then (k', vs ++ [v]) :: d' else (k', vs) :: dict_append k v d'
  end.

Definition plain_parse_qs (qs : str) : qs_dict :=
  fold_left
    (fun d nv =>
       match partition_char 61 nv with
       | Some (k, c :: v) => dict_append k (c :: v) d
       | _ => d
       end)
    (split_char 38 qs) [].

Definition plain_urlencode (d : qs_dict) : str :=
  join_char 38 (flat_map (fun kv => map (fun v => fst kv ++ 61 :: v) (snd kv)) d).

Definition nfkc_ascii (s : str) : str := s.

Definition brackets_refused (n : str) : bool := false.

(** A catalogue of two pages: the first shows one item, the second shows
    the same item again when [repeats] holds and never renders otherwise;
    there is no third page. *)
Definition sample_seed : str := u8 "https://example.org/list".

Definition sample_catalogue (repeats : bool) (u : str) : bool * listing_load :=
  (repeats,
   if str_eqb u (u8 "https://example.org/list")
   then ListingLoaded [Some (u8 "/offer/1/"); None; Some (u8 "/about")]
   else if str_eqb u (u8 "https://example.org/list?page=2") && repeats
   then ListingLoaded [Some (u8 "/offer/1/")]
   else WaitTimedOut).

Definition sample_item : str := u8 "https://example.org/offer/1/".

(** A browser that shows the same card for every link. *)
Definition one_card (p : card_page) (w : unit) (u : str) : unit * card_load :=
  (w, CardLoaded p).

(** An export whose upload is refused by the storage service. *)
Definition refused_upload_env : @export_env nat unit :=
  mk_export_env (Some (u8 "key")) (Some (u8 "secret")) (Some (u8 "bucket"))
    (Some (u8 "bucket")) (Some tt) (fun _ _ _ => Raise ClientError)
    (Ok (Some 3%nat)) (fun rows => Nat.eqb rows 0) (fun _ _ => Ok tt) (fun _ => true).

(** An export whose storage takes every file, and one where the bucket
    name [uploader.py] reads at import time is not set although the
    variable is there when the upload is called. *)
Definition accepting_upload_env : @export_env nat unit :=
  mk_export_env (Some (u8 "key")) (Some (u8 "secret")) (Some (u8 "bucket"))
    (Some (u8 "bucket")) (Some tt) (fun _ _ _ => Ok tt)
    (Ok (Some 3%nat)) (fun rows => Nat.eqb rows 0) (fun _ _ => Ok tt) (fun _ => true).

Definition unset_bucket_env : @export_env nat unit :=
  mk_export_env (Some (u8 "key")) (Some (u8 "secret")) None
    (Some (u8 "bucket")) (Some tt) (fun _ _ _ => Ok tt)
    (Ok (Some 3%nat)) (fun rows => Nat.eqb rows 0) (fun _ _ => Ok tt) (fun _ => true).

(** Two database sessions that count the statements they were handed:
    one takes every insert, the other refuses every insert. *)
Definition accepting_session (s : nat) (o : str) : nat * result unit := (S s, Ok tt).

Definition refusing_session (s : nat) (o : str) : nat * result unit :=
  (S s, Raise OtherError).

(** A card with a price, an address and one highlight. *)
Definition priced_card : card_page :=
  mk_card_page (Some (u8 "7 750 000 ₽")) (Some (u8 "Уфа, улица Цюрупы, 151"))
    [mk_highlight (Some (u8 "5")) (Some (u8 "этаж"))].

(** ** Notions used in the statements *)

(** A run of decimal digits, and the ASCII digit [int] reads for one. *)
Definition all_decimal (s : str) : Prop := Forall (fun c => Unicode.isdecimal c = true) s.

Definition ascii_of_decimal (c : N) : N := 48 + Z.to_N (digit_val c).

(** Two dictionaries that agree on every key but 'floor_total'. *)
Definition same_but_floor_total {F : Type} (d d' : offer F) : Prop :=
  url d' = url d /\ address d' = address d /\ price_rub d' = price_rub d
  /\ total_area_sqm d' = total_area_sqm d /\ living_area_sqm d' = living_area_sqm d
  /\ kitchen_area_sqm d' = kitchen_area_sqm d /\ floor d' = floor d
  /\ ceiling_height_m d' = ceiling_height_m d /\ year_built d' = year_built d.

(** The labels the extractor sends to the floor-total field. *)
Definition floor_total_label (l : str) : bool :=
  str_eqb l (u8 "из 10") || str_eqb l (u8 "этажей") || startswith (u8 "из") l.

(** A card whose total-area value is a lone no-break space, followed by
    a floor container. *)
Definition blank_area_card : card_page :=
  mk_card_page None None
    [mk_highlight (Some [160]) (Some (u8 "общая"));
     mk_highlight (Some (u8 "5")) (Some (u8 "этаж"))].

Definition floor_only_card : card_page :=
  mk_card_page None None [mk_highlight (Some (u8 "5")) (Some (u8 "этаж"))].

(** Text free of the characters [urlsplit] removes. *)
Definition safe (s : str) : Prop := forall x, In x s -> Urllib.is_unsafe x = false.

(** A scheme as [urlsplit] returns it: empty, or lower-case scheme
    characters after a letter. *)
Definition scheme_wf (sc : str) : Prop :=
  sc = [] \/
  exists c pre, sc = c :: pre /\ Urllib.is_ascii_alpha c = true
                /\ forallb Urllib.is_scheme_char sc = true
                /\ map Urllib.ascii_lower sc = sc.

(** A network location holds none of the characters that end it. *)
Definition no_delim (n : str) : Prop :=
  forall x, In x n -> Urllib.is_netloc_delim x = false.

(** The pieces [urlunsplit] writes around the path. *)
Definition query_part (q : str) : str := match q with [] => [] | _ => 63 :: q end.
Definition fragment_part (f : str) : str := match f with [] => [] | _ => 35 :: f end.
Definition scheme_part (sc : str) : str := match sc with [] => [] | _ => sc ++ [58] end.

(** The three checks [urlsplit] makes on a network location. *)
Definition netloc_checks (nfkc : str -> str) (chk : str -> bool) (n : str) : bool :=
  negb ((has_char 91 n && negb (has_char 93 n)) || (has_char 93 n && negb (has_char 91 n)))
  && negb (has_char 91 n && has_char 93 n && negb (chk n))
  && Urllib.checknetloc nfkc n.

(** The path with its parameters, as [urlunparse] writes it. *)
Definition with_params (P prm : str) : str :=
  match prm with [] => P | _ => P ++ 59 :: prm end.

(** The slash [urlunsplit] puts before a path that lacks one, and the two
    steps of [urljoin] that turn the segments of a rooted path into the
    new path. *)
Definition maybe_slash (X : str) : str :=
  match X with
  | [] => []
  | c :: _ => if c =? 47 then X else 47 :: X
  end.

Definition resolved_of (segments : list str) : list str :=
  let r := rev (Urllib.resolve_segments [] segments) in
  if bool_decide (List.last segments [] = [46])
     || bool_decide (List.last segments [] = [46; 46])
  then r ++ [[]]
  else r.

Definition new_path_of (segments : list str) : str :=
  match join_char 47 (resolved_of segments) with
  | [] => [47]
  | p => p
  end.

Section Loads.

Variable nfkc : str -> str.
Variable check_bracketed_netloc : str -> bool.
Variable parse_qs : str -> qs_dict.
Variable urlencode : qs_dict -> str.
Context {W : Type}.
Variable nav : W -> str -> W * listing_load.

(** The pages a walk loads from a state on, each with its anchors: the
    page of the state itself when it renders, and the pages loaded from
    the next state on when this page does not end the walk. *)
Inductive loads_page : W * str * gset str -> str -> list (option str) -> Prop :=
| loads_here w current_url collected_links page_param w1 hrefs :
    page_param_of nfkc check_bracketed_netloc parse_qs current_url = Ok page_param ->
    nav w current_url = (w1, ListingLoaded hrefs) ->
    loads_page (w, current_url, collected_links) current_url hrefs
| loads_later s s' page hrefs :
    walks_on nfkc check_bracketed_netloc parse_qs urlencode nav s s' ->
    loads_page s' page hrefs ->
    loads_page s page hrefs.

End Loads.

Section CountsUp.

Variable nfkc : str -> str.
Variable check_bracketed_netloc : str -> bool.
Variable parse_qs : str -> qs_dict.
Variable urlencode : qs_dict -> str.

(** The page numbers read off the URLs the walker builds go up by one,
    [n] times over, from the number [p] of the URL [u]. *)
Fixpoint counts_up (n : nat) (u : str) (p : Z) : Prop :=
  page_param_of nfkc check_bracketed_netloc parse_qs u = Ok p
  /\ match n with
     | O => True
     | S n' =>
         forall next,
           next_page_url nfkc check_bracketed_netloc parse_qs urlencode u p = Ok next ->
           counts_up n' next (p + 1)
     end.

End CountsUp.

(** * Properties *)

(** ** The Unicode tables *)

Lemma decimal_inv c v :
  Unicode.decimal c = Some v ->
  exists s k, In s Unicode.decimal_starts /\ k < 10 /\ c = s + k /\ v = k.
Proof.
  unfold Unicode.decimal.
  destruct (List.find _ _) as [s|] eqn:Hf; [|discriminate].
  intros [= <-]. apply find_some in Hf as [Hin Hb].
  apply andb_true_iff in Hb as [H1 H2].
  apply N.leb_le in H1. apply N.ltb_lt in H2.
  exists s, (c - s). repeat split; [assumption | lia | lia].
Qed.

Lemma decimal_starts_forall (P : N -> N -> bool) :
  forallb (fun s => forallb (P s) [0; 1; 2; 3; 4; 5; 6; 7; 8; 9]) Unicode.decimal_starts = true ->
  forall s k, In s Unicode.decimal_starts -> k < 10 -> P s k = true.
Proof.
  intros H s k Hs Hk.
  rewrite forallb_forall in H. specialize (H s Hs).
  rewrite forallb_forall in H. apply H.
  assert (k = 0 \/ k = 1 \/ k = 2 \/ k = 3 \/ k = 4 \/ k = 5 \/ k = 6 \/ k = 7
          \/ k = 8 \/ k = 9) as Hc by lia.
  simpl. intuition.
Qed.

(** Every decimal digit is a digit for [str.isdigit], and [int] reads it
    as the ASCII digit of its value. *)
Lemma decimal_facts c v :
  Unicode.decimal c = Some v ->
  Unicode.isdigit c = true /\ to_ascii c = Some (48 + v) /\ v < 10.
Proof.
  intros Hd. destruct (decimal_inv c v Hd) as (s & k & Hs & Hk & -> & ->).
  pose (P := fun s k : N =>
    Unicode.isdigit (s + k)
    && (if s + k <? 127 then s =? 48 else negb (Unicode.isspace (s + k)))).
  assert (P s k = true) as HP.
  { apply decimal_starts_forall; [vm_compute; reflexivity | assumption | assumption]. }
  unfold P in HP. apply andb_true_iff in HP as [Hdig Hrest].
  split; [assumption|]. split; [|assumption].
  unfold to_ascii. rewrite Hd.
  destruct (s + k <? 127) eqn:Hlt.
  - apply N.eqb_eq in Hrest. subst s. reflexivity.
  - apply negb_true_iff in Hrest. rewrite Hrest. reflexivity.
Qed.

Lemma isdecimal_true c :
  Unicode.isdecimal c = true -> exists v, Unicode.decimal c = Some v.
Proof.
  unfold Unicode.isdecimal. destruct (Unicode.decimal c) as [v|]; [eauto | discriminate].
Qed.

(** ** [int] on a run of decimal digits *)

Lemma transform_all_decimal s :
  all_decimal s ->
  transform_decimal_and_space s = Some (map ascii_of_decimal s).
Proof.
  induction 1 as [|c s Hc _ IH]; [reflexivity|].
  simpl. destruct (isdecimal_true c Hc) as [v Hv].
  destruct (decimal_facts c v Hv) as (_ & Ha & _).
  rewrite Ha, IH. unfold ascii_of_decimal, digit_val. rewrite Hv, N2Z.id. reflexivity.
Qed.

Lemma digit_val_range c :
  Unicode.isdecimal c = true -> (0 <= digit_val c < 10)%Z.
Proof.
  intros Hc. destruct (isdecimal_true c Hc) as [v Hv].
  destruct (decimal_facts c v Hv) as (_ & _ & Hlt).
  unfold digit_val. rewrite Hv. lia.
Qed.

Lemma ascii_of_decimal_facts c :
  Unicode.isdecimal c = true ->
  ascii_digit (ascii_of_decimal c) = Some (digit_val c)
  /\ (ascii_of_decimal c =? 95) = false
  /\ c_isspace (ascii_of_decimal c) = false
  /\ (ascii_of_decimal c =? 43) = false
  /\ (ascii_of_decimal c =? 45) = false.
Proof.
  intros Hc. pose proof (digit_val_range c Hc) as Hr.
  unfold ascii_of_decimal. set (d := digit_val c) in *.
  unfold ascii_digit, c_isspace.
  replace (48 <=? 48 + Z.to_N d) with true by (symmetry; apply N.leb_le; lia).
  replace (48 + Z.to_N d <=? 57) with true by (symmetry; apply N.leb_le; lia).
  replace (48 + Z.to_N d =? 95) with false by (symmetry; apply N.eqb_neq; lia).
  replace (48 + Z.to_N d =? 43) with false by (symmetry; apply N.eqb_neq; lia).
  replace (48 + Z.to_N d =? 45) with false by (symmetry; apply N.eqb_neq; lia).
  replace (48 + Z.to_N d =? 32) with false by (symmetry; apply N.eqb_neq; lia).
  replace (48 + Z.to_N d <=? 13) with false by (symmetry; apply N.leb_gt; lia).
  simpl. rewrite andb_false_r. repeat split; try reflexivity.
  f_equal. lia.
Qed.

Lemma int_digits_all_decimal s acc b :
  all_decimal s -> s <> [] ->
  int_digits acc b (map ascii_of_decimal s)
  = Some (fold_left (fun a c => (10 * a + digit_val c)%Z) s acc).
Proof.
  intros Hs. revert acc b. induction Hs as [|c s Hc Hs IH]; intros acc b Hne; [congruence|].
  simpl. destruct (ascii_of_decimal_facts c Hc) as (Hd & Hu & _).
  rewrite Hu, Hd. destruct s as [|c' s'].
  - reflexivity.
  - apply IH. discriminate.
Qed.

Lemma lstrip_c_all_decimal s :
  all_decimal s -> lstrip_c (map ascii_of_decimal s) = map ascii_of_decimal s.
Proof.
  intros [|c t Hc Ht]; [reflexivity|].
  simpl. destruct (ascii_of_decimal_facts c Hc) as (_ & _ & Hsp & _).
  rewrite Hsp. reflexivity.
Qed.

Lemma literal_digits_all_decimal s :
  all_decimal s ->
  List.filter (fun c => negb (c =? 95)) (map ascii_of_decimal s) = map ascii_of_decimal s.
Proof.
  induction 1 as [|c s Hc _ IH]; [reflexivity|].
  cbn [map List.filter]. destruct (ascii_of_decimal_facts c Hc) as (_ & Hu & _).
  rewrite Hu. cbn [negb]. rewrite IH. reflexivity.
Qed.

(** [int] on a run of decimal digits: the number the run denotes, unless
    the run is longer than the limit. *)
Lemma py_int_run s :
  all_decimal s -> s <> [] ->
  py_int s =
  if (Z.of_nat (length s) >? int_max_str_digits)%Z then Raise ValueError
  else Ok (digits_value s).
Proof.
  intros Hs Hne. unfold py_int. rewrite (transform_all_decimal s Hs).
  rewrite (lstrip_c_all_decimal s Hs).
  destruct s as [|c s]; [congruence|].
  pose proof Hs as Hs'. apply Forall_cons in Hs' as [Hc Hs'].
  destruct (ascii_of_decimal_facts c Hc) as (_ & _ & _ & Hp & Hm).
  cbn [map]. rewrite Hp, Hm.
  change (ascii_of_decimal c :: map ascii_of_decimal s)
    with (map ascii_of_decimal (c :: s)).
  rewrite <- map_rev, lstrip_c_all_decimal by (apply Forall_rev; assumption).
  rewrite map_rev, rev_involutive.
  rewrite (int_digits_all_decimal (c :: s) 0%Z true Hs Hne).
  cbv zeta. rewrite (literal_digits_all_decimal (c :: s) Hs), length_map.
  destruct (Z.of_nat (length (c :: s)) >? int_max_str_digits)%Z; [reflexivity|].
  unfold digits_value. f_equal. lia.
Qed.

Lemma py_int_digits s :
  all_decimal s -> s <> [] -> (Z.of_nat (length s) <= int_max_str_digits)%Z ->
  py_int s = Ok (digits_value s).
Proof.
  intros Hs Hne Hlen. rewrite (py_int_run s Hs Hne).
  replace (Z.of_nat (length s) >? int_max_str_digits)%Z with false; [reflexivity|].
  symmetry. rewrite Z.gtb_ltb. apply Z.ltb_ge. exact Hlen.
Qed.

Lemma py_int_over_limit s :
  all_decimal s -> (int_max_str_digits < Z.of_nat (length s))%Z ->
  py_int s = Raise ValueError.
Proof.
  intros Hs Hlen.
  assert (s <> []) as Hne by (intros ->; cbn in Hlen; unfold int_max_str_digits in Hlen; lia).
  rewrite (py_int_run s Hs Hne).
  replace (Z.of_nat (length s) >? int_max_str_digits)%Z with true; [reflexivity|].
  symmetry. rewrite Z.gtb_ltb. apply Z.ltb_lt. exact Hlen.
Qed.

(** ** The currency parser *)

Lemma re_sub_non_digits_all_decimal t : all_decimal (re_sub_non_digits t).
Proof.
  unfold all_decimal, re_sub_non_digits. apply List.Forall_forall.
  intros c Hc. apply filter_In in Hc. tauto.
Qed.

Lemma str_isdigit_all_decimal s :
  all_decimal s -> s <> [] -> str_isdigit s = true.
Proof.
  intros Hs Hne. destruct s as [|c s]; [congruence|].
  unfold str_isdigit. apply forallb_forall. intros x Hx.
  unfold all_decimal in Hs. rewrite List.Forall_forall in Hs. specialize (Hs x Hx).
  destruct (isdecimal_true x Hs) as [v Hv].
  destruct (decimal_facts x v Hv) as (Hd & _). exact Hd.
Qed.

Lemma parse_price_residue t :
  parse_price (Some t) =
  match re_sub_non_digits t with
  | [] => Ok None
  | d =>
      if (Z.of_nat (length d) >? int_max_str_digits)%Z then Raise ValueError
      else Ok (Some (digits_value d))
  end.
Proof.
  unfold parse_price. destruct t as [|c t]; [reflexivity|].
  pose proof (re_sub_non_digits_all_decimal (c :: t)) as Hall.
  destruct (re_sub_non_digits (c :: t)) as [|d ds] eqn:Hres; [reflexivity|].
  rewrite (str_isdigit_all_decimal (d :: ds) Hall) by discriminate.
  rewrite (py_int_run (d :: ds) Hall) by discriminate.
  destruct (Z.of_nat (length (d :: ds)) >? int_max_str_digits)%Z; reflexivity.
Qed.

(** The parser raises nothing but [ValueError]. *)
Lemma parse_price_raises text e : parse_price text = Raise e -> e = ValueError.
Proof.
  destruct text as [t|]; [|discriminate].
  rewrite parse_price_residue. destruct (re_sub_non_digits t); [discriminate|].
  cbv beta iota zeta.
  match goal with
  | |- context [(?a >? ?b)%Z] => destruct (a >? b)%Z
  end; [congruence | discriminate].
Qed.

(** C4, at the digit limit. The currency parser maps "7 750 000 ₽" to
    7750000 and gives [None] on [None], on the empty string and on a text
    without digits; it removes every character that is not a decimal digit
    and reads what is left as an integer. It does raise, though: when more
    digits are left than [int] accepts, 4300, the [ValueError] of [int]
    leaves the parser, whose [isdigit] guard lets such a text through. *)
Theorem parse_price_spec :
  parse_price (Some (u8 "7 750 000 ₽")) = Ok (Some 7750000%Z)
  /\ parse_price None = Ok None
  /\ parse_price (Some []) = Ok None
  /\ (forall t, re_sub_non_digits t = [] -> parse_price (Some t) = Ok None)
  /\ (forall t,
        re_sub_non_digits t <> [] ->
        (Z.of_nat (length (re_sub_non_digits t)) <= int_max_str_digits)%Z ->
        parse_price (Some t) = Ok (Some (digits_value (re_sub_non_digits t))))
  /\ (forall t,
        (int_max_str_digits < Z.of_nat (length (re_sub_non_digits t)))%Z ->
        parse_price (Some t) = Raise ValueError).
Proof.
  split; [vm_compute; reflexivity|].
  split; [reflexivity|]. split; [reflexivity|].
  split; [|split].
  - intros t Hd. rewrite parse_price_residue, Hd. reflexivity.
  - intros t Hne Hlen. rewrite parse_price_residue.
    destruct (re_sub_non_digits t) as [|d ds]; [congruence|]. cbv beta iota zeta.
    replace (Z.of_nat (length (d :: ds)) >? int_max_str_digits)%Z with false;
      [reflexivity|].
    symmetry. rewrite Z.gtb_ltb. apply Z.ltb_ge. exact Hlen.
  - intros t Hlen. rewrite parse_price_residue.
    destruct (re_sub_non_digits t) as [|d ds];
      [cbn in Hlen; unfold int_max_str_digits in Hlen; lia|]. cbv beta iota zeta.
    replace (Z.of_nat (length (d :: ds)) >? int_max_str_digits)%Z with true;
      [reflexivity|].
    symmetry. rewrite Z.gtb_ltb. apply Z.ltb_lt. exact Hlen.
Qed.

(** ** The integer parser *)

Lemma findall_digits_aux_runs cur s :
  all_decimal cur ->
  Forall (fun r => all_decimal r /\ r <> []) (findall_digits_aux cur s).
Proof.
  revert cur. induction s as [|c s IH]; intros cur Hcur; simpl.
  - destruct cur as [|x cur']; [constructor|].
    constructor; [|constructor]. split.
    + apply Forall_rev. exact Hcur.
    + intros Hr. apply (f_equal (@rev N)) in Hr. rewrite rev_involutive in Hr. discriminate.
  - destruct (Unicode.isdecimal c) eqn:Hc.
    + apply IH. constructor; assumption.
    + destruct cur as [|x cur']; [apply IH; constructor|].
      constructor; [|apply IH; constructor]. split.
      * apply Forall_rev. exact Hcur.
      * intros Hr. apply (f_equal (@rev N)) in Hr. rewrite rev_involutive in Hr. discriminate.
Qed.

Lemma parse_int_value_first_run t :
  parse_int_value (Some t) =
  match re_findall_digits t with
  | n0 :: _ =>
      if (Z.of_nat (length n0) >? int_max_str_digits)%Z then Raise ValueError
      else Ok (Some (digits_value n0))
  | [] => Ok None
  end.
Proof.
  unfold parse_int_value. destruct t as [|c t]; [reflexivity|].
  pose proof (findall_digits_aux_runs [] (c :: t) (List.Forall_nil _)) as Hruns.
  fold (re_findall_digits (c :: t)) in Hruns.
  destruct (re_findall_digits (c :: t)) as [|n0 ns]; [reflexivity|].
  apply Forall_cons in Hruns as [[Hall Hne] _].
  rewrite (py_int_run n0 Hall Hne).
  destruct (Z.of_nat (length n0) >? int_max_str_digits)%Z; reflexivity.
Qed.

(** The parser raises nothing but [ValueError]. *)
Lemma parse_int_value_raises text e : parse_int_value text = Raise e -> e = ValueError.
Proof.
  destruct text as [t|]; [|discriminate].
  rewrite parse_int_value_first_run. destruct (re_findall_digits t); [discriminate|].
  cbv beta iota zeta.
  match goal with
  | |- context [(?a >? ?b)%Z] => destruct (a >? b)%Z
  end; [congruence | discriminate].
Qed.

(** C5. Given what [float] makes of "12.4", the decimal parser maps
    "12,4 м²" to it: the first blank-separated word is read with its commas
    turned into points. The integer parser maps "10 этаж" to 10, the value
    of the first run of digits in the text; a first run of more digits
    than [int] accepts, 4300, is not read: [int] raises [ValueError] on it.
    Both parsers give [None] on [None] and on the empty string. *)
Theorem measurement_parsers_spec {F : Type} (py_float : str -> option F) (x : F) :
  py_float (u8 "12.4") = Some x ->
  parse_float_value py_float (Some (u8 "12,4 м²")) = Ok (Some x)
  /\ (forall t w rest,
        split_ws t = w :: rest ->
        parse_float_value py_float (Some t) =
        match py_float (replace_char 44 46 w) with
        | Some f => Ok (Some f)
        | None => Ok None
        end)
  /\ parse_int_value (Some (u8 "10 этаж")) = Ok (Some 10%Z)
  /\ (forall t n0 rest,
        re_findall_digits t = n0 :: rest ->
        (Z.of_nat (length n0) <= int_max_str_digits)%Z ->
        parse_int_value (Some t) = Ok (Some (digits_value n0)))
  /\ (forall t n0 rest,
        re_findall_digits t = n0 :: rest ->
        (int_max_str_digits < Z.of_nat (length n0))%Z ->
        parse_int_value (Some t) = Raise ValueError)
  /\ parse_float_value py_float None = Ok None
  /\ parse_float_value py_float (Some []) = Ok None
  /\ parse_int_value None = Ok None
  /\ parse_int_value (Some []) = Ok None.
Proof.
  intros Hx. split.
  { unfold parse_float_value.
    change (split_ws (u8 "12,4 м²")) with (split_ws_aux [] (u8 "12,4 м²")).
    replace (split_ws_aux [] (u8 "12,4 м²")) with [u8 "12,4"; u8 "м²"]
      by (vm_compute; reflexivity).
    cbn [first_item rbind].
    replace (replace_char 44 46 (u8 "12,4")) with (u8 "12.4") by (vm_compute; reflexivity).
    rewrite Hx. reflexivity. }
  split.
  { intros t w rest Hsplit. unfold parse_float_value.
    destruct t as [|c t]; [discriminate|].
    rewrite Hsplit. reflexivity. }
  split; [vm_compute; reflexivity|].
  split.
  { intros t n0 rest Hruns Hlen. rewrite parse_int_value_first_run, Hruns.
    replace (Z.of_nat (length n0) >? int_max_str_digits)%Z with false; [reflexivity|].
    symmetry. rewrite Z.gtb_ltb. apply Z.ltb_ge. exact Hlen. }
  split.
  { intros t n0 rest Hruns Hlen. rewrite parse_int_value_first_run, Hruns.
    replace (Z.of_nat (length n0) >? int_max_str_digits)%Z with true; [reflexivity|].
    symmetry. rewrite Z.gtb_ltb. apply Z.ltb_lt. exact Hlen. }
  repeat split; reflexivity.
Qed.

(** ** The field extractor *)

Lemma floor_total_label_not_earlier l :
  floor_total_label l = true ->
  str_eqb l (u8 "общая") = false /\ str_eqb l (u8 "жилая") = false
  /\ str_eqb l (u8 "кухня") = false /\ str_eqb l (u8 "этаж") = false.
Proof.
  intros Hl. unfold str_eqb.
  repeat split; case_bool_decide as Heq; try reflexivity;
    subst l; vm_compute in Hl; discriminate.
Qed.

Section ExtractorFacts.

Context {F : Type}.
Variable py_float : str -> option F.
Variable py_lower : str -> str.

(** C7. A container goes to the floor-total field exactly when its
    normalised label is "из 10", is "этажей" or begins with "из". On such
    a label the floor-total field of the dictionary becomes what the
    integer parser reads from the value text and every other field keeps
    its value; should the parser raise, no field is assigned. On any other
    label the floor-total field keeps its value. *)
Theorem floor_total_routing (data : offer F) (value_text label_text : str) :
  (floor_total_label label_text = true ->
   match parse_int_value (Some value_text) with
   | Ok n =>
       exists data',
         route_highlight py_float data value_text label_text = Ok data'
         /\ floor_total data' = n
         /\ same_but_floor_total data data'
   | Raise e => route_highlight py_float data value_text label_text = Raise e
   end)
  /\ (floor_total_label label_text = false ->
      forall data',
        route_highlight py_float data value_text label_text = Ok data' ->
        floor_total data' = floor_total data).
Proof.
  split.
  - intros Hl.
    destruct (floor_total_label_not_earlier label_text Hl) as (H1 & H2 & H3 & H4).
    assert (route_highlight py_float data value_text label_text
            = do v <- parse_int_value (Some value_text); Ok (set_floor_total v data)) as Hr.
    { unfold route_highlight. rewrite H1, H2, H3, H4.
      unfold floor_total_label in Hl. rewrite Hl. reflexivity. }
    rewrite Hr. destruct (parse_int_value (Some value_text)) as [n|e]; [|reflexivity].
    exists (set_floor_total n data). split; [reflexivity|]. split; [reflexivity|].
    unfold same_but_floor_total. repeat split; reflexivity.
  - intros Hl data'. unfold route_highlight.
    unfold floor_total_label in Hl. rewrite Hl.
    repeat match goal with
           | |- context [if ?b then _ else _] => destruct b
           end;
      try (destruct (parse_float_value py_float (Some value_text)) as [v|e];
           simpl; [intros [= <-]; reflexivity | discriminate]);
      try (destruct (parse_int_value (Some value_text)) as [v|e];
           simpl; [intros [= <-]; reflexivity | discriminate]).
    intros [= <-]. reflexivity.
Qed.

Lemma route_highlight_url (data data' : offer F) value_text label_text :
  route_highlight py_float data value_text label_text = Ok data' ->
  url data' = url data.
Proof.
  unfold route_highlight.
  repeat match goal with
         | |- context [if ?b then _ else _] => destruct b
         end;
    try (destruct (parse_float_value py_float (Some value_text)) as [v|e];
         simpl; [intros [= <-]; reflexivity | discriminate]);
    try (destruct (parse_int_value (Some value_text)) as [v|e];
         simpl; [intros [= <-]; reflexivity | discriminate]).
  intros [= <-]. reflexivity.
Qed.

Lemma scan_features_url cs (data : offer F) :
  url (fst (scan_features py_float py_lower data cs)) = url data.
Proof.
  revert data. induction cs as [|c cs IH]; intros data; [reflexivity|].
  simpl. destruct (value_elem c) as [v|]; [|apply IH].
  destruct (label_elem c) as [l|]; [|apply IH].
  destruct (route_highlight _ _ _ _) as [data'|e] eqn:Hr; [|reflexivity].
  rewrite IH. eapply route_highlight_url. exact Hr.
Qed.

Lemma extract_fields_url (data : offer F) p :
  url (fst (extract_fields py_float py_lower data p)) = url data.
Proof.
  unfold extract_fields.
  destruct (price_elem p) as [t|].
  - destruct (parse_price (Some t)) as [v|e]; simpl; [|reflexivity].
    rewrite scan_features_url. destruct (address_elem p); reflexivity.
  - rewrite scan_features_url. destruct (address_elem p); reflexivity.
Qed.

Context {W : Type}.
Variable goto : W -> str -> W * card_load.

Lemma scrape_offer_details_url w u :
  url (snd (scrape_offer_details py_float py_lower goto w u)) = u.
Proof.
  unfold scrape_offer_details. destruct (goto w u) as [w' [|p]]; [reflexivity|].
  simpl. apply extract_fields_url.
Qed.

Lemma fetch_loop_urls links : forall w results,
  map url (snd (fetch_loop py_float py_lower goto w links results))
  = map url results ++ links.
Proof.
  induction links as [|link rest IH]; intros w results; simpl.
  - rewrite app_nil_r. reflexivity.
  - pose proof (scrape_offer_details_url w link) as Hu.
    destruct (scrape_offer_details py_float py_lower goto w link) as [w' offer_data].
    simpl in Hu. rewrite IH, map_app. simpl. rewrite Hu, <- app_assoc. reflexivity.
Qed.

(** C3. The detail fetcher returns one record per link, in the order of
    the links: the source URLs of the records are the links themselves,
    whatever the navigation and the extraction of each link do. *)
Theorem scrape_offers_details_order (w : W) (links : list str) :
  map url (snd (scrape_offers_details py_float py_lower goto w links)) = links
  /\ length (snd (scrape_offers_details py_float py_lower goto w links)) = length links.
Proof.
  assert (map url (snd (scrape_offers_details py_float py_lower goto w links)) = links)
    as Hm by (unfold scrape_offers_details; rewrite fetch_loop_urls; reflexivity).
  split; [exact Hm|].
  rewrite <- Hm at 2. rewrite length_map. reflexivity.
Qed.

End ExtractorFacts.

Section Degradation.

Context {F : Type}.
Variable py_float : str -> option F.
Variable py_lower : str -> str.

Lemma route_highlight_set_price v (data : offer F) value_text label_text :
  route_highlight py_float (set_price_rub v data) value_text label_text =
  match route_highlight py_float data value_text label_text with
  | Ok data' => Ok (set_price_rub v data')
  | Raise e => Raise e
  end.
Proof.
  unfold route_highlight.
  repeat match goal with
         | |- context [if ?b then _ else _] => destruct b
         end;
    try (destruct (parse_float_value py_float (Some value_text)) as [x|e]; reflexivity);
    try (destruct (parse_int_value (Some value_text)) as [x|e]; reflexivity).
Qed.

Lemma scan_features_set_price v cs : forall data : offer F,
  scan_features py_float py_lower (set_price_rub v data) cs =
  (set_price_rub v (fst (scan_features py_float py_lower data cs)),
   snd (scan_features py_float py_lower data cs)).
Proof.
  induction cs as [|c cs IH]; intros data; [reflexivity|].
  simpl. destruct (value_elem c) as [x|]; [|apply IH].
  destruct (label_elem c) as [l|]; [|apply IH].
  rewrite route_highlight_set_price.
  destruct (route_highlight py_float data x (py_lower (strip l))) as [data'|e];
    [apply IH | reflexivity].
Qed.

(** A price element whose text the parser reads bears on the price field
    alone: the other fields are those of the same page without a price
    element. *)
Lemma price_failure_isolated (data : offer F) price_text address_text containers v :
  parse_price (Some price_text) = Ok v ->
  fst (extract_fields py_float py_lower data
         (mk_card_page (Some price_text) address_text containers))
  = set_price_rub v
      (fst (extract_fields py_float py_lower data
              (mk_card_page None address_text containers))).
Proof.
  intros Hv.
  unfold extract_fields. cbn [price_elem address_elem feature_containers].
  rewrite Hv. cbn [rbind].
  destruct address_text as [a|].
  - change (set_address (parse_address (Some a)) (set_price_rub v data))
      with (set_price_rub v (set_address (parse_address (Some a)) data)).
    rewrite scan_features_set_price. reflexivity.
  - rewrite scan_features_set_price. reflexivity.
Qed.

End Degradation.

Section BlankMeasurement.

Context {F : Type}.
Variable py_float : str -> option F.
Variable py_lower : str -> str.
Context {W : Type}.
Variable goto : W -> str -> W * card_load.

(** C2, at the failing card. The value text of the total-area container
    is white space only: [parse_float_value] raises [IndexError] on it,
    the extraction stops there, and the floor of the next container,
    which parses to 5 and is extracted when the card has that container
    alone, is left absent. *)
Theorem blank_measurement_drops_floor (w w1 : W) (u : str) :
  py_lower (u8 "общая") = u8 "общая" ->
  py_lower (u8 "этаж") = u8 "этаж" ->
  parse_float_value py_float (Some [160]) = Raise IndexError
  /\ parse_int_value (Some (u8 "5")) = Ok (Some 5%Z)
  /\ (goto w u = (w1, CardLoaded blank_area_card) ->
      floor (snd (scrape_offer_details py_float py_lower goto w u)) = None)
  /\ (goto w u = (w1, CardLoaded floor_only_card) ->
      floor (snd (scrape_offer_details py_float py_lower goto w u)) = Some 5%Z).
Proof.
  intros Hl1 Hl2.
  replace (u8 "общая") with (strip (u8 "общая")) in Hl1 at 1 by (vm_compute; reflexivity).
  replace (u8 "этаж") with (strip (u8 "этаж")) in Hl2 at 1 by (vm_compute; reflexivity).
  split; [vm_compute; reflexivity|].
  split; [vm_compute; reflexivity|].
  split; intros Hg; unfold scrape_offer_details; rewrite Hg;
    unfold extract_fields, blank_area_card, floor_only_card;
    cbn [price_elem address_elem feature_containers scan_features value_elem label_elem
         snd fst].
  - rewrite Hl1. vm_compute. reflexivity.
  - rewrite Hl2. vm_compute. reflexivity.
Qed.

End BlankMeasurement.

(** ** The batch insert *)

Section CassandraFacts.

Context {Session Offer : Type}.
Variable execute : Session -> Offer -> Session * result unit.

Lemma insert_loop_counts offers_data : forall s succ fail,
  let '(_, (succ', fail')) := insert_loop execute s offers_data succ fail in
  (succ' + fail' = succ + fail + Z.of_nat (length offers_data))%Z
  /\ (succ <= succ')%Z /\ (fail <= fail')%Z.
Proof.
  induction offers_data as [|o rest IH]; intros s succ fail.
  - simpl. lia.
  - cbn [insert_loop]. destruct (insert_offer execute s o) as [s' inserted].
    destruct inserted.
    + specialize (IH s' (succ + 1)%Z fail).
      destruct (insert_loop execute s' rest (succ + 1)%Z fail) as [s'' [a b]].
      cbn [length]. lia.
    + specialize (IH s' succ (fail + 1)%Z).
      destruct (insert_loop execute s' rest succ (fail + 1)%Z) as [s'' [a b]].
      cbn [length]. lia.
Qed.

(** C10. The statistics of a batch insert add up: the successful and the
    failed inserts are both non-negative, their sum is the total, and the
    total is the length of the list handed in, whichever inserts fail. *)
Theorem insert_offers_batch_counts (s : Session) (offers_data : list Offer) :
  let stats := snd (insert_offers_batch execute s offers_data) in
  (successful stats + failed stats = total stats)%Z
  /\ total stats = Z.of_nat (length offers_data)
  /\ (0 <= successful stats)%Z
  /\ (0 <= failed stats)%Z.
Proof.
  unfold insert_offers_batch.
  pose proof (insert_loop_counts offers_data s 0%Z 0%Z) as H.
  destruct (insert_loop execute s offers_data 0%Z 0%Z) as [s' [succ fail]].
  cbn. lia.
Qed.

End CassandraFacts.

(** ** The export pipeline *)

Section ExportFacts.

Context {DataFrame S3Client : Type}.
Variable env : @export_env DataFrame S3Client.

Lemma save_dataframe_to_csv_creates fs df filename fs1 csv_file :
  save_dataframe_to_csv env fs df filename = (fs1, Ok csv_file) ->
  fs1 = {[csv_file]} ∪ fs.
Proof.
  unfold save_dataframe_to_csv.
  destruct (to_csv env df _); [|discriminate].
  intros [= <- <-]. reflexivity.
Qed.

(** Without a data frame to write, the export answers [false] and touches
    no file. *)
Lemma export_without_data fs bucket_name keep_local_file :
  (forall df, create_offers_dataframe_with_districts env = Ok (Some df) ->
              df_empty env df = true) ->
  export_offers_to_yandex_cloud env fs bucket_name keep_local_file = (fs, false).
Proof.
  intros Hdf. unfold export_offers_to_yandex_cloud.
  destruct (create_offers_dataframe_with_districts env) as [[df|]|e]; try reflexivity.
  rewrite (Hdf df eq_refl). reflexivity.
Qed.

(** C9. Once the snapshot is written, the export either leaves the local
    files as they are or removes the snapshot alone. When the upload
    fails the export answers [false] and the files are untouched; when
    the local file is to be kept they are untouched; and the snapshot is
    gone afterwards only if the upload succeeded, the file was not to be
    kept and the export answers [true]. *)
Theorem export_keeps_snapshot_unless_uploaded
    (fs fs1 : gset str) (df : DataFrame) (csv_file : str)
    (bucket_name : option str) (keep_local_file : bool) :
  create_offers_dataframe_with_districts env = Ok (Some df) ->
  df_empty env df = false ->
  save_dataframe_to_csv env fs df None = (fs1, Ok csv_file) ->
  let out := export_offers_to_yandex_cloud env fs bucket_name keep_local_file in
  csv_file ∈ fs1
  /\ (upload_to_yandex_cloud env fs1 csv_file bucket_name = false ->
      out = (fs1, false))
  /\ (keep_local_file = true -> fst out = fs1)
  /\ (csv_file ∉ fst out ->
      upload_to_yandex_cloud env fs1 csv_file bucket_name = true
      /\ keep_local_file = false /\ snd out = true)
  /\ (fst out = fs1 \/ fst out = fs1 ∖ {[csv_file]}).
Proof.
  intros Hdf Hne Hsave out.
  pose proof (save_dataframe_to_csv_creates _ _ _ _ _ Hsave) as Hfs1.
  assert (csv_file ∈ fs1) as Hin by (subst fs1; set_solver).
  subst out. unfold export_offers_to_yandex_cloud.
  rewrite Hdf, Hne, Hsave.
  split; [exact Hin|].
  destruct (upload_to_yandex_cloud env fs1 csv_file bucket_name) eqn:Hup;
    destruct keep_local_file; cbn [negb fst snd];
    (split; [intros; try discriminate; reflexivity|]);
    (split; [intros; try discriminate; reflexivity|]).
  - split; [intros Hn; contradiction | left; reflexivity].
  - split; [intros _; auto|].
    unfold os_remove. rewrite bool_decide_eq_true_2 by exact Hin.
    destruct (remove_allowed env csv_file); [right | left]; reflexivity.
  - split; [intros Hn; contradiction | left; reflexivity].
  - split; [intros Hn; contradiction | left; reflexivity].
Qed.

End ExportFacts.

(** ** The catalogue walker *)

Section WalkerFacts.

Variable nfkc : str -> str.
Variable check_bracketed_netloc : str -> bool.
Variable parse_qs : str -> qs_dict.
Variable urlencode : qs_dict -> str.
Context {W : Type}.
Variable nav : W -> str -> W * listing_load.

Local Abbreviation walk :=
  (_recursive_scrape_page nfkc check_bracketed_netloc parse_qs urlencode nav).
Local Abbreviation page_of := (page_param_of nfkc check_bracketed_netloc parse_qs).
Local Abbreviation collect := (collect_links nfkc check_bracketed_netloc).
Local Abbreviation next_url_of :=
  (next_page_url nfkc check_bracketed_netloc parse_qs urlencode).
Local Abbreviation on_page :=
  (walks_on nfkc check_bracketed_netloc parse_qs urlencode nav).

Lemma collect_links_subseteq current_url hrefs : forall c c',
  collect current_url hrefs c = Ok c' -> c ⊆ c'.
Proof.
  induction hrefs as [|href rest IH]; intros c c'; cbn [collect_links].
  - intros [= <-]. reflexivity.
  - destruct href as [h|]; [|apply IH].
    destruct (negb (bool_decide (h = [])) && startswith (u8 "/offer/") h); [|apply IH].
    destruct (Urllib.urljoin nfkc check_bracketed_netloc current_url h) as [full_url|e];
      cbn [rbind]; [|discriminate].
    intros Hc. apply IH in Hc. set_solver.
Qed.

(** The links a page adds are the resolved item links among its anchors. *)
Lemma collect_links_adds current_url hrefs : forall c c',
  collect current_url hrefs c = Ok c' ->
  forall x,
    x ∈ c' <->
    x ∈ c \/ exists h, In (Some h) hrefs /\ startswith (u8 "/offer/") h = true
                       /\ Urllib.urljoin nfkc check_bracketed_netloc current_url h = Ok x.
Proof.
  induction hrefs as [|href rest IH]; intros c c'; cbn [collect_links].
  - intros [= <-] x. split; [tauto|]. intros [H|(h & [] & _)]. exact H.
  - assert (forall h, (exists h0, In (Some h0) rest /\ startswith (u8 "/offer/") h0 = true
                         /\ Urllib.urljoin nfkc check_bracketed_netloc current_url h0 = Ok h)
                      -> exists h0, In (Some h0) (href :: rest)
                           /\ startswith (u8 "/offer/") h0 = true
                           /\ Urllib.urljoin nfkc check_bracketed_netloc current_url h0 = Ok h)
      as Hweak.
    { intros x (h0 & Hin & Hrest). exists h0. split; [right; exact Hin | exact Hrest]. }
    destruct href as [h|].
    + destruct (negb (bool_decide (h = [])) && startswith (u8 "/offer/") h) eqn:Hguard.
      * apply andb_true_iff in Hguard as [_ Hsw].
        destruct (Urllib.urljoin nfkc check_bracketed_netloc current_url h) as [full_url|e]
          eqn:Hj; cbn [rbind]; [|discriminate].
        intros Hc x. rewrite (IH _ _ Hc x). split.
        -- intros [Hx|Hx]; [|right; apply Hweak; exact Hx].
           apply elem_of_union in Hx as [Hx|Hx]; [|left; exact Hx].
           apply elem_of_singleton in Hx. subst x. right. exists h.
           split; [left; reflexivity|]. split; [exact Hsw | exact Hj].
        -- intros [Hx|(h0 & [Heq|Hin] & Hsw0 & Hj0)].
           ++ left. apply elem_of_union. right. exact Hx.
           ++ injection Heq as ->. rewrite Hj in Hj0. injection Hj0 as ->.
              left. apply elem_of_union. left. apply elem_of_singleton. reflexivity.
           ++ right. exists h0. split; [exact Hin|]. split; [exact Hsw0 | exact Hj0].
      * intros Hc x. rewrite (IH _ _ Hc x). split.
        -- intros [Hx|Hx]; [left; exact Hx | right; apply Hweak; exact Hx].
        -- intros [Hx|(h0 & [Heq|Hin] & Hsw0 & Hj0)]; [left; exact Hx | |].
           ++ injection Heq as ->. rewrite Hsw0, andb_true_r in Hguard.
              apply negb_false_iff, bool_decide_eq_true_1 in Hguard. subst h0. discriminate.
           ++ right. exists h0. split; [exact Hin|]. split; [exact Hsw0 | exact Hj0].
    + intros Hc x. rewrite (IH _ _ Hc x). split.
      * intros [Hx|Hx]; [left; exact Hx | right; apply Hweak; exact Hx].
      * intros [Hx|(h0 & [Heq|Hin] & Hsw0 & Hj0)]; [left; exact Hx | discriminate |].
        right. exists h0. split; [exact Hin|]. split; [exact Hsw0 | exact Hj0].
Qed.

(** The test [found_on_this_page == 0] holds exactly when the page left
    the set as it was. *)
Lemma found_zero_iff current_url hrefs c c' :
  collect current_url hrefs c = Ok c' ->
  ((Z.of_nat (size c') - Z.of_nat (size c) =? 0)%Z = true <-> c' = c).
Proof.
  intros Hc. apply collect_links_subseteq in Hc.
  rewrite Z.eqb_eq. split.
  - intros Hsz. symmetry. apply set_subseteq_size_eq; [exact Hc | lia].
  - intros ->. lia.
Qed.

Lemma next_page_url_defined current_url page_param k :
  page_of current_url = Ok k ->
  exists parsed,
    Urllib.urlparse nfkc check_bracketed_netloc current_url [] = Ok parsed
    /\ next_url_of current_url page_param =
       Ok (Urllib.urlunparse
             (Urllib.mk_parse (Urllib.scheme parsed) (Urllib.netloc parsed)
                (Urllib.path parsed) (Urllib.params parsed)
                (urlencode
                   (dict_set (u8 "page")
                      [py_str (match dict_get (u8 "page") (parse_qs (Urllib.query parsed)) with
                               | None => 2%Z
                               | Some _ => (page_param + 1)%Z
                               end)]
                      (parse_qs (Urllib.query parsed))))
                (Urllib.fragment parsed))).
Proof.
  unfold page_param_of, next_page_url.
  destruct (Urllib.urlparse nfkc check_bracketed_netloc current_url []) as [parsed|e];
    simpl; [|discriminate].
  intros _. exists parsed. split; reflexivity.
Qed.

(** A page that does not end the walk costs one unit of fuel. *)
Lemma walk_step fuel s s' :
  on_page s s' ->
  walk (S fuel) s.1.1 s.1.2 s.2 = walk fuel s'.1.1 s'.1.2 s'.2.
Proof.
  intros [w current_url c page_param w1 hrefs c' next_url Hp Hn Hc Hnew Hlt Hnext].
  cbn [fst snd _recursive_scrape_page].
  rewrite Hp, Hn, Hc, Hnext.
  replace (page_param >=? 25)%Z with false by (symmetry; rewrite Z.geb_leb; apply Z.leb_gt; lia).
  destruct ((Z.of_nat (size c') - Z.of_nat (size c) =? 0)%Z && (page_param >? 1)%Z) eqn:Hstop;
    [|reflexivity].
  apply andb_true_iff in Hstop as [Hz Hgt].
  apply (found_zero_iff _ _ _ _ Hc) in Hz.
  apply Z.gtb_lt in Hgt. destruct Hnew as [Hnew | Hle]; [contradiction | lia].
Qed.

Lemma walk_steps n : forall s s' fuel,
  nsteps on_page n s s' ->
  walk (n + fuel) s.1.1 s.1.2 s.2 = walk fuel s'.1.1 s'.1.2 s'.2.
Proof.
  induction n as [|n IH]; intros s s' fuel Hsteps.
  - inversion Hsteps; subst. reflexivity.
  - inversion Hsteps as [|n' x y z Hxy Hyz]; subst.
    change (S n + fuel)%nat with (S (n + fuel)).
    rewrite (walk_step _ _ _ Hxy). apply IH. exact Hyz.
Qed.

Lemma walks_on_grows n : forall s s',
  nsteps on_page n s s' -> s.2 ⊆ s'.2.
Proof.
  induction n as [|n IH]; intros s s' Hsteps.
  - inversion Hsteps; subst. reflexivity.
  - inversion_clear Hsteps as [|n' x y z Hxy Hyz].
    apply IH in Hyz. destruct Hxy. cbn [snd] in *.
    match goal with H : collect _ _ _ = Ok _ |- _ => apply collect_links_subseteq in H end.
    etransitivity; eassumption.
Qed.

(** C1. Let the walk get through [n] pages and arrive with the set
    [collected] at a page that loads and adds nothing to it. If the page
    number is above 1 the walker returns there, with exactly the links of
    [collected]; if it is 1 or less the walker goes on, with the same set,
    to the URL whose [page] parameter is set to the next number. *)
Theorem zero_yield_page_stops_walk
    (n : nat) (w0 w w1 : W) (seed current_url : str) (c0 collected : gset str)
    (page_param : Z) (hrefs : list (option str)) (fuel : nat) :
  nsteps on_page n (w0, seed, c0) (w, current_url, collected) ->
  page_of current_url = Ok page_param ->
  nav w current_url = (w1, ListingLoaded hrefs) ->
  collect current_url hrefs collected = Ok collected ->
  ((1 < page_param)%Z ->
   walk (n + S fuel) w0 seed c0 = (w1, Some (Ok (elements collected))))
  /\ ((page_param <= 1)%Z ->
      exists next_url,
        next_url_of current_url page_param = Ok next_url
        /\ walk (n + S fuel) w0 seed c0 = walk fuel w1 next_url collected).
Proof.
  intros Hsteps Hp Hn Hc.
  pose proof (walk_steps n _ _ (S fuel) Hsteps) as Hw. cbn [fst snd] in Hw.
  rewrite Hw. clear Hw.
  split.
  - intros Hgt. cbn [_recursive_scrape_page]. rewrite Hp, Hn, Hc.
    rewrite Z.sub_diag. cbn [Z.eqb andb].
    replace (page_param >? 1)%Z with true by (symmetry; apply Z.gtb_lt; lia).
    reflexivity.
  - intros Hle.
    destruct (next_page_url_defined current_url page_param page_param Hp)
      as (parsed & _ & Hnext).
    eexists. split; [exact Hnext|].
    cbn [_recursive_scrape_page]. rewrite Hp, Hn, Hc, Hnext.
    replace (page_param >? 1)%Z with false by (symmetry; rewrite Z.gtb_ltb; apply Z.ltb_ge; lia).
    rewrite andb_false_r.
    replace (page_param >=? 25)%Z with false by (symmetry; rewrite Z.geb_leb; apply Z.leb_gt; lia).
    reflexivity.
Qed.

(** C6. Let the walk get through [n] pages and arrive with the set
    [collected] at a page whose navigation raises or whose wait for an
    item anchor raises. The walker returns there, with exactly the links
    of [collected], and no exception leaves it. *)
Theorem navigation_failure_ends_walk
    (n : nat) (w0 w w1 : W) (seed current_url : str) (c0 collected : gset str)
    (page_param : Z) (fuel : nat) :
  nsteps on_page n (w0, seed, c0) (w, current_url, collected) ->
  page_of current_url = Ok page_param ->
  nav w current_url = (w1, GotoRaised) \/ nav w current_url = (w1, WaitTimedOut) ->
  walk (n + S fuel) w0 seed c0 = (w1, Some (Ok (elements collected))).
Proof.
  intros Hsteps Hp Hn.
  pose proof (walk_steps n _ _ (S fuel) Hsteps) as Hw. cbn [fst snd] in Hw.
  rewrite Hw. clear Hw. cbn [_recursive_scrape_page].
  rewrite Hp. destruct Hn as [Hn | Hn]; rewrite Hn; reflexivity.
Qed.

End WalkerFacts.

(** ** Resolving item links with [urljoin] *)

(** ** Splitting and joining text *)

Lemma has_char_app c a b : has_char c (a ++ b) = has_char c a || has_char c b.
Proof. unfold has_char. apply existsb_app. Qed.

Lemma has_char_cons c x s : has_char c (x :: s) = (c =? x) || has_char c s.
Proof. reflexivity. Qed.

Lemma has_char_false_in c s : has_char c s = false -> forall x, In x s -> x <> c.
Proof.
  intros H x Hx ->. 
  assert (has_char c s = true) as Ht.
  { unfold has_char. apply existsb_exists. exists c. split; [exact Hx | apply N.eqb_refl]. }
  congruence.
Qed.

Lemma partition_char_inv sep s a b :
  partition_char sep s = Some (a, b) -> s = a ++ sep :: b /\ has_char sep a = false.
Proof.
  revert a b. induction s as [|c s IH]; intros a b; simpl; [discriminate|].
  destruct (c =? sep) eqn:Hc.
  - intros [= <- <-]. apply N.eqb_eq in Hc. subst c. split; reflexivity.
  - destruct (partition_char sep s) as [[a' b']|]; [|discriminate].
    intros [= <- <-]. destruct (IH a' b' eq_refl) as [-> Hh].
    split; [reflexivity|]. rewrite has_char_cons, Hh, N.eqb_sym, Hc. reflexivity.
Qed.

Lemma partition_char_none sep s :
  partition_char sep s = None <-> has_char sep s = false.
Proof.
  induction s as [|c s IH]; simpl; [tauto|].
  rewrite (N.eqb_sym sep c).
  destruct (c =? sep); simpl; [split; discriminate|].
  destruct (partition_char sep s) as [[a b]|].
  - split; [discriminate|]. intros H. apply IH in H. discriminate.
  - split; [intros _; apply IH; reflexivity | reflexivity].
Qed.

Lemma partition_char_app sep a b :
  has_char sep a = false -> partition_char sep (a ++ sep :: b) = Some (a, b).
Proof.
  induction a as [|c a IH]; simpl.
  - intros _. rewrite N.eqb_refl. reflexivity.
  - rewrite (N.eqb_sym sep c). destruct (c =? sep); simpl; [discriminate|].
    intros H. rewrite (IH H). reflexivity.
Qed.

Lemma split_char_nonempty sep s : split_char sep s <> [].
Proof.
  destruct s as [|c s]; simpl; [discriminate|].
  destruct (c =? sep); [discriminate|].
  destruct (split_char sep s); discriminate.
Qed.

Lemma split_char_no_sep sep s : has_char sep s = false -> split_char sep s = [s].
Proof.
  induction s as [|c s IH]; simpl; [reflexivity|].
  rewrite (N.eqb_sym sep c). destruct (c =? sep); simpl; [discriminate|].
  intros H. rewrite (IH H). reflexivity.
Qed.

Lemma split_char_app sep a b :
  split_char sep (a ++ sep :: b) = split_char sep a ++ split_char sep b.
Proof.
  induction a as [|c a IH]; simpl.
  - rewrite N.eqb_refl. reflexivity.
  - destruct (c =? sep); simpl; [rewrite IH; reflexivity|].
    rewrite IH. pose proof (split_char_nonempty sep a) as Hne.
    destruct (split_char sep a) as [|h t]; [congruence|]. reflexivity.
Qed.

Lemma split_char_chars sep s seg x :
  In seg (split_char sep s) -> In x seg -> In x s.
Proof.
  revert seg. induction s as [|c s IH]; intros seg; simpl.
  - intros [<-|[]] [].
  - destruct (c =? sep).
    + intros [<-|Hin] Hx; [destruct Hx | right; eapply IH; eassumption].
    + destruct (split_char sep s) as [|h t] eqn:Hs.
      * intros [<-|[]] [->|[]]. left. reflexivity.
      * intros [<-|Hin] Hx.
        -- destruct Hx as [->|Hx]; [left; reflexivity | right].
           apply (IH h); [left; reflexivity | exact Hx].
        -- right. apply (IH seg); [right; exact Hin | exact Hx].
Qed.

Lemma join_char_snoc sep init z :
  init <> [] -> join_char sep (init ++ [z]) = join_char sep init ++ sep :: z.
Proof.
  induction init as [|x init IH]; [congruence|]. intros _.
  destruct init as [|y init].
  - reflexivity.
  - change (join_char sep ((x :: y :: init) ++ [z]))
      with (x ++ sep :: join_char sep ((y :: init) ++ [z])).
    rewrite IH by discriminate.
    change (join_char sep (x :: y :: init)) with (x ++ sep :: join_char sep (y :: init)).
    rewrite <- app_assoc. reflexivity.
Qed.

Lemma join_char_chars sep l x :
  In x (join_char sep l) -> x = sep \/ exists seg, In seg l /\ In x seg.
Proof.
  induction l as [|a l IH]; [intros []|].
  destruct l as [|b l].
  - simpl. intros Hx. right. exists a. split; [left; reflexivity | exact Hx].
  - change (join_char sep (a :: b :: l)) with (a ++ sep :: join_char sep (b :: l)).
    intros Hx. apply in_app_or in Hx as [Hx|[<-|Hx]].
    + right. exists a. split; [left; reflexivity | exact Hx].
    + left. reflexivity.
    + destruct (IH Hx) as [->|(seg & Hs & Hxs)]; [left; reflexivity|].
      right. exists seg. split; [right; exact Hs | exact Hxs].
Qed.

(** ** Re-reading a URL that [urlunsplit] wrote *)

Lemma has_char_false_iff c s : has_char c s = false <-> forall x, In x s -> x <> c.
Proof.
  split; [apply has_char_false_in|].
  intros H. destruct (has_char c s) eqn:Hh; [|reflexivity].
  unfold has_char in Hh. apply existsb_exists in Hh as (x & Hx & Heq).
  apply N.eqb_eq in Heq. subst x. exfalso. exact (H c Hx eq_refl).
Qed.

Lemma has_char_incl c s t : incl s t -> has_char c t = false -> has_char c s = false.
Proof.
  intros Hi Ht. apply has_char_false_iff. intros x Hx.
  apply (has_char_false_in c t Ht). apply Hi. exact Hx.
Qed.

Lemma safe_incl s t : incl s t -> safe t -> safe s.
Proof. intros Hi Ht x Hx. apply Ht, Hi, Hx. Qed.

Lemma safe_app a b : safe a -> safe b -> safe (a ++ b).
Proof. intros Ha Hb x Hx. apply in_app_or in Hx as [Hx|Hx]; auto. Qed.

Lemma safe_cons c s : Urllib.is_unsafe c = false -> safe s -> safe (c :: s).
Proof. intros Hc Hs x [<-|Hx]; auto. Qed.

Lemma safe_nil : safe [].
Proof. intros x []. Qed.

Lemma remove_unsafe_safe s : safe (Urllib.remove_unsafe s).
Proof.
  intros x Hx. apply filter_In in Hx as [_ Hx]. apply negb_true_iff in Hx. exact Hx.
Qed.

Lemma remove_unsafe_id s : safe s -> Urllib.remove_unsafe s = s.
Proof.
  induction s as [|c s IH]; intros Hs; [reflexivity|].
  unfold Urllib.remove_unsafe in *. cbn [List.filter].
  rewrite (Hs c (or_introl eq_refl)). cbn [negb]. f_equal.
  apply IH. intros x Hx. apply Hs. right. exact Hx.
Qed.

Ltac bool_to_prop :=
  repeat (rewrite ?orb_true_iff, ?andb_true_iff, ?N.leb_le, ?N.eqb_eq, ?N.ltb_lt,
            ?orb_false_iff, ?andb_false_iff, ?N.leb_gt, ?N.eqb_neq, ?N.ltb_ge,
            ?negb_true_iff, ?negb_false_iff in * ).

Lemma below_forall (P : N -> bool) (n : nat) :
  forallb P (map N.of_nat (seq 0 n)) = true ->
  forall x, x < N.of_nat n -> P x = true.
Proof.
  intros H x Hx. rewrite forallb_forall in H. apply H.
  apply in_map_iff. exists (N.to_nat x). split; [lia|].
  apply in_seq. lia.
Qed.

Lemma scheme_char_facts x :
  Urllib.is_scheme_char x = true ->
  Urllib.is_unsafe x = false /\ (x <=? 32) = false /\ x <> 58
  /\ Urllib.is_scheme_char (Urllib.ascii_lower x) = true
  /\ Urllib.ascii_lower (Urllib.ascii_lower x) = Urllib.ascii_lower x
  /\ (Urllib.is_ascii_alpha x = true -> Urllib.is_ascii_alpha (Urllib.ascii_lower x) = true).
Proof.
  intros H.
  assert (x < 123) as Hlt.
  { unfold Urllib.is_scheme_char, Urllib.is_ascii_alpha in H. bool_to_prop. lia. }
  pose (P := fun x : N =>
    implb (Urllib.is_scheme_char x)
      (negb (Urllib.is_unsafe x) && negb (x <=? 32) && negb (x =? 58)
       && Urllib.is_scheme_char (Urllib.ascii_lower x)
       && (Urllib.ascii_lower (Urllib.ascii_lower x) =? Urllib.ascii_lower x)
       && implb (Urllib.is_ascii_alpha x) (Urllib.is_ascii_alpha (Urllib.ascii_lower x)))).
  assert (P x = true) as HP.
  { apply (below_forall P 123); [vm_compute; reflexivity | exact Hlt]. }
  unfold P in HP. rewrite H in HP. cbn [implb] in HP.
  repeat (apply andb_true_iff in HP as [HP ?]).
  repeat split.
  - apply negb_true_iff. assumption.
  - apply negb_true_iff. assumption.
  - apply N.eqb_neq, negb_true_iff. assumption.
  - assumption.
  - apply N.eqb_eq. assumption.
  - intros Ha. rewrite Ha in *. assumption.
Qed.

Lemma urlunsplit_netloc sc n X q f :
  n <> [] -> startswith [47] X = true ->
  Urllib.urlunsplit (Urllib.mk_split sc n X q f)
  = scheme_part sc ++ [47; 47] ++ n ++ X ++ query_part q ++ fragment_part f.
Proof.
  intros Hn HX. unfold Urllib.urlunsplit.
  cbn [Urllib.s_url Urllib.s_netloc Urllib.s_scheme Urllib.s_query Urllib.s_fragment].
  rewrite bool_decide_eq_false_2 by exact Hn. cbn [negb orb].
  destruct X as [|x X]; [discriminate|].
  cbn [startswith] in HX. apply andb_true_iff in HX as [Hx _].
  apply N.eqb_eq in Hx. subst x. rewrite N.eqb_refl.
  destruct sc as [|c sc], q as [|cq q], f as [|cf f];
    cbn [scheme_part query_part fragment_part app];
    rewrite <- ?app_assoc, ?app_nil_r; cbn [app]; rewrite <- ?app_assoc; reflexivity.
Qed.

Lemma lstrip_c0_keep s :
  match s with [] => True | c :: _ => (c <=? 32) = false end ->
  Urllib.lstrip_c0 s = s.
Proof. destruct s as [|c s]; [reflexivity|]. simpl. intros ->. reflexivity. Qed.

Lemma strip_c0_keep s :
  (forall x, In x s -> (x <=? 32) = false) -> Urllib.strip_c0 s = s.
Proof.
  intros H. unfold Urllib.strip_c0.
  rewrite (lstrip_c0_keep s).
  - rewrite (lstrip_c0_keep (rev s)); [apply rev_involutive|].
    destruct (rev s) as [|c r] eqn:Hr; [exact I|].
    apply H. apply in_rev. rewrite Hr. left. reflexivity.
  - destruct s as [|c s']; [exact I|]. apply H. left. reflexivity.
Qed.

Lemma scheme_wf_chars sc :
  scheme_wf sc -> forall x, In x sc -> Urllib.is_scheme_char x = true.
Proof.
  intros [->|(c & pre & -> & _ & Hall & _)] x Hx; [destruct Hx|].
  rewrite forallb_forall in Hall. apply Hall. exact Hx.
Qed.

Lemma scheme_wf_clean sc :
  scheme_wf sc -> Urllib.remove_unsafe (Urllib.strip_c0 sc) = sc /\ safe sc
                  /\ has_char 58 sc = false.
Proof.
  intros Hwf. pose proof (scheme_wf_chars sc Hwf) as Hch.
  assert (safe sc) as Hsafe.
  { intros x Hx. apply (scheme_char_facts x (Hch x Hx)). }
  split; [|split; [exact Hsafe|]].
  - rewrite strip_c0_keep; [apply remove_unsafe_id; exact Hsafe|].
    intros x Hx. apply (scheme_char_facts x (Hch x Hx)).
  - apply has_char_false_iff. intros x Hx. apply (scheme_char_facts x (Hch x Hx)).
Qed.

Lemma detect_scheme sc body :
  scheme_wf sc -> startswith [47; 47] body = true ->
  match partition_char 58 (scheme_part sc ++ body) return str * str with
  | Some (c :: pre, post) =>
      if Urllib.is_ascii_alpha c && forallb Urllib.is_scheme_char (c :: pre)
      then (map Urllib.ascii_lower (c :: pre), post)
      else (sc, (scheme_part sc ++ body : str))
  | _ => (sc, (scheme_part sc ++ body : str))
  end = (sc, body).
Proof.
  intros Hwf Hb. destruct (scheme_wf_clean sc Hwf) as (_ & _ & Hcolon).
  destruct Hwf as [->|(c & pre & -> & Ha & Hall & Hlow)].
  - cbn [scheme_part app].
    destruct (partition_char 58 body) as [[a post]|] eqn:Hp; [|reflexivity].
    destruct a as [|c pre]; [reflexivity|].
    apply partition_char_inv in Hp as [-> _].
    cbn [app startswith] in Hb. apply andb_true_iff in Hb as [Hc _].
    apply N.eqb_eq in Hc. subst c. reflexivity.
  - unfold scheme_part. rewrite <- app_assoc.
    change ([58] ++ body) with (58 :: body).
    rewrite (partition_char_app 58 (c :: pre) body Hcolon).
    rewrite Ha, Hall, Hlow. reflexivity.
Qed.

Lemma splitnetloc_app n rest :
  no_delim n ->
  match rest with [] => True | c :: _ => Urllib.is_netloc_delim c = true end ->
  Urllib.splitnetloc (n ++ rest) = (n, rest).
Proof.
  intros Hn Hr. induction n as [|c n IH]; cbn [app].
  - destruct rest as [|c r]; [reflexivity|]. simpl. rewrite Hr. reflexivity.
  - cbn [Urllib.splitnetloc]. rewrite (Hn c (or_introl eq_refl)).
    rewrite IH; [reflexivity|]. intros x Hx. apply Hn. right. exact Hx.
Qed.

Lemma splitnetloc_inv s n r :
  Urllib.splitnetloc s = (n, r) -> s = n ++ r /\ no_delim n.
Proof.
  revert n r. induction s as [|c s IH]; intros n r; cbn [Urllib.splitnetloc].
  - intros [= <- <-]. split; [reflexivity | intros x []].
  - destruct (Urllib.is_netloc_delim c) eqn:Hc.
    + intros [= <- <-]. split; [reflexivity | intros x []].
    + destruct (Urllib.splitnetloc s) as [d r'] eqn:Hs. intros [= <- <-].
      destruct (IH d r' eq_refl) as [-> Hd]. split; [reflexivity|].
      intros x [<-|Hx]; [exact Hc | apply Hd, Hx].
Qed.

Section Reparse.

Variable nfkc : str -> str.
Variable chk : str -> bool.

Lemma urlsplit_urlunsplit sc n X q f :
  scheme_wf sc -> n <> [] -> no_delim n -> netloc_checks nfkc chk n = true ->
  startswith [47] X = true ->
  has_char 63 X = false -> has_char 35 X = false -> has_char 35 q = false ->
  safe n -> safe X -> safe q -> safe f ->
  Urllib.urlsplit nfkc chk (Urllib.urlunsplit (Urllib.mk_split sc n X q f)) sc
  = Ok (Urllib.mk_split sc n X q f).
Proof.
  intros Hwf Hn Hnd Hchk HX HXq HXf Hqf Sn SX Sq Sf.
  rewrite (urlunsplit_netloc sc n X q f Hn HX).
  set (body := [47; 47] ++ n ++ X ++ query_part q ++ fragment_part f).
  destruct (scheme_wf_clean sc Hwf) as (Hclean & Ssc & _).
  assert (safe (scheme_part sc ++ body)) as Sall.
  { apply safe_app.
    - destruct sc; [apply safe_nil|]. apply safe_app; [exact Ssc|].
      apply safe_cons; [reflexivity | apply safe_nil].
    - unfold body. repeat (apply safe_cons; [reflexivity|]).
      apply safe_app; [exact Sn|]. apply safe_app; [exact SX|].
      apply safe_app; [destruct q; [apply safe_nil|apply safe_cons; [reflexivity|exact Sq]]|].
      destruct f; [apply safe_nil|apply safe_cons; [reflexivity|exact Sf]]. }
  unfold Urllib.urlsplit.
  rewrite (lstrip_c0_keep (scheme_part sc ++ body)).
  2:{ destruct Hwf as [->|(c & pre & -> & Ha & Hall & _)]; [reflexivity|].
      cbn [scheme_part app]. cbn [forallb] in Hall.
      apply andb_true_iff in Hall as [Hc _]. apply (scheme_char_facts c Hc). }
  rewrite (remove_unsafe_id _ Sall), Hclean.
  rewrite (detect_scheme sc body Hwf eq_refl).
  change (startswith [47; 47] body) with true. cbn iota.
  change (drop 2 body) with (n ++ X ++ query_part q ++ fragment_part f).
  rewrite (splitnetloc_app n (X ++ query_part q ++ fragment_part f) Hnd).
  2:{ destruct X as [|x X']; [discriminate|]. cbn [app].
      cbn [startswith] in HX. apply andb_true_iff in HX as [Hx _].
      apply N.eqb_eq in Hx. subst x. reflexivity. }
  unfold netloc_checks in Hchk.
  apply andb_true_iff in Hchk as [Hchk Hcn]. apply andb_true_iff in Hchk as [Hb1 Hb2].
  apply negb_true_iff in Hb1, Hb2. rewrite Hb1, Hb2. cbn [rbind].
  assert (has_char 35 (X ++ query_part q) = false) as Hxq.
  { rewrite has_char_app, HXf. destruct q as [|cq q']; [reflexivity|].
    cbn [query_part]. rewrite has_char_cons. exact Hqf. }
  assert (partition_char 35 (X ++ query_part q ++ fragment_part f)
          = match f with [] => None | _ => Some (X ++ query_part q, f) end) as Hpf.
  { destruct f as [|cf f'].
    - cbn [fragment_part]. rewrite app_nil_r. apply partition_char_none. exact Hxq.
    - cbn [fragment_part]. rewrite app_assoc. apply partition_char_app. exact Hxq. }
  assert (partition_char 63 (X ++ query_part q)
          = match q with [] => None | _ => Some (X, q) end) as Hpq.
  { destruct q as [|cq q'].
    - cbn [query_part]. rewrite app_nil_r. apply partition_char_none. exact HXq.
    - cbn [query_part]. apply partition_char_app. exact HXq. }
  rewrite Hpf.
  destruct f as [|cf f'].
  - cbn [fragment_part]. rewrite app_nil_r, Hpq, Hcn.
    destruct q; [cbn [query_part]; rewrite app_nil_r|]; reflexivity.
  - rewrite Hpq, Hcn. destruct q; [cbn [query_part]; rewrite app_nil_r|]; reflexivity.
Qed.

End Reparse.

Lemma incl_drop {A} n (l : list A) : incl (drop n l) l.
Proof.
  revert l. induction n as [|n IH]; intros l; [apply incl_refl|].
  destruct l as [|x l]; [apply incl_refl|].
  simpl. apply incl_tl. apply IH.
Qed.

Lemma lower_scheme_wf c pre :
  Urllib.is_ascii_alpha c && forallb Urllib.is_scheme_char (c :: pre) = true ->
  scheme_wf (map Urllib.ascii_lower (c :: pre)).
Proof.
  intros H. apply andb_true_iff in H as [Ha Hall].
  right. exists (Urllib.ascii_lower c), (map Urllib.ascii_lower pre).
  rewrite forallb_forall in Hall.
  split; [reflexivity|]. split.
  { apply (scheme_char_facts c); [apply Hall; left; reflexivity | exact Ha]. }
  split.
  - apply forallb_forall. intros x Hx. apply in_map_iff in Hx as (y & <- & Hy).
    apply (scheme_char_facts y (Hall y Hy)).
  - rewrite map_map. apply map_ext_in. intros y Hy.
    apply (scheme_char_facts y (Hall y Hy)).
Qed.

Section SplitFacts.

Variable nfkc : str -> str.
Variable chk : str -> bool.

(** What a successful [urlsplit] with no default scheme says about the
    scheme and the network location. *)
Lemma urlsplit_base_facts url0 sr :
  Urllib.urlsplit nfkc chk url0 [] = Ok sr ->
  scheme_wf (Urllib.s_scheme sr)
  /\ safe (Urllib.s_netloc sr)
  /\ no_delim (Urllib.s_netloc sr)
  /\ netloc_checks nfkc chk (Urllib.s_netloc sr) = true.
Proof.
  unfold Urllib.urlsplit.
  set (cu := Urllib.remove_unsafe (Urllib.lstrip_c0 url0)).
  assert (safe cu) as Scu by apply remove_unsafe_safe.
  change (Urllib.remove_unsafe (Urllib.strip_c0 [])) with (@nil N).
  match goal with
  | |- (match ?m with | (_, _) => _ end) = _ -> _ =>
      assert (exists sc U, scheme_wf sc /\ safe U /\ m = (sc, U))
        as (sc & U & Hwf & SU & ->)
  end.
  { destruct (partition_char 58 cu) as [[[|c pre] post]|] eqn:Hp.
    - exists [], cu. repeat split; [left; reflexivity | exact Scu].
    - destruct (Urllib.is_ascii_alpha c && forallb Urllib.is_scheme_char (c :: pre)) eqn:Ht.
      + exists (map Urllib.ascii_lower (c :: pre)), post.
        split; [apply lower_scheme_wf; exact Ht|]. split; [|reflexivity].
        apply partition_char_inv in Hp as [Hcu _].
        eapply safe_incl; [|exact Scu]. rewrite Hcu.
        apply incl_appr, incl_tl, incl_refl.
      + exists [], cu. repeat split; [left; reflexivity | exact Scu].
    - exists [], cu. repeat split; [left; reflexivity | exact Scu]. }
  destruct (startswith [47; 47] U) eqn:Hs.
  - destruct (Urllib.splitnetloc (drop 2 U)) as [n u] eqn:Hsn.
    apply splitnetloc_inv in Hsn as [Hdrop Hnd].
    assert (safe n) as Sn.
    { eapply safe_incl; [|exact SU]. intros x Hx. apply (incl_drop 2 U).
      rewrite Hdrop. apply in_or_app. left. exact Hx. }
    destruct (has_char 91 n && negb (has_char 93 n)
              || has_char 93 n && negb (has_char 91 n)) eqn:Hb1; [discriminate|].
    destruct (has_char 91 n && has_char 93 n && negb (chk n)) eqn:Hb2; [discriminate|].
    cbn [rbind].
    destruct (partition_char 35 u) as [[a b]|];
      destruct (partition_char 63 _) as [[a' b']|];
      destruct (Urllib.checknetloc nfkc n) eqn:Hc; try discriminate;
      intros [= <-]; cbn [Urllib.s_scheme Urllib.s_netloc];
      (split; [exact Hwf|]; split; [exact Sn|]; split; [exact Hnd|]);
      unfold netloc_checks; rewrite Hb1, Hb2, Hc; reflexivity.
  - cbn [rbind].
    destruct (partition_char 35 U) as [[a b]|];
      destruct (partition_char 63 _) as [[a' b']|];
      cbn [Urllib.checknetloc];
      intros [= <-]; cbn [Urllib.s_scheme Urllib.s_netloc];
      (split; [exact Hwf|]; split; [apply safe_nil|]; split; [intros x []|]);
      reflexivity.
Qed.

(** [urlsplit] on a link that begins with "/offer/": no scheme and no
    network location are found, and the path keeps its leading slash. *)
Lemma urlsplit_rooted href d :
  startswith (u8 "/offer/") href = true ->
  exists P q f,
    Urllib.urlsplit nfkc chk href d
    = Ok (Urllib.mk_split (Urllib.remove_unsafe (Urllib.strip_c0 d)) [] P q f)
    /\ startswith [47] P = true
    /\ safe P /\ safe q /\ safe f
    /\ has_char 63 P = false /\ has_char 35 P = false /\ has_char 35 q = false.
Proof.
  intros Hs.
  assert (exists t, href = 47 :: 111 :: t) as [t ->].
  { change (u8 "/offer/") with [47; 111; 102; 102; 101; 114; 47] in Hs.
    destruct href as [|c1 [|c2 t]]; cbn [startswith] in Hs;
      [discriminate | rewrite andb_false_r in Hs; discriminate |].
    apply andb_true_iff in Hs as [H1 Hs]. apply andb_true_iff in Hs as [H2 _].
    apply N.eqb_eq in H1, H2. subst. exists t. reflexivity. }
  unfold Urllib.urlsplit.
  change (Urllib.lstrip_c0 (47 :: 111 :: t)) with (47 :: 111 :: t).
  change (Urllib.remove_unsafe (47 :: 111 :: t)) with (47 :: 111 :: Urllib.remove_unsafe t).
  set (sc := Urllib.remove_unsafe (Urllib.strip_c0 d)).
  set (cu := 47 :: 111 :: Urllib.remove_unsafe t).
  assert (safe cu) as Scu.
  { unfold cu. repeat (apply safe_cons; [reflexivity|]). apply remove_unsafe_safe. }
  match goal with
  | |- exists _ _ _, (match ?m with | (_, _) => _ end) = _ /\ _ =>
      assert (m = (sc, cu)) as ->
  end.
  { destruct (partition_char 58 cu) as [[[|c pre] post]|] eqn:Hp; try reflexivity.
    apply partition_char_inv in Hp as [Hcu _]. unfold cu in Hcu.
    injection Hcu as <- _. reflexivity. }
  change (startswith [47; 47] cu) with false. cbn iota. cbn [rbind Urllib.checknetloc].
  assert (forall sep a b, sep <> 47 -> partition_char sep cu = Some (a, b) ->
                          startswith [47] a = true) as Hfirst.
  { intros sep a b Hsep Hp. apply partition_char_inv in Hp as [Hcu _].
    destruct a as [|x a].
    - unfold cu in Hcu. injection Hcu as Hx _. congruence.
    - unfold cu in Hcu. injection Hcu as <- _. reflexivity. }
  assert (forall sep a b s, partition_char sep s = Some (a, b) -> safe s ->
                            safe a /\ safe b) as Hsafe.
  { intros sep a b s Hp Ss. apply partition_char_inv in Hp as [-> _]. split.
    - eapply safe_incl; [|exact Ss]. apply incl_appl, incl_refl.
    - eapply safe_incl; [|exact Ss]. apply incl_appr, incl_tl, incl_refl. }
  destruct (partition_char 35 cu) as [[a f]|] eqn:Hpf.
  - pose proof (Hfirst 35 a f ltac:(lia) Hpf) as Ha.
    destruct (Hsafe _ _ _ _ Hpf Scu) as [Sa Sf].
    pose proof (partition_char_inv _ _ _ _ Hpf) as [_ Hah].
    destruct (partition_char 63 a) as [[P q]|] eqn:Hpq.
    + exists P, q, f. split; [reflexivity|].
      destruct (Hsafe _ _ _ _ Hpq Sa) as [SP Sq].
      pose proof (partition_char_inv _ _ _ _ Hpq) as [HaP HPh].
      split.
      { destruct P as [|x P'].
        - subst a. cbn [app startswith] in Ha. discriminate.
        - subst a. exact Ha. }
      repeat split; try assumption.
      * eapply has_char_incl; [|exact Hah]. rewrite HaP. apply incl_appl, incl_refl.
      * eapply has_char_incl; [|exact Hah]. rewrite HaP. apply incl_appr, incl_tl, incl_refl.
    + exists a, [], f. split; [reflexivity|].
      apply partition_char_none in Hpq.
      repeat split; try assumption; try apply safe_nil.
  - apply partition_char_none in Hpf.
    destruct (partition_char 63 cu) as [[P q]|] eqn:Hpq.
    + exists P, q, []. split; [reflexivity|].
      destruct (Hsafe _ _ _ _ Hpq Scu) as [SP Sq].
      pose proof (partition_char_inv _ _ _ _ Hpq) as [HaP HPh].
      split; [exact (Hfirst 63 P q ltac:(lia) Hpq)|].
      repeat split; try assumption; try apply safe_nil.
      * eapply has_char_incl; [|exact Hpf]. rewrite HaP. apply incl_appl, incl_refl.
      * eapply has_char_incl; [|exact Hpf]. rewrite HaP. apply incl_appr, incl_tl, incl_refl.
    + exists cu, [], []. split; [reflexivity|].
      apply partition_char_none in Hpq.
      repeat split; try assumption; try apply safe_nil.
Qed.

End SplitFacts.

(** ** Parameters and the last path segment *)

Lemma last_slash s :
  has_char 47 s = true -> exists a l, s = a ++ 47 :: l /\ has_char 47 l = false.
Proof.
  induction s as [|c s IH]; [discriminate|].
  destruct (has_char 47 s) eqn:Hs.
  - intros _. destruct (IH eq_refl) as (a & l & -> & Hl).
    exists (c :: a), l. split; [reflexivity | exact Hl].
  - rewrite has_char_cons, Hs, orb_false_r. intros Hc. apply N.eqb_eq in Hc. subst c.
    exists [], s. split; [reflexivity | exact Hs].
Qed.

Lemma rsplit_slash_none s : has_char 47 s = false -> Urllib.rsplit_slash s = None.
Proof.
  induction s as [|c s IH]; [reflexivity|].
  rewrite has_char_cons. intros H. apply orb_false_iff in H as [Hc Hs].
  simpl. rewrite (IH Hs). rewrite N.eqb_sym, Hc. reflexivity.
Qed.

Lemma rsplit_slash_tail a l :
  has_char 47 l = false -> Urllib.rsplit_slash (a ++ 47 :: l) = Some (a, 47 :: l).
Proof.
  intros Hl. induction a as [|c a IH].
  - cbn [app Urllib.rsplit_slash]. rewrite (rsplit_slash_none l Hl). reflexivity.
  - cbn [app Urllib.rsplit_slash]. rewrite IH. reflexivity.
Qed.

Lemma splitparams_with a z prm :
  has_char 47 z = false -> has_char 59 z = false -> has_char 47 prm = false ->
  prm <> [] ->
  Urllib.splitparams (with_params (a ++ 47 :: z) prm) = (a ++ 47 :: z, prm).
Proof.
  intros Hz1 Hz2 Hp Hne. unfold Urllib.splitparams, with_params.
  destruct prm as [|cp prm']; [congruence|].
  rewrite <- app_assoc. cbn [app].
  rewrite (rsplit_slash_tail a (z ++ 59 :: cp :: prm')).
  2:{ rewrite has_char_app, Hz1. cbn [orb]. rewrite has_char_cons. exact Hp. }
  change (47 :: z ++ 59 :: cp :: prm') with ((47 :: z) ++ 59 :: cp :: prm').
  rewrite partition_char_app; [reflexivity|].
  rewrite has_char_cons, Hz2. reflexivity.
Qed.

Lemma splitparams_without a z :
  has_char 47 z = false -> has_char 59 z = false ->
  Urllib.splitparams (a ++ 47 :: z) = (a ++ 47 :: z, []).
Proof.
  intros Hz1 Hz2. unfold Urllib.splitparams.
  rewrite (rsplit_slash_tail a z Hz1).
  assert (partition_char 59 (47 :: z) = None) as ->; [|reflexivity].
  apply partition_char_none. rewrite has_char_cons, Hz2. reflexivity.
Qed.

Section ParseFacts.

Variable nfkc : str -> str.
Variable chk : str -> bool.

(** [urlparse] on a link that begins with "/offer/". *)
Lemma urlparse_rooted href sc :
  scheme_wf sc -> startswith (u8 "/offer/") href = true ->
  exists P prm q f,
    Urllib.urlparse nfkc chk href sc = Ok (Urllib.mk_parse sc [] P prm q f)
    /\ startswith [47] P = true
    /\ safe P /\ safe prm /\ safe q /\ safe f
    /\ has_char 63 P = false /\ has_char 35 P = false
    /\ has_char 63 prm = false /\ has_char 35 prm = false
    /\ has_char 35 q = false
    /\ has_char 47 prm = false
    /\ (Urllib.mem sc Urllib.uses_params = false -> prm = [])
    /\ (Urllib.mem sc Urllib.uses_params = true ->
        exists a z, P = a ++ 47 :: z /\ has_char 47 z = false /\ has_char 59 z = false).
Proof.
  intros Hwf Hs.
  destruct (urlsplit_rooted nfkc chk href sc Hs)
    as (P0 & q & f & Hsplit & HP0 & SP0 & Sq & Sf & H63 & H35 & Hq35).
  destruct (scheme_wf_clean sc Hwf) as (Hclean & _ & _). rewrite Hclean in Hsplit.
  unfold Urllib.urlparse. rewrite Hsplit. cbn [rbind Urllib.s_scheme Urllib.s_url
    Urllib.s_netloc Urllib.s_query Urllib.s_fragment].
  assert (has_char 47 P0 = true) as Hslash.
  { destruct P0 as [|x P0']; [discriminate|]. cbn [startswith] in HP0.
    apply andb_true_iff in HP0 as [Hx _]. rewrite has_char_cons, Hx. reflexivity. }
  destruct (last_slash P0 Hslash) as (a & l & HP0eq & Hl).
  destruct (Urllib.mem sc Urllib.uses_params) eqn:Hmem; cbn [andb].
  - destruct (has_char 59 P0) eqn:Hsemi.
    + (* the parameters are split off *)
      subst P0. unfold Urllib.splitparams. rewrite (rsplit_slash_tail a l Hl).
      destruct (partition_char 59 (47 :: l)) as [[x prm]|] eqn:Hp.
      * pose proof (partition_char_inv _ _ _ _ Hp) as [Hx Hxs].
        destruct x as [|x0 z]; [discriminate|]. injection Hx as <- Hlz.
        assert (incl (a ++ 47 :: z) (a ++ 47 :: l)) as Hi1.
        { subst l. intros y Hy. apply in_app_or in Hy as [Hy|[<-|Hy]];
            apply in_or_app; [left; exact Hy | right; left; reflexivity |].
          right. right. apply in_or_app. left. exact Hy. }
        assert (incl prm (a ++ 47 :: l)) as Hi2.
        { subst l. intros y Hy. apply in_or_app. right. right.
          apply in_or_app. right. right. exact Hy. }
        exists (a ++ 47 :: z), prm, q, f. split; [reflexivity|].
        split.
        { destruct a as [|y a']; [reflexivity|]. exact HP0. }
        split; [eapply safe_incl; eassumption|].
        split; [eapply safe_incl; eassumption|].
        split; [exact Sq|]. split; [exact Sf|].
        split; [eapply has_char_incl; eassumption|].
        split; [eapply has_char_incl; eassumption|].
        split; [eapply has_char_incl; eassumption|].
        split; [eapply has_char_incl; eassumption|].
        split; [exact Hq35|].
        split.
        { eapply has_char_incl; [|exact Hl]. subst l.
          apply incl_appr, incl_tl, incl_refl. }
        split; [discriminate|]. intros _. exists a, z.
        split; [reflexivity|]. split.
        -- eapply has_char_incl; [|exact Hl]. subst l. apply incl_appl, incl_refl.
        -- rewrite has_char_cons in Hxs. apply orb_false_iff in Hxs. tauto.
      * apply partition_char_none in Hp.
        exists (a ++ 47 :: l), [], q, f. split; [reflexivity|].
        repeat split; try assumption; try apply safe_nil; try discriminate.
        intros _. exists a, l. split; [reflexivity|]. split; [exact Hl|].
        rewrite has_char_cons in Hp. apply orb_false_iff in Hp. tauto.
    + exists P0, [], q, f. split; [reflexivity|].
      repeat split; try assumption; try apply safe_nil; try discriminate.
      intros _. exists a, l. split; [exact HP0eq|]. split; [exact Hl|].
      eapply has_char_incl; [|exact Hsemi]. rewrite HP0eq.
      apply incl_appr, incl_tl, incl_refl.
  - exists P0, [], q, f. split; [reflexivity|].
    repeat split; try assumption; try apply safe_nil; try discriminate.
Qed.

End ParseFacts.

(** ** The resolved path *)

Lemma resolve_segments_app s1 : forall acc s2,
  Urllib.resolve_segments acc (s1 ++ s2)
  = Urllib.resolve_segments (Urllib.resolve_segments acc s1) s2.
Proof.
  induction s1 as [|seg s1 IH]; intros acc s2; [reflexivity|].
  cbn [app Urllib.resolve_segments].
  destruct (str_eqb seg [46; 46]); [apply IH|].
  destruct (str_eqb seg [46]); apply IH.
Qed.

Lemma resolve_segments_incl segs : forall acc x,
  In x (Urllib.resolve_segments acc segs) -> In x acc \/ In x segs.
Proof.
  induction segs as [|seg segs IH]; intros acc x; cbn [Urllib.resolve_segments].
  - tauto.
  - destruct (str_eqb seg [46; 46]).
    { intros Hx. destruct (IH _ _ Hx) as [Hx'|Hx']; [left | right; right; exact Hx'].
      destruct acc; [destruct Hx' | right; exact Hx']. }
    destruct (str_eqb seg [46]).
    { intros Hx. destruct (IH _ _ Hx) as [Hx'|Hx']; [left; exact Hx' | right; right; exact Hx']. }
    intros Hx. destruct (IH _ _ Hx) as [[<-|Hx']|Hx'].
    + right. left. reflexivity.
    + left. exact Hx'.
    + right. right. exact Hx'.
Qed.

Lemma resolved_of_tail init0 l :
  exists init z,
    resolved_of (init0 ++ [l]) = init ++ [z]
    /\ (z = [] \/ z = l)
    /\ (forall x, In x init -> In x init0).
Proof.
  unfold resolved_of. rewrite last_last, resolve_segments_app.
  set (acc := Urllib.resolve_segments [] init0).
  assert (forall x, In x acc -> In x init0) as Hacc.
  { intros x Hx. destruct (resolve_segments_incl init0 [] x Hx) as [[]|H]. exact H. }
  cbn [Urllib.resolve_segments]. unfold str_eqb.
  destruct (bool_decide (l = [46; 46])) eqn:H2.
  - rewrite orb_true_r. exists (rev (tail acc)), []. split; [reflexivity|].
    split; [left; reflexivity|]. intros x Hx. apply in_rev in Hx.
    apply Hacc. destruct acc; [destruct Hx | right; exact Hx].
  - destruct (bool_decide (l = [46])) eqn:H1; cbn [orb].
    + exists (rev acc), []. split; [reflexivity|].
      split; [left; reflexivity|]. intros x Hx. apply Hacc, in_rev, Hx.
    + exists (rev acc), l. split; [reflexivity|].
      split; [right; reflexivity|]. intros x Hx. apply Hacc, in_rev, Hx.
Qed.

(** The path [urljoin] writes for a rooted link, once [urlunsplit] has put
    a slash in front of it where it needs one: it ends in a last segment
    that is empty or the last segment of the link, and every character of
    it is a slash or a character of the link's path. *)
Lemma new_path_facts a0 z0 :
  has_char 47 z0 = false ->
  exists a z,
    maybe_slash (new_path_of (split_char 47 (a0 ++ 47 :: z0))) = a ++ 47 :: z
    /\ (z = [] \/ z = z0)
    /\ new_path_of (split_char 47 (a0 ++ 47 :: z0)) <> []
    /\ (forall x, In x (new_path_of (split_char 47 (a0 ++ 47 :: z0))) ->
                  x = 47 \/ In x (a0 ++ 47 :: z0)).
Proof.
  intros Hz0. rewrite split_char_app, (split_char_no_sep 47 z0 Hz0).
  set (init0 := split_char 47 a0).
  destruct (resolved_of_tail init0 z0) as (init & z & Hres & Hz & Hinit).
  assert (has_char 47 z = false) as Hzs by (destruct Hz as [->| ->]; [reflexivity | exact Hz0]).
  assert (forall x, In x (new_path_of (init0 ++ [z0])) -> x = 47 \/ In x (a0 ++ 47 :: z0))
    as Hchars.
  { unfold new_path_of. rewrite Hres. intros x Hx.
    assert (x = 47 \/ In x (join_char 47 (init ++ [z]))) as [->|Hx'].
    { destruct (join_char 47 (init ++ [z])); [destruct Hx as [<-|[]]; left; reflexivity|].
      right. exact Hx. }
    { left. reflexivity. }
    destruct (join_char_chars 47 _ x Hx') as [->|(seg & Hseg & Hxs)]; [left; reflexivity|].
    right. apply in_app_or in Hseg as [Hseg|[<-|[]]].
    - apply in_or_app. left. apply Hinit in Hseg.
      eapply split_char_chars; eassumption.
    - destruct Hz as [->| ->]; [destruct Hxs|].
      apply in_or_app. right. right. exact Hxs. }
  assert (exists J, new_path_of (init0 ++ [z0]) = J ++ 47 :: z
                    \/ (new_path_of (init0 ++ [z0]) = z /\ z <> [] /\ J = []))
    as [J HJ].
  { unfold new_path_of. rewrite Hres. destruct init as [|i0 init'].
    - cbn [app join_char]. destruct z as [|c z'].
      + exists []. left. reflexivity.
      + exists []. right. repeat split. discriminate.
    - exists (join_char 47 (i0 :: init')). left.
      rewrite join_char_snoc by discriminate.
      destruct (join_char 47 (i0 :: init')); reflexivity. }
  destruct HJ as [HJ | (HJ & Hzne & _)]; rewrite HJ in *.
  - destruct (J ++ 47 :: z) as [|c t] eqn:Heq; [destruct J; discriminate|].
    cbn [maybe_slash]. destruct (c =? 47).
    + exists J, z. split; [symmetry; exact Heq|]. split; [exact Hz|].
      split; [discriminate | exact Hchars].
    + exists (47 :: J), z. split; [cbn [app]; rewrite Heq; reflexivity|].
      split; [exact Hz|]. split; [discriminate | exact Hchars].
  - destruct z as [|c z']; [congruence|].
    rewrite has_char_cons in Hzs. apply orb_false_iff in Hzs as [Hc _].
    rewrite N.eqb_sym in Hc. cbn [maybe_slash]. rewrite Hc.
    exists [], (c :: z'). split; [reflexivity|]. split; [exact Hz|].
    split; [discriminate | exact Hchars].
Qed.

Lemma urlunsplit_maybe_slash sc n X q f :
  n <> [] ->
  Urllib.urlunsplit (Urllib.mk_split sc n X q f)
  = Urllib.urlunsplit (Urllib.mk_split sc n (maybe_slash X) q f).
Proof.
  intros Hn. unfold Urllib.urlunsplit.
  cbn [Urllib.s_url Urllib.s_netloc Urllib.s_scheme Urllib.s_query Urllib.s_fragment].
  rewrite bool_decide_eq_false_2 by exact Hn. cbn [negb orb].
  destruct X as [|c X]; [reflexivity|]. cbn [maybe_slash].
  destruct (c =? 47) eqn:Hc; [rewrite Hc; reflexivity|].
  rewrite N.eqb_refl. reflexivity.
Qed.

Lemma maybe_slash_with_params P prm :
  P <> [] -> maybe_slash (with_params P prm) = with_params (maybe_slash P) prm.
Proof.
  intros HP. destruct P as [|c P]; [congruence|].
  unfold with_params. destruct prm as [|cp prm]; [reflexivity|].
  cbn [app maybe_slash]. destruct (c =? 47); reflexivity.
Qed.

Lemma urlunparse_form p :
  Urllib.urlunparse p
  = Urllib.urlunsplit
      (Urllib.mk_split (Urllib.scheme p) (Urllib.netloc p)
         (with_params (Urllib.path p) (Urllib.params p)) (Urllib.query p)
         (Urllib.fragment p)).
Proof. unfold Urllib.urlunparse, with_params. destruct (Urllib.params p); reflexivity. Qed.

Lemma uses_relative_netloc sc :
  Urllib.mem sc Urllib.uses_relative = true -> Urllib.mem sc Urllib.uses_netloc = true.
Proof.
  unfold Urllib.mem at 1. intros H. apply existsb_exists in H as (x & Hx & Heq).
  unfold str_eqb in Heq. apply bool_decide_eq_true_1 in Heq. subst x.
  assert (forallb (fun s => Urllib.mem s Urllib.uses_netloc) Urllib.uses_relative = true)
    as Hall by (vm_compute; reflexivity).
  rewrite forallb_forall in Hall. apply Hall. exact Hx.
Qed.

Section Idempotence.

Variable nfkc : str -> str.
Variable chk : str -> bool.

Lemma urlparse_base_facts base b :
  Urllib.urlparse nfkc chk base [] = Ok b ->
  scheme_wf (Urllib.scheme b)
  /\ safe (Urllib.netloc b)
  /\ no_delim (Urllib.netloc b)
  /\ netloc_checks nfkc chk (Urllib.netloc b) = true.
Proof.
  unfold Urllib.urlparse.
  destruct (Urllib.urlsplit nfkc chk base []) as [sr|e] eqn:Hs; cbn [rbind]; [|discriminate].
  destruct (if Urllib.mem (Urllib.s_scheme sr) Urllib.uses_params
               && has_char 59 (Urllib.s_url sr)
            then Urllib.splitparams (Urllib.s_url sr)
            else (Urllib.s_url sr, [])) as [url prm].
  intros [= <-]. cbn [Urllib.scheme Urllib.netloc].
  apply (urlsplit_base_facts nfkc chk base sr Hs).
Qed.

(** Re-reading what [urlunparse] wrote for a rooted link on a base with
    a network location gives components that [urlunparse] writes the
    same way. *)
Lemma urlparse_urlunparse sc n a z prm q f :
  scheme_wf sc -> n <> [] -> no_delim n -> netloc_checks nfkc chk n = true ->
  has_char 47 z = false ->
  (Urllib.mem sc Urllib.uses_params = true -> has_char 59 z = false) ->
  (Urllib.mem sc Urllib.uses_params = false -> prm = []) ->
  has_char 47 prm = false ->
  has_char 63 (a ++ 47 :: z) = false -> has_char 35 (a ++ 47 :: z) = false ->
  has_char 63 prm = false -> has_char 35 prm = false ->
  has_char 35 q = false ->
  startswith [47] (a ++ 47 :: z) = true ->
  safe n -> safe (a ++ 47 :: z) -> safe prm -> safe q -> safe f ->
  exists u,
    Urllib.urlparse nfkc chk
      (Urllib.urlunsplit (Urllib.mk_split sc n (with_params (a ++ 47 :: z) prm) q f)) sc
    = Ok u
    /\ Urllib.scheme u = sc /\ Urllib.netloc u = n
    /\ Urllib.urlunparse u
       = Urllib.urlunsplit (Urllib.mk_split sc n (with_params (a ++ 47 :: z) prm) q f).
Proof.
  intros Hwf Hn Hnd Hchk Hz Hzsemi Hprm Hp47 H63 H35 Hp63 Hp35 Hq35 Hstart Sn SP Sp Sq Sf.
  set (P := a ++ 47 :: z) in *.
  set (X := with_params P prm).
  assert (startswith [47] X = true) as HX.
  { unfold X, with_params. destruct prm; [exact Hstart|].
    destruct P as [|c P']; [discriminate|]. exact Hstart. }
  assert (has_char 63 X = false /\ has_char 35 X = false /\ safe X) as (HX63 & HX35 & SX).
  { unfold X, with_params. destruct prm as [|cp prm']; [tauto|].
    rewrite !has_char_app, H63, H35. cbn [orb].
    rewrite !(has_char_cons _ 59). cbn [N.eqb Pos.eqb orb].
    repeat split; try assumption.
    apply safe_app; [exact SP|]. apply safe_cons; [reflexivity | exact Sp]. }
  unfold Urllib.urlparse.
  rewrite (urlsplit_urlunsplit nfkc chk sc n X q f) by assumption.
  cbn [rbind Urllib.s_scheme Urllib.s_netloc Urllib.s_url Urllib.s_query Urllib.s_fragment].
  assert (exists P2 prm2,
            (if Urllib.mem sc Urllib.uses_params && has_char 59 X
             then Urllib.splitparams X else (X, [])) = (P2, prm2)
            /\ with_params P2 prm2 = X) as (P2 & prm2 & -> & HX2).
  { destruct (Urllib.mem sc Urllib.uses_params) eqn:Hmem; cbn [andb].
    - destruct (has_char 59 X) eqn:Hsemi.
      + destruct prm as [|cp prm'].
        * exists X, []. split; [|reflexivity]. unfold X, with_params, P.
          apply splitparams_without; [exact Hz | apply Hzsemi; reflexivity].
        * exists P, (cp :: prm'). split; [|reflexivity]. unfold X, P.
          apply splitparams_with; [exact Hz | apply Hzsemi; reflexivity | exact Hp47 |].
          discriminate.
      + exists X, []. split; reflexivity.
    - exists X, []. split; reflexivity. }
  eexists. split; [reflexivity|].
  cbn [Urllib.scheme Urllib.netloc]. split; [reflexivity|]. split; [reflexivity|].
  rewrite urlunparse_form.
  cbn [Urllib.scheme Urllib.netloc Urllib.path Urllib.params Urllib.query Urllib.fragment].
  rewrite HX2. reflexivity.
Qed.

(** C8, amended. On a page URL that has a network location, resolving an
    item link that begins with "/offer/" and resolving the result once
    more against the same page URL give the same URL; neither step
    raises. *)
Theorem urljoin_rooted_idempotent base href b :
  startswith (u8 "/offer/") href = true ->
  Urllib.urlparse nfkc chk base [] = Ok b ->
  Urllib.netloc b <> [] ->
  exists r,
    Urllib.urljoin nfkc chk base href = Ok r
    /\ Urllib.urljoin nfkc chk base r = Ok r.
Proof.
  intros Hs Hb Hn.
  destruct (urlparse_base_facts base b Hb) as (Hwf & Sn & Hnd & Hchk).
  set (sc := Urllib.scheme b) in *. set (n := Urllib.netloc b) in *.
  destruct (urlparse_rooted nfkc chk href sc Hwf Hs)
    as (P & prm & q & f & Hu & HP & SP & Sp & Sq & Sf & H63 & H35 & Hp63 & Hp35
        & Hq35 & Hp47 & Hnoparams & Htail).
  assert (base <> []) as Hbase.
  { intros ->. apply Hn. unfold n. vm_compute in Hb. injection Hb as <-. reflexivity. }
  assert (href <> []) as Hhref by (intros ->; discriminate).
  assert (has_char 47 P = true) as Hslash.
  { destruct P as [|x P']; [discriminate|]. cbn [startswith] in HP.
    apply andb_true_iff in HP as [Hx _]. rewrite has_char_cons, Hx. reflexivity. }
  destruct (last_slash P Hslash) as (a0 & z0 & HPeq & Hz0).
  assert (Urllib.mem sc Urllib.uses_params = true -> has_char 59 z0 = false) as Hz0semi.
  { intros Hmem. destruct (Htail Hmem) as (a1 & z1 & HPeq1 & Hz1 & Hz1semi).
    eapply has_char_incl; [|exact Hz1semi].
    assert (split_char 47 P = split_char 47 a0 ++ [z0]) as E0.
    { rewrite HPeq, split_char_app, (split_char_no_sep 47 z0 Hz0). reflexivity. }
    assert (split_char 47 P = split_char 47 a1 ++ [z1]) as E1.
    { rewrite HPeq1, split_char_app, (split_char_no_sep 47 z1 Hz1). reflexivity. }
    rewrite E0 in E1. apply app_inj_tail in E1 as [_ ->]. apply incl_refl. }
  destruct (new_path_facts a0 z0 Hz0) as (a & z & Hnew & Hz & Hnewne & Hnewchars).
  rewrite <- HPeq in Hnew, Hnewne, Hnewchars.
  set (newp := new_path_of (split_char 47 P)) in *.
  set (r := Urllib.urlunsplit (Urllib.mk_split sc n (with_params newp prm) q f)).
  destruct (Urllib.mem sc Urllib.uses_relative) eqn:Hrel.
  - (* the scheme allows relative references *)
    pose proof (uses_relative_netloc sc Hrel) as Hnl.
    assert (Urllib.urljoin nfkc chk base href = Ok r) as Hfirst.
    { unfold Urllib.urljoin. destruct base as [|cb base']; [congruence|].
      destruct href as [|ch href']; [congruence|].
      rewrite Hb. cbn [rbind]. fold sc. rewrite Hu. cbn [rbind].
      cbn [Urllib.scheme Urllib.netloc Urllib.path Urllib.params Urllib.query
           Urllib.fragment].
      unfold str_eqb. rewrite bool_decide_eq_true_2 by reflexivity.
      rewrite Hrel, Hnl. cbn [negb orb andb].
      rewrite (bool_decide_eq_true_2 (@nil N = [])) by reflexivity. cbn [negb andb].
      rewrite (bool_decide_eq_false_2 (P = [])) by (intros ->; discriminate).
      cbn [andb]. rewrite HP, urlunparse_form. reflexivity. }
    exists r. split; [exact Hfirst|].
    assert (with_params (a ++ 47 :: z) prm = maybe_slash (with_params newp prm)) as HX.
    { rewrite maybe_slash_with_params by exact Hnewne. rewrite Hnew. reflexivity. }
    assert (r = Urllib.urlunsplit
                  (Urllib.mk_split sc n (with_params (a ++ 47 :: z) prm) q f)) as Hr.
    { unfold r. rewrite HX. apply urlunsplit_maybe_slash. exact Hn. }
    assert (forall x, In x (a ++ 47 :: z) -> x = 47 \/ In x P) as Hchars.
    { intros x Hx. rewrite <- Hnew in Hx. unfold maybe_slash in Hx.
      destruct newp as [|c t] eqn:Hnp; [destruct Hx|].
      destruct (c =? 47); [apply Hnewchars; exact Hx|].
      destruct Hx as [<-|Hx]; [left; reflexivity | apply Hnewchars; exact Hx]. }
    assert (startswith [47] (a ++ 47 :: z) = true) as Hstart.
    { rewrite <- Hnew. unfold maybe_slash. destruct newp as [|c t]; [congruence|].
      destruct (c =? 47) eqn:Hc; [|reflexivity].
      cbn [startswith]. rewrite N.eqb_sym, Hc. reflexivity. }
    destruct (urlparse_urlunparse sc n a z prm q f) as (u2 & Hu2 & Hsc2 & Hn2 & Hun2);
      try assumption.
    + destruct Hz as [->| ->]; [reflexivity | exact Hz0].
    + intros Hmem. destruct Hz as [->| ->]; [reflexivity | exact (Hz0semi Hmem)].
    + apply has_char_false_iff. intros x Hx. destruct (Hchars x Hx) as [->|Hx']; [lia|].
      exact (has_char_false_in 63 P H63 x Hx').
    + apply has_char_false_iff. intros x Hx. destruct (Hchars x Hx) as [->|Hx']; [lia|].
      exact (has_char_false_in 35 P H35 x Hx').
    + intros x Hx. destruct (Hchars x Hx) as [->|Hx']; [reflexivity | exact (SP x Hx')].
    + rewrite <- Hr in Hu2, Hun2.
      assert (r <> []) as Hrne.
      { rewrite Hr, urlunsplit_netloc; [|exact Hn|].
        - destruct (scheme_part sc); discriminate.
        - unfold with_params. destruct prm; [exact Hstart|].
          destruct (a ++ 47 :: z); [discriminate | exact Hstart]. }
      unfold Urllib.urljoin. destruct base as [|cb base']; [congruence|].
      destruct r as [|cr r'] eqn:Er; [congruence|].
      rewrite Hb. cbn [rbind]. fold sc. rewrite Hu2. cbn [rbind].
      rewrite Hsc2, Hn2. unfold str_eqb. rewrite bool_decide_eq_true_2 by reflexivity.
      rewrite Hrel, Hnl. cbn [negb orb andb].
      rewrite (bool_decide_eq_false_2 (n = [])) by exact Hn. cbn [negb].
      rewrite Hun2. reflexivity.
  - (* the link is returned as it is *)
    assert (Urllib.urljoin nfkc chk base href = Ok href) as Hfirst.
    { unfold Urllib.urljoin. destruct base as [|cb base']; [congruence|].
      destruct href as [|ch href']; [congruence|].
      rewrite Hb. cbn [rbind]. fold sc. rewrite Hu. cbn [rbind].
      cbn [Urllib.scheme]. rewrite Hrel. unfold str_eqb.
      rewrite bool_decide_eq_true_2 by reflexivity. reflexivity. }
    exists href. split; exact Hfirst.
Qed.

End Idempotence.

(** * Further properties of the sources *)

(** ** The text parsers, further *)

Lemma findall_digits_aux_nil cur s :
  findall_digits_aux cur s = [] <-> cur = [] /\ existsb Unicode.isdecimal s = false.
Proof.
  revert cur. induction s as [|c s IH]; intros cur; cbn [findall_digits_aux existsb].
  - destruct cur; [tauto|]. split; [discriminate | intros [? _]; discriminate].
  - destruct (Unicode.isdecimal c) eqn:Hc; cbn [orb].
    + rewrite IH. split; [intros [? _]; discriminate | intros [_ ?]; discriminate].
    + destruct cur as [|x cur'].
      * rewrite IH. tauto.
      * split; [discriminate | intros [? _]; discriminate].
Qed.

Lemma digit_val_nonneg c : (0 <= digit_val c)%Z.
Proof. unfold digit_val. destruct (Unicode.decimal c); lia. Qed.

Lemma digits_value_nonneg s : (0 <= digits_value s)%Z.
Proof.
  unfold digits_value.
  assert (forall acc, (0 <= acc)%Z ->
            (0 <= fold_left (fun a c => (10 * a + digit_val c)%Z) s acc)%Z) as H.
  { induction s as [|c s IH]; intros acc Hacc; cbn [fold_left]; [exact Hacc|].
    apply IH. pose proof (digit_val_nonneg c). lia. }
  apply H. lia.
Qed.

(** X1. The integer parser answers [None] exactly when the text is
    missing or holds no decimal digit, and a number it answers is never
    negative. It raises exactly when the first run of digits of the text
    is longer than the 4300 digits [int] accepts, and what it raises is
    [ValueError]. *)
Theorem parse_int_value_absent_iff_no_digit (text : option str) :
  (parse_int_value text = Ok None <->
   match text with
   | Some t => existsb Unicode.isdecimal t = false
   | None => True
   end)
  /\ (forall v, parse_int_value text = Ok (Some v) -> (0 <= v)%Z)
  /\ (forall e,
        parse_int_value text = Raise e <->
        e = ValueError
        /\ exists t n0 rest,
             text = Some t /\ re_findall_digits t = n0 :: rest
             /\ (int_max_str_digits < Z.of_nat (length n0))%Z).
Proof.
  destruct text as [t|].
  2:{ split; [split; [tauto | reflexivity]|]. split; [discriminate|].
      intros e. split; [discriminate|]. intros (_ & t & n0 & rest & [=] & _). }
  rewrite parse_int_value_first_run.
  destruct (re_findall_digits t) as [|n0 ns] eqn:Hruns.
  - pose proof Hruns as Hno. apply findall_digits_aux_nil in Hno as [_ Hno].
    split; [tauto|]. split; [discriminate|].
    intros e. split; [discriminate|].
    intros (_ & t' & n1 & rest & [= <-] & Hr & _). congruence.
  - assert (existsb Unicode.isdecimal t = false -> False) as Hsome.
    { intros Hno.
      assert (re_findall_digits t = []) as Hnil
        by (apply findall_digits_aux_nil; split; [reflexivity | exact Hno]).
      congruence. }
    destruct (Z.of_nat (length n0) >? int_max_str_digits)%Z eqn:Hlen.
    + split; [split; [discriminate | intros Hno; destruct (Hsome Hno)]|].
      split; [discriminate|].
      intros e. split.
      * intros [= <-]. split; [reflexivity|]. exists t, n0, ns.
        split; [reflexivity|]. split; [exact Hruns|].
        rewrite Z.gtb_ltb in Hlen. apply Z.ltb_lt. exact Hlen.
      * intros [-> _]. reflexivity.
    + split; [split; [discriminate | intros Hno; destruct (Hsome Hno)]|].
      split; [intros v [= <-]; apply digits_value_nonneg|].
      intros e. split; [discriminate|].
      intros (_ & t' & n1 & rest & [= <-] & Hr & Hlt).
      rewrite Hruns in Hr. injection Hr as <- _.
      rewrite Z.gtb_ltb in Hlen. apply Z.ltb_ge in Hlen. lia.
Qed.

Lemma split_ws_aux_nil cur s :
  split_ws_aux cur s = [] <-> cur = [] /\ forallb Unicode.isspace s = true.
Proof.
  revert cur. induction s as [|c s IH]; intros cur; cbn [split_ws_aux forallb].
  - destruct cur; [tauto|]. split; [discriminate | intros [? _]; discriminate].
  - destruct (Unicode.isspace c) eqn:Hc; cbn [andb].
    + destruct cur as [|x cur'].
      * rewrite IH. tauto.
      * split; [discriminate | intros [? _]; discriminate].
    + rewrite IH. split; [intros [? _]; discriminate | intros [_ ?]; discriminate].
Qed.

(** X2. The decimal parser raises exactly on a text that is not empty and
    is white space throughout, and what it raises is [IndexError]; on a
    missing or empty text it answers [None]. *)
Theorem parse_float_value_raises_iff_blank {F : Type} (py_float : str -> option F)
    (text : option str) (e : exn) :
  parse_float_value py_float text = Raise e <->
  e = IndexError
  /\ exists t, text = Some t /\ t <> [] /\ forallb Unicode.isspace t = true.
Proof.
  destruct text as [[|c t]|].
  - split; [discriminate|]. intros (_ & t & [= <-] & Hne & _). congruence.
  - unfold parse_float_value.
    destruct (split_ws (c :: t)) as [|w ws] eqn:Hsplit.
    + apply split_ws_aux_nil in Hsplit as [_ Hsp]. cbn [first_item rbind].
      split.
      * intros [= <-]. split; [reflexivity|]. exists (c :: t).
        split; [reflexivity|]. split; [discriminate | exact Hsp].
      * intros [-> _]. reflexivity.
    + cbn [first_item rbind]. split.
      * destruct (py_float (replace_char 44 46 w)); discriminate.
      * intros (_ & t' & [= <-] & _ & Hsp).
        assert (split_ws (c :: t) = []) as Hnil
          by (apply split_ws_aux_nil; split; [reflexivity | exact Hsp]).
        congruence.
  - split; [discriminate|]. intros (_ & t & [=] & _).
Qed.

Lemma findall_digits_aux_concat cur s :
  concat (findall_digits_aux cur s) = rev cur ++ List.filter Unicode.isdecimal s.
Proof.
  revert cur. induction s as [|c s IH]; intros cur; cbn [findall_digits_aux List.filter].
  - destruct cur; cbn [concat]; rewrite ?app_nil_r; reflexivity.
  - destruct (Unicode.isdecimal c).
    + rewrite IH. cbn [rev]. rewrite <- app_assoc. reflexivity.
    + destruct cur as [|x cur'].
      * rewrite IH. reflexivity.
      * cbn [concat]. rewrite IH. reflexivity.
Qed.

(** X3. The currency parser reads the runs of digits of the text put end
    to end, where the integer parser reads the first run alone; on a text
    with a single run of digits the two agree, also where [int] refuses
    the run for its length. *)
Theorem parse_price_reads_all_runs (t : str) :
  re_sub_non_digits t = concat (re_findall_digits t)
  /\ parse_price (Some t) =
     match concat (re_findall_digits t) with
     | [] => Ok None
     | d =>
         if (Z.of_nat (length d) >? int_max_str_digits)%Z then Raise ValueError
         else Ok (Some (digits_value d))
     end
  /\ (forall r, re_findall_digits t = [r] ->
                parse_price (Some t) = parse_int_value (Some t)).
Proof.
  assert (re_sub_non_digits t = concat (re_findall_digits t)) as Hcat.
  { unfold re_findall_digits. rewrite findall_digits_aux_concat. reflexivity. }
  split; [exact Hcat|]. split.
  - rewrite parse_price_residue, Hcat. reflexivity.
  - intros r Hr. rewrite parse_price_residue, parse_int_value_first_run, Hcat, Hr.
    cbn [concat]. rewrite app_nil_r.
    pose proof (findall_digits_aux_runs [] t (List.Forall_nil _)) as Hruns.
    fold (re_findall_digits t) in Hruns. rewrite Hr in Hruns.
    apply Forall_cons in Hruns as [[_ Hne] _].
    destruct r; [congruence | reflexivity].
Qed.

(** ** The field extractor and the detail fetcher, further *)

Section ExtractorMore.

Context {F : Type}.
Variable py_float : str -> option F.
Variable py_lower : str -> str.

Lemma route_highlight_price_address (data data' : offer F) value_text label_text :
  route_highlight py_float data value_text label_text = Ok data' ->
  price_rub data' = price_rub data /\ address data' = address data.
Proof.
  unfold route_highlight.
  repeat match goal with
         | |- context [if ?b then _ else _] => destruct b
         end;
    try (destruct (parse_float_value py_float (Some value_text)) as [v|e];
         simpl; [intros [= <-]; split; reflexivity | discriminate]);
    try (destruct (parse_int_value (Some value_text)) as [v|e];
         simpl; [intros [= <-]; split; reflexivity | discriminate]).
  intros [= <-]. split; reflexivity.
Qed.

Lemma scan_features_price_address cs : forall data : offer F,
  price_rub (fst (scan_features py_float py_lower data cs)) = price_rub data
  /\ address (fst (scan_features py_float py_lower data cs)) = address data.
Proof.
  induction cs as [|c cs IH]; intros data; [split; reflexivity|].
  cbn [scan_features]. destruct (value_elem c) as [v|]; [|apply IH].
  destruct (label_elem c) as [l|]; [|apply IH].
  destruct (route_highlight _ _ _ _) as [data'|e] eqn:Hr; [|split; reflexivity].
  destruct (route_highlight_price_address _ _ _ _ Hr) as [Hp Ha].
  destruct (IH data') as [Hp' Ha']. rewrite Hp', Ha', Hp, Ha. split; reflexivity.
Qed.

(** The loop over the containers of two lists put end to end: the second
    list is scanned from the record the first one leaves, unless the
    first one raised, which ends the scan with the record as it then was. *)
Lemma scan_features_app cs1 cs2 : forall data : offer F,
  scan_features py_float py_lower data (cs1 ++ cs2) =
  match scan_features py_float py_lower data cs1 with
  | (data1, None) => scan_features py_float py_lower data1 cs2
  | (data1, Some e) => (data1, Some e)
  end.
Proof.
  induction cs1 as [|c cs1 IH]; intros data; [reflexivity|].
  cbn [app scan_features]. destruct (value_elem c) as [v|]; [|apply IH].
  destruct (label_elem c) as [l|]; [|apply IH].
  destruct (route_highlight _ _ _ _) as [data'|e]; [apply IH | reflexivity].
Qed.

Context {W : Type}.
Variable goto : W -> str -> W * card_load.

(** X4. On a card that loads and whose price text the currency parser
    reads, the price and the address of the record are what their own
    elements give, whatever the highlight containers hold and even when
    the loop over them is cut short by an exception. When the currency
    parser raises, on a price text of more digits than [int] accepts, the
    record holds its URL and nothing else: the address is not read. *)
Theorem price_and_address_from_own_elements (w w1 : W) (u : str) (p : card_page) :
  goto w u = (w1, CardLoaded p) ->
  let r := snd (scrape_offer_details py_float py_lower goto w u) in
  match
    match price_elem p with
    | Some price_text => parse_price (Some price_text)
    | None => Ok None
    end
  with
  | Ok v =>
      price_rub r = v
      /\ address r =
         match address_elem p with
         | Some address_text => parse_address (Some address_text)
         | None => None
         end
  | Raise _ => r = empty_offer u
  end.
Proof.
  intros Hg r. subst r. unfold scrape_offer_details. rewrite Hg. cbn [snd].
  unfold extract_fields.
  destruct (price_elem p) as [pt|].
  - destruct (parse_price (Some pt)) as [v|e]; cbn [rbind fst]; [|reflexivity].
    match goal with
    | |- context [scan_features py_float py_lower ?d ?cs] =>
        destruct (scan_features_price_address cs d) as [Hp Ha]
    end.
    rewrite Hp, Ha. destruct (address_elem p); split; reflexivity.
  - match goal with
    | |- context [scan_features py_float py_lower ?d ?cs] =>
        destruct (scan_features_price_address cs d) as [Hp Ha]
    end.
    rewrite Hp, Ha. destruct (address_elem p); split; reflexivity.
Qed.

(** X5. A container that raises ends the extraction where it stands: the
    record is the one the containers before it produced, and no container
    after it is read. *)
Theorem extraction_keeps_fields_before_failure
    (data data1 : offer F) (before after : list highlight)
    (value_text label_text : str) (e : exn) :
  scan_features py_float py_lower data before = (data1, None) ->
  route_highlight py_float data1 value_text (py_lower (strip label_text)) = Raise e ->
  scan_features py_float py_lower data
    (before ++ mk_highlight (Some value_text) (Some label_text) :: after)
  = (data1, Some e).
Proof.
  intros Hb Hr. rewrite scan_features_app, Hb.
  cbn [scan_features value_elem label_elem]. rewrite Hr. reflexivity.
Qed.

End ExtractorMore.

(** ** The catalogue walker, further *)

Section WalkerMore.

Variable nfkc : str -> str.
Variable check_bracketed_netloc : str -> bool.
Variable parse_qs : str -> qs_dict.
Variable urlencode : qs_dict -> str.
Context {W : Type}.
Variable nav : W -> str -> W * listing_load.

Local Abbreviation walk :=
  (_recursive_scrape_page nfkc check_bracketed_netloc parse_qs urlencode nav).
Local Abbreviation collect := (collect_links nfkc check_bracketed_netloc).
Local Abbreviation on_page :=
  (walks_on nfkc check_bracketed_netloc parse_qs urlencode nav).
Local Abbreviation loads :=
  (loads_page nfkc check_bracketed_netloc parse_qs urlencode nav).
Local Abbreviation found_from s x :=
  (exists page hrefs h,
     loads s page hrefs /\ In (Some h) hrefs /\ startswith (u8 "/offer/") h = true
     /\ Urllib.urljoin nfkc check_bracketed_netloc page h = Ok x).

(** A list the walker returns is the content of a set that grew from the
    set it was given by resolved item links only. *)
(** A state has at most one next state. *)
Lemma walks_on_functional s s1 s2 : on_page s s1 -> on_page s s2 -> s1 = s2.
Proof.
  intros H1 H2.
  destruct H1 as [w u c p w1 hrefs c1 next Hp Hn Hc _ _ Hnext].
  inversion H2 as [w0 u0 c0 p' w1' hrefs' c1' next' Hp' Hn' Hc' _ _ Hnext']; subst.
  rewrite Hp in Hp'. injection Hp' as <-.
  rewrite Hn in Hn'. injection Hn' as <- <-.
  rewrite Hc in Hc'. injection Hc' as <-.
  rewrite Hnext in Hnext'. injection Hnext' as <-. reflexivity.
Qed.

(** What a walk that returns a list has collected: the links it was
    given and the item links of the pages it loaded. *)
Lemma walk_result_links fuel : forall w u c w' l,
  walk fuel w u c = (w', Some (Ok l)) ->
  exists c' : gset str,
    l = elements c' /\ forall x, x ∈ c' <-> x ∈ c \/ found_from (w, u, c) x.
Proof.
  induction fuel as [|fuel IH]; intros w u c w' l; cbn [_recursive_scrape_page];
    [discriminate|].
  destruct (page_param_of nfkc check_bracketed_netloc parse_qs u) as [p|e] eqn:Hp;
    [|discriminate].
  destruct (nav w u) as [w1 load] eqn:Hn.
  assert (forall s', on_page (w, u, c) s' ->
            exists hrefs c1 next,
              load = ListingLoaded hrefs /\ collect u hrefs c = Ok c1
              /\ (c1 ≠ c \/ (p <= 1)%Z) /\ (p < 25)%Z /\ s' = (w1, next, c1)) as Hinv.
  { intros s' Hs.
    inversion Hs as [w0 u0 c0 p' w1' hrefs c1 next Hp' Hn' Hc' Hnew Hlt Hnext]; subst.
    rewrite Hp in Hp'. injection Hp' as <-.
    rewrite Hn in Hn'. injection Hn' as <- ->.
    exists hrefs, c1, next. repeat split; assumption. }
  assert ((forall hrefs, load <> ListingLoaded hrefs) ->
         (w1, Some (Ok (elements c))) = (w', Some (Ok l)) ->
         exists c' : gset str,
           l = elements c' /\ forall x, x ∈ c' <-> x ∈ c \/ found_from (w, u, c) x)
    as Hfail.
  { intros Hload [= _ <-]. exists c. split; [reflexivity|].
    intros x. split; [intros Hx; left; exact Hx|].
    intros [Hx|(page & hrefs & h & Hl & _)]; [exact Hx|].
    exfalso. inversion Hl as [w0 u0 c0 p' w1' hrefs' Hp' Hn'|s0 s' page' hrefs' Hs _]; subst.
    - rewrite Hn in Hn'. injection Hn' as _ ->. apply (Hload hrefs). reflexivity.
    - destruct (Hinv s' Hs) as (hrefs' & _ & _ & -> & _). apply (Hload hrefs'). reflexivity. }
  destruct load as [| |hrefs].
  - apply Hfail. discriminate.
  - apply Hfail. discriminate.
  - clear Hfail.
    destruct (collect u hrefs c) as [c1|e] eqn:Hc; [|discriminate].
    pose proof (collect_links_adds nfkc check_bracketed_netloc parse_qs urlencode
                  u hrefs c c1 Hc) as Hadds.
    assert (loads (w, u, c) u hrefs) as Hhere by (eapply loads_here; eassumption).
    (* a page that ends the walk *)
    assert ((forall s', ~ on_page (w, u, c) s') ->
            (w1, Some (Ok (elements c1))) = (w', Some (Ok l)) ->
            exists c' : gset str, l = elements c'
              /\ forall x, x ∈ c' <-> x ∈ c \/ found_from (w, u, c) x) as Hstop.
    { intros Hlast [= _ <-]. exists c1. split; [reflexivity|].
      intros x. rewrite (Hadds x). split.
      - intros [Hx|(h & Hin & Hs & Hj)]; [left; exact Hx|].
        right. exists u, hrefs, h. repeat split; assumption.
      - intros [Hx|(page & hrefs' & h & Hl & Hin & Hs & Hj)]; [left; exact Hx|].
        right.
        inversion Hl as [w0 u0 c0 p' w1' hrefs0 Hp' Hn'|s0 s' page' hrefs0 Hs' _]; subst.
        + rewrite Hn in Hn'. injection Hn' as _ <-. exists h. repeat split; assumption.
        + destruct (Hlast s' Hs'). }
    destruct ((Z.of_nat (size c1) - Z.of_nat (size c) =? 0)%Z && (p >? 1)%Z) eqn:Hzero.
    { apply Hstop. intros s' Hs.
      destruct (Hinv s' Hs) as (hrefs' & c1' & next & [= <-] & Hc' & Hnew & _).
      rewrite Hc in Hc'. injection Hc' as <-.
      apply andb_true_iff in Hzero as [Hz Hgt].
      apply (found_zero_iff nfkc check_bracketed_netloc parse_qs urlencode _ _ _ _ Hc) in Hz.
      apply Z.gtb_lt in Hgt. destruct Hnew as [Hnew|Hle]; [contradiction | lia]. }
    destruct (p >=? 25)%Z eqn:Hcap.
    { apply Hstop. intros s' Hs.
      destruct (Hinv s' Hs) as (_ & _ & _ & _ & _ & _ & Hlt & _).
      rewrite Z.geb_leb in Hcap. apply Z.leb_le in Hcap. lia. }
    clear Hstop.
    destruct (next_page_url nfkc check_bracketed_netloc parse_qs urlencode u p)
      as [next|e] eqn:Hnext; [|discriminate].
    intros Hrun. destruct (IH _ _ _ _ _ Hrun) as (c' & Hl & Hc').
    assert (on_page (w, u, c) (w1, next, c1)) as Hstep.
    { eapply walks_on_page; try eassumption.
      - apply andb_false_iff in Hzero as [Hz|Hgt].
        + left. intros ->. rewrite Z.sub_diag in Hz. discriminate.
        + right. rewrite Z.gtb_ltb in Hgt. apply Z.ltb_ge in Hgt. exact Hgt.
      - rewrite Z.geb_leb in Hcap. apply Z.leb_gt in Hcap. exact Hcap. }
    exists c'. split; [exact Hl|].
    intros x. rewrite (Hc' x), (Hadds x). split.
    + intros [[Hx|(h & Hin & Hs & Hj)]|(page & hrefs' & h & Hlo & Hrest)].
      * left. exact Hx.
      * right. exists u, hrefs, h. repeat split; assumption.
      * right. exists page, hrefs', h. split; [|exact Hrest].
        eapply loads_later; eassumption.
    + intros [Hx|(page & hrefs' & h & Hlo & Hin & Hs & Hj)]; [left; left; exact Hx|].
      inversion Hlo as [w0 u0 c0 p' w1' hrefs0 Hp' Hn'|s0 s' page' hrefs0 Hs' Hlo']; subst.
      * rewrite Hn in Hn'. injection Hn' as _ <-.
        left. right. exists h. repeat split; assumption.
      * rewrite (walks_on_functional _ _ _ Hs' Hstep) in Hlo'.
        right. exists page, hrefs', h. repeat split; assumption.
Qed.

(** X7. A list the walker returns has no duplicates and holds exactly
    the links of the set the walk started with and the links that
    [urljoin] made, on a page the walk loaded, from an anchor of that page
    beginning with "/offer/". *)
Theorem walk_returns_unique_item_links
    (fuel : nat) (w w' : W) (u : str) (c : gset str) (l : list str) :
  walk fuel w u c = (w', Some (Ok l)) ->
  NoDup l
  /\ forall x,
       x ∈ l <->
       x ∈ c
       \/ exists page hrefs h,
            loads_page nfkc check_bracketed_netloc parse_qs urlencode nav (w, u, c) page hrefs
            /\ In (Some h) hrefs
            /\ startswith (u8 "/offer/") h = true
            /\ Urllib.urljoin nfkc check_bracketed_netloc page h = Ok x.
Proof.
  intros H. destruct (walk_result_links fuel _ _ _ _ _ H) as (c' & -> & Hc').
  split; [apply NoDup_elements|].
  intros x. rewrite elem_of_elements. apply Hc'.
Qed.

(** X8. Collecting the anchors of a page into a set that already holds
    what they gave leaves the set as it is: a page seen before adds no
    link. *)
Theorem collect_links_seen_page (u : str) (hrefs : list (option str))
    (c c' d : gset str) :
  collect u hrefs c = Ok c' -> c' ⊆ d -> collect u hrefs d = Ok d.
Proof.
  revert c d. induction hrefs as [|href rest IH]; intros c d; cbn [collect_links].
  - intros _ _. reflexivity.
  - destruct href as [h|]; [|apply IH].
    destruct (negb (bool_decide (h = [])) && startswith (u8 "/offer/") h); [|apply IH].
    destruct (Urllib.urljoin nfkc check_bracketed_netloc u h) as [full_url|e];
      cbn [rbind]; [|discriminate].
    intros Hc Hsub.
    pose proof (collect_links_subseteq nfkc check_bracketed_netloc parse_qs urlencode u rest _ _ Hc) as Hin.
    assert (full_url ∈ d) as Hfull.
    { apply Hsub, Hin. apply elem_of_union_l, elem_of_singleton. reflexivity. }
    assert ({[full_url]} ∪ d = d) as ->
      by (apply subseteq_union_1_L, singleton_subseteq_l; exact Hfull).
    apply (IH _ d Hc Hsub).
Qed.

(** X9. Where the page numbers of the URLs the walker builds go up by
    one from [p], the walker is back after at most [26 - p] pages: with
    that much fuel it returns a list or raises, it does not run on. *)
Theorem walk_ends_by_page_cap (n : nat) : forall (u : str) (p : Z) (w : W) (c : gset str),
  counts_up nfkc check_bracketed_netloc parse_qs urlencode n u p ->
  (25 <= p + Z.of_nat n)%Z ->
  snd (walk (S n) w u c) <> None.
Proof.
  induction n as [|n IH]; intros u p w c Hup Hcap;
    cbn [_recursive_scrape_page]; destruct Hup as [Hp Hnext]; rewrite Hp;
    destruct (nav w u) as [w1 [| |hrefs]]; cbn [snd]; try discriminate;
    destruct (collect u hrefs c) as [c1|e]; cbn [snd]; try discriminate;
    destruct ((Z.of_nat (size c1) - Z.of_nat (size c) =? 0)%Z && (p >? 1)%Z);
    cbn [snd]; try discriminate;
    destruct (p >=? 25)%Z eqn:Hge; cbn [snd]; try discriminate.
  - rewrite Z.geb_leb in Hge. apply Z.leb_gt in Hge. lia.
  - destruct (next_page_url nfkc check_bracketed_netloc parse_qs urlencode u p)
      as [next|e] eqn:Hn; cbn [snd]; [|discriminate].
    apply (IH next (p + 1)%Z); [apply Hnext; reflexivity | lia].
Qed.

(** Pages that do not end the walk, from a state given by its parts. *)
Lemma walk_steps_from n w u c w1 u1 c1 fuel :
  nsteps on_page n (w, u, c) (w1, u1, c1) ->
  walk (n + fuel) w u c = walk fuel w1 u1 c1.
Proof.
  intros H.
  exact (walk_steps nfkc check_bracketed_netloc parse_qs urlencode nav n _ _ fuel H).
Qed.

End WalkerMore.

(** ** The batch insert and the parse history *)

Section CassandraMore.

Context {Session Offer : Type}.
Variable execute : Session -> Offer -> Session * result unit.
Variable execute_history : Session -> history_row -> Session * result unit.
Variable json_load : str -> result (run_file Offer).

Lemma insert_loop_shift offers_data : forall s succ fail,
  insert_loop execute s offers_data succ fail =
  let '(s', (a, b)) := insert_loop execute s offers_data 0%Z 0%Z in
  (s', ((succ + a)%Z, (fail + b)%Z)).
Proof.
  induction offers_data as [|o rest IH]; intros s succ fail; cbn [insert_loop].
  - rewrite !Z.add_0_r. reflexivity.
  - destruct (insert_offer execute s o) as [s' inserted]. destruct inserted.
    + rewrite (IH s' (succ + 1)%Z fail), (IH s' (0 + 1)%Z 0%Z).
      destruct (insert_loop execute s' rest 0%Z 0%Z) as [s'' [a b]].
      f_equal. f_equal; lia.
    + rewrite (IH s' succ (fail + 1)%Z), (IH s' 0%Z (0 + 1)%Z).
      destruct (insert_loop execute s' rest 0%Z 0%Z) as [s'' [a b]].
      f_equal. f_equal; lia.
Qed.

Lemma insert_loop_app l1 l2 : forall s succ fail,
  insert_loop execute s (l1 ++ l2) succ fail =
  let '(s1, (a, b)) := insert_loop execute s l1 succ fail in
  insert_loop execute s1 l2 a b.
Proof.
  induction l1 as [|o rest IH]; intros s succ fail; cbn [app insert_loop]; [reflexivity|].
  destruct (insert_offer execute s o) as [s' inserted]. destruct inserted; apply IH.
Qed.

(** X10. Inserting two batches one after the other, the second on the
    session the first one leaves, counts what inserting them as one batch
    counts: the statistics add up field by field. *)
Theorem insert_offers_batch_app (s : Session) (l1 l2 : list Offer) :
  insert_offers_batch execute s (l1 ++ l2) =
  let '(s1, stats1) := insert_offers_batch execute s l1 in
  let '(s2, stats2) := insert_offers_batch execute s1 l2 in
  (s2, mk_batch_stats (successful stats1 + successful stats2)
         (failed stats1 + failed stats2) (total stats1 + total stats2)).
Proof.
  unfold insert_offers_batch. rewrite insert_loop_app.
  destruct (insert_loop execute s l1 0%Z 0%Z) as [s1 [a1 b1]].
  rewrite (insert_loop_shift l2 s1 a1 b1).
  destruct (insert_loop execute s1 l2 0%Z 0%Z) as [s2 [a2 b2]].
  cbn [successful failed total]. rewrite length_app, Nat2Z.inj_add. reflexivity.
Qed.

Lemma insert_loop_all_ok offers_data :
  (forall s o, snd (execute s o) = Ok tt) ->
  forall s succ fail,
    snd (insert_loop execute s offers_data succ fail)
    = ((succ + Z.of_nat (length offers_data))%Z, fail).
Proof.
  intros Hok. induction offers_data as [|o rest IH]; intros s succ fail;
    cbn [insert_loop length].
  - rewrite Z.add_0_r. reflexivity.
  - unfold insert_offer. specialize (Hok s o).
    destruct (execute s o) as [s' r]. cbn [snd] in Hok. subst r.
    rewrite IH. f_equal. lia.
Qed.

Lemma insert_loop_all_raise offers_data :
  (forall s o, exists e, snd (execute s o) = Raise e) ->
  forall s succ fail,
    snd (insert_loop execute s offers_data succ fail)
    = (succ, (fail + Z.of_nat (length offers_data))%Z).
Proof.
  intros Hbad. induction offers_data as [|o rest IH]; intros s succ fail;
    cbn [insert_loop length].
  - rewrite Z.add_0_r. reflexivity.
  - unfold insert_offer. destruct (Hbad s o) as [e He].
    destruct (execute s o) as [s' r]. cbn [snd] in He. subst r.
    rewrite IH. f_equal. lia.
Qed.

(** X11. On a session whose insert statement never raises every offer of
    the batch counts as successful and none as failed. *)
Theorem insert_offers_batch_all_succeed (s : Session) (offers_data : list Offer) :
  (forall s' o, snd (execute s' o) = Ok tt) ->
  snd (insert_offers_batch execute s offers_data)
  = mk_batch_stats (Z.of_nat (length offers_data)) 0 (Z.of_nat (length offers_data)).
Proof.
  intros Hok. unfold insert_offers_batch.
  pose proof (insert_loop_all_ok offers_data Hok s 0%Z 0%Z) as H.
  destruct (insert_loop execute s offers_data 0%Z 0%Z) as [s' [a b]].
  cbn [snd] in *. injection H as -> ->. reflexivity.
Qed.

(** X12. On a session whose insert statement always raises the batch
    insert still returns, with every offer counted as failed. *)
Theorem insert_offers_batch_all_fail (s : Session) (offers_data : list Offer) :
  (forall s' o, exists e, snd (execute s' o) = Raise e) ->
  snd (insert_offers_batch execute s offers_data)
  = mk_batch_stats 0 (Z.of_nat (length offers_data)) (Z.of_nat (length offers_data)).
Proof.
  intros Hbad. unfold insert_offers_batch.
  pose proof (insert_loop_all_raise offers_data Hbad s 0%Z 0%Z) as H.
  destruct (insert_loop execute s offers_data 0%Z 0%Z) as [s' [a b]].
  cbn [snd] in *. injection H as -> ->. reflexivity.
Qed.

Lemma insert_items_loop_dicts offers : forall s succ fail,
  insert_items_loop execute s (map Some offers) succ fail =
  (fst (insert_loop execute s offers succ fail),
   Ok (snd (insert_loop execute s offers succ fail))).
Proof.
  induction offers as [|o rest IH]; intros s succ fail;
    cbn [map insert_items_loop insert_loop]; [reflexivity|].
  destruct (insert_offer execute s o) as [s' inserted]. destruct inserted; apply IH.
Qed.

Lemma insert_items_loop_stops offers rest : forall s succ fail,
  insert_items_loop execute s (map Some offers ++ None :: rest) succ fail =
  (fst (insert_loop execute s offers succ fail), Raise OtherError).
Proof.
  induction offers as [|o more IH]; intros s succ fail;
    cbn [map app insert_items_loop insert_loop]; [reflexivity|].
  destruct (insert_offer execute s o) as [s' inserted]. destruct inserted; apply IH.
Qed.

(** On items that are all dictionaries the batch insert over items is the
    batch insert; an item that is none ends it with an exception, after
    the inserts of the items before it. *)
Lemma insert_items_batch_dicts s offers :
  insert_items_batch execute s (map Some offers) =
  (fst (insert_offers_batch execute s offers),
   Ok (snd (insert_offers_batch execute s offers))).
Proof.
  unfold insert_items_batch, insert_offers_batch.
  rewrite insert_items_loop_dicts, length_map.
  destruct (insert_loop execute s offers 0%Z 0%Z) as [s' [a b]]. reflexivity.
Qed.

Lemma insert_items_batch_stops s offers rest :
  insert_items_batch execute s (map Some offers ++ None :: rest) =
  (fst (insert_offers_batch execute s offers), Raise OtherError).
Proof.
  unfold insert_items_batch, insert_offers_batch.
  rewrite insert_items_loop_stops.
  destruct (insert_loop execute s offers 0%Z 0%Z) as [s' [a b]]. reflexivity.
Qed.

Lemma insert_parse_history_session s source_url n a b status :
  fst (insert_parse_history execute_history s source_url n a b status)
  = fst (execute_history s (mk_history_row source_url n a b status)).
Proof.
  unfold insert_parse_history.
  destruct (execute_history s _) as [s' r]. destruct r; reflexivity.
Qed.

(** X13. Without an uploader [upload_to_cassandra_db] answers [False]
    and does nothing. With one, it inserts the batch and then writes one
    history row that bears the parser's URL and the three counts of that
    batch, which add up to the number of offers; the status of the row is
    "completed" when an insert of the batch succeeded and "failed" when
    none did, and the function answers [True] in the first case only. *)
Theorem upload_to_cassandra_db_history (base_url : str) (s : Session)
    (offers : list Offer) :
  upload_to_cassandra_db execute execute_history base_url None offers = (None, false)
  /\ let s1 := fst (insert_offers_batch execute s offers) in
     let stats := snd (insert_offers_batch execute s offers) in
     exists row,
       upload_to_cassandra_db execute execute_history base_url (Some s) offers
       = (Some (fst (execute_history s1 row)), (successful stats >? 0)%Z)
       /\ h_source_url row = JString base_url
       /\ h_total_offers row = total stats
       /\ h_successful_offers row = successful stats
       /\ h_failed_offers row = failed stats
       /\ h_total_offers row = Z.of_nat (length offers)
       /\ (h_successful_offers row + h_failed_offers row = h_total_offers row)%Z
       /\ (h_status row = u8 "completed" <-> (0 < successful stats)%Z)
       /\ (h_status row = u8 "failed" <-> successful stats = 0%Z).
Proof.
  split; [reflexivity|].
  unfold upload_to_cassandra_db.
  pose proof (insert_loop_counts execute offers s 0%Z 0%Z) as Hc.
  unfold insert_offers_batch in *.
  destruct (insert_loop execute s offers 0%Z 0%Z) as [s1 [a b]].
  cbn [fst snd successful failed total].
  eexists. split.
  { rewrite (surjective_pairing (insert_parse_history _ _ _ _ _ _ _)).
    rewrite insert_parse_history_session. reflexivity. }
  cbn [h_source_url h_total_offers h_successful_offers h_failed_offers h_status].
  repeat split; try reflexivity; try lia.
  - destruct (a >? 0)%Z eqn:Ha; [intros _; apply Z.gtb_lt in Ha; lia|].
    intros H. vm_compute in H. discriminate.
  - intros Ha. replace (a >? 0)%Z with true; [reflexivity|].
    symmetry. apply Z.gtb_lt. lia.
  - destruct (a >? 0)%Z eqn:Ha.
    + intros H. vm_compute in H. discriminate.
    + intros _. rewrite Z.gtb_ltb in Ha. apply Z.ltb_ge in Ha. lia.
  - intros ->. reflexivity.
Qed.

(** X14. [upload_from_json] answers [False] and leaves the session alone
    for a file that does not load, has no offers, or has under 'offers' a
    value that is empty or has no length. For a list of dictionaries it
    inserts the batch and writes one history row with the counts of that
    batch, the source of the file ("unknown" when the key is missing) and
    the status "completed" whatever the inserts did: also when every
    insert failed, where it answers [False]. When an item is no
    dictionary it answers [False] after the inserts of the items before
    that one, and writes no history row. *)
Theorem upload_from_json_history (s : Session) (json_file_path : str) :
  ((forall data,
      json_load json_file_path = Ok data ->
      file_offers data = None \/ file_offers data = Some OffersFalsy
      \/ file_offers data = Some OffersUnsized) ->
   upload_from_json execute execute_history json_load s json_file_path = (s, false))
  /\ (forall data first more offers,
        json_load json_file_path = Ok data ->
        file_offers data = Some (OffersItems first more) ->
        first :: more = map Some offers ->
        let s1 := fst (insert_offers_batch execute s offers) in
        let stats := snd (insert_offers_batch execute s offers) in
        let source_url :=
          match file_source_url data with
          | Some v => v
          | None => JString (u8 "unknown")
          end in
        upload_from_json execute execute_history json_load s json_file_path
        = (fst (execute_history s1
                  (mk_history_row source_url (total stats) (successful stats)
                     (failed stats) (u8 "completed"))),
           (successful stats >? 0)%Z)
        /\ ((forall s' o, exists e, snd (execute s' o) = Raise e) ->
            stats = mk_batch_stats 0 (Z.of_nat (length offers)) (Z.of_nat (length offers))
            /\ snd (upload_from_json execute execute_history json_load s json_file_path)
               = false))
  /\ (forall data first more offers rest,
        json_load json_file_path = Ok data ->
        file_offers data = Some (OffersItems first more) ->
        first :: more = map Some offers ++ None :: rest ->
        upload_from_json execute execute_history json_load s json_file_path
        = (fst (insert_offers_batch execute s offers), false)).
Proof.
  split; [|split].
  - intros Hnone. unfold upload_from_json.
    destruct (json_load json_file_path) as [data|e]; [|reflexivity].
    destruct (Hnone data eq_refl) as [-> | [-> | ->]]; reflexivity.
  - intros data first more offers Hload Hoffers Hitems s1 stats source_url.
    assert (upload_from_json execute execute_history json_load s json_file_path
            = (fst (execute_history s1
                      (mk_history_row source_url (total stats) (successful stats)
                         (failed stats) (u8 "completed"))),
               (successful stats >? 0)%Z)) as Hrun.
    { unfold upload_from_json. rewrite Hload, Hoffers, Hitems, insert_items_batch_dicts.
      fold s1 stats source_url.
      rewrite (surjective_pairing (insert_parse_history _ _ _ _ _ _ _)).
      rewrite insert_parse_history_session. reflexivity. }
    split; [exact Hrun|].
    intros Hbad. rewrite Hrun. cbn [snd].
    assert (stats = mk_batch_stats 0 (Z.of_nat (length offers)) (Z.of_nat (length offers)))
      as Hstats.
    { subst stats. unfold insert_offers_batch.
      pose proof (insert_loop_all_raise offers Hbad s 0%Z 0%Z) as H.
      destruct (insert_loop execute s offers 0%Z 0%Z) as [s' [a b]].
      cbn [snd] in *. injection H as -> ->. reflexivity. }
    split; [exact Hstats|]. rewrite Hstats. reflexivity.
  - intros data first more offers rest Hload Hoffers Hitems.
    unfold upload_from_json. rewrite Hload, Hoffers, Hitems, insert_items_batch_stops.
    reflexivity.
Qed.

End CassandraMore.

(** ** The export pipeline, further *)

Section ExportMore.

Context {DataFrame S3Client : Type}.
Variable env : @export_env DataFrame S3Client.

Lemma upload_to_yandex_cloud_true fs file_path bucket_name :
  upload_to_yandex_cloud env fs file_path bucket_name = true ->
  file_path ∈ fs
  /\ str_truthy (YC_SA_KEY_ID env) = true
  /\ str_truthy (YC_SA_SECRET_KEY env) = true
  /\ str_truthy (YC_STORAGE_BUCKET env) = true
  /\ exists s3_client b,
       create_s3_session env = Some s3_client
       /\ (bucket_name = Some b
           \/ bucket_name = None /\ getenv_bucket env = Some b /\ b <> [])
       /\ exists r, s3_upload_file env s3_client file_path b = Ok r.
Proof.
  unfold upload_to_yandex_cloud.
  destruct (create_s3_session env) as [client|]; [|discriminate].
  set (bn := match bucket_name with Some b => Some b | None => _ end).
  assert (forall b, bn = Some b ->
            bucket_name = Some b
            \/ bucket_name = None /\ getenv_bucket env = Some b /\ b <> []) as Hbn.
  { subst bn. intros b. destruct bucket_name as [b'|].
    - intros [= ->]. left. reflexivity.
    - destruct (getenv_bucket env) as [g|]; cbn [str_truthy]; [|discriminate].
      destruct g as [|c g]; cbn [str_truthy]; [discriminate|].
      intros [= <-]. right. repeat split. discriminate. }
  destruct bn as [b|]; [|discriminate].
  specialize (Hbn b eq_refl).
  unfold upload_file_to_s3.
  destruct (str_truthy (YC_SA_KEY_ID env)); cbn [negb orb]; [|discriminate].
  destruct (str_truthy (YC_SA_SECRET_KEY env)); cbn [negb orb]; [|discriminate].
  destruct (str_truthy (YC_STORAGE_BUCKET env)); cbn [negb orb]; [|discriminate].
  destruct (bool_decide (file_path ∈ fs)) eqn:Hin; cbn [negb]; [|discriminate].
  apply bool_decide_eq_true_1 in Hin.
  destruct (s3_upload_file env client file_path b) as [r|e] eqn:Hup.
  - intros _. repeat split; try assumption. exists client, b. repeat split; eauto.
  - destruct e; discriminate.
Qed.

(** X15. [upload_to_yandex_cloud] answers [True] only for a file that
    exists, with the three module-level settings of [uploader.py]
    non-empty, a client at hand, and after [upload_file] returned without
    raising for that file and the bucket: the bucket passed in, or, when
    none is passed, the non-empty one of the environment. *)
Theorem upload_true_means_file_sent (fs : gset str) (file_path : str)
    (bucket_name : option str) :
  upload_to_yandex_cloud env fs file_path bucket_name = true ->
  file_path ∈ fs
  /\ str_truthy (YC_SA_KEY_ID env) = true
  /\ str_truthy (YC_SA_SECRET_KEY env) = true
  /\ str_truthy (YC_STORAGE_BUCKET env) = true
  /\ exists s3_client b,
       create_s3_session env = Some s3_client
       /\ (bucket_name = Some b
           \/ bucket_name = None /\ getenv_bucket env = Some b /\ b <> [])
       /\ exists r, s3_upload_file env s3_client file_path b = Ok r.
Proof. apply upload_to_yandex_cloud_true. Qed.

(** X16. When one of the settings [uploader.py] reads at import time is
    missing or empty, every upload is refused, also with a bucket name
    passed in explicitly; the export then answers [False] and removes no
    local file. *)
Theorem upload_refused_without_module_settings :
  str_truthy (YC_SA_KEY_ID env) && str_truthy (YC_SA_SECRET_KEY env)
    && str_truthy (YC_STORAGE_BUCKET env) = false ->
  (forall fs file_path bucket_name,
     upload_to_yandex_cloud env fs file_path bucket_name = false)
  /\ (forall fs bucket_name keep_local_file,
        snd (export_offers_to_yandex_cloud env fs bucket_name keep_local_file) = false
        /\ fs ⊆ fst (export_offers_to_yandex_cloud env fs bucket_name keep_local_file)).
Proof.
  intros Hset.
  assert (forall fs file_path bucket_name,
            upload_to_yandex_cloud env fs file_path bucket_name = false) as Hup.
  { intros fs file_path bucket_name.
    destruct (upload_to_yandex_cloud env fs file_path bucket_name) eqn:H; [|reflexivity].
    apply upload_to_yandex_cloud_true in H as (_ & H1 & H2 & H3 & _).
    rewrite H1, H2, H3 in Hset. discriminate. }
  split; [exact Hup|].
  intros fs bucket_name keep_local_file. unfold export_offers_to_yandex_cloud.
  destruct (create_offers_dataframe_with_districts env) as [[df|]|e];
    cbn [fst snd]; try (split; [reflexivity | set_solver]).
  destruct (df_empty env df); cbn [fst snd]; try (split; [reflexivity | set_solver]).
  destruct (save_dataframe_to_csv env fs df None) as [fs1 [csv_file|e]] eqn:Hsave.
  - rewrite Hup. cbn [negb fst snd].
    apply save_dataframe_to_csv_creates in Hsave. subst fs1.
    split; [reflexivity | set_solver].
  - cbn [fst snd]. unfold save_dataframe_to_csv in Hsave.
    destruct (to_csv env df _); [discriminate|]. injection Hsave as <- _.
    split; [reflexivity | set_solver].
Qed.

(** X17. Whatever happens, the export leaves every local path other than
    "apartments.csv" as it was: it neither creates nor removes one. *)
Theorem export_touches_only_snapshot (fs : gset str) (bucket_name : option str)
    (keep_local_file : bool) (p : str) :
  p <> u8 "apartments.csv" ->
  (p ∈ fst (export_offers_to_yandex_cloud env fs bucket_name keep_local_file)
   <-> p ∈ fs).
Proof.
  intros Hp. unfold export_offers_to_yandex_cloud.
  destruct (create_offers_dataframe_with_districts env) as [[df|]|e];
    cbn [fst]; try reflexivity.
  destruct (df_empty env df); cbn [fst]; try reflexivity.
  unfold save_dataframe_to_csv.
  destruct (to_csv env df (u8 "apartments.csv")) as [r|e]; cbn [fst]; [|reflexivity].
  destruct (upload_to_yandex_cloud env _ _ bucket_name); cbn [negb fst].
  - destruct keep_local_file; cbn [negb fst].
    + set_solver.
    + unfold os_remove.
      destruct (bool_decide _); [destruct (remove_allowed env _)|]; cbn [fst];
        set_solver.
  - set_solver.
Qed.

(** X18. The export answers [True] only when the frame had rows, the
    snapshot "apartments.csv" was written and the storage client took it.
    The snapshot is then still there exactly when it was to be kept or
    could not be removed. *)
Theorem export_true_means_uploaded (fs : gset str) (bucket_name : option str)
    (keep_local_file : bool) :
  snd (export_offers_to_yandex_cloud env fs bucket_name keep_local_file) = true ->
  (exists df s3_client b,
     create_offers_dataframe_with_districts env = Ok (Some df)
     /\ df_empty env df = false
     /\ to_csv env df (u8 "apartments.csv") = Ok tt
     /\ create_s3_session env = Some s3_client
     /\ s3_upload_file env s3_client (u8 "apartments.csv") b = Ok tt)
  /\ (u8 "apartments.csv"
        ∈ fst (export_offers_to_yandex_cloud env fs bucket_name keep_local_file)
      <-> keep_local_file = true \/ remove_allowed env (u8 "apartments.csv") = false).
Proof.
  unfold export_offers_to_yandex_cloud.
  destruct (create_offers_dataframe_with_districts env) as [[df|]|e];
    cbn [fst snd]; try discriminate.
  destruct (df_empty env df) eqn:Hne; cbn [fst snd]; try discriminate.
  unfold save_dataframe_to_csv.
  destruct (to_csv env df (u8 "apartments.csv")) as [[]|e] eqn:Hcsv; cbn [fst snd];
    [|discriminate].
  destruct (upload_to_yandex_cloud env _ _ bucket_name) eqn:Hup; cbn [negb fst snd];
    [|discriminate].
  intros _.
  apply upload_to_yandex_cloud_true in Hup as (Hin & _ & _ & _ & client & b & Hc & _ & [[] Hs]).
  split.
  { exists df, client, b. repeat split; assumption. }
  destruct keep_local_file; cbn [negb fst].
  - split; [intros _; left; reflexivity | intros _; exact Hin].
  - unfold os_remove. rewrite bool_decide_eq_true_2 by exact Hin.
    destruct (remove_allowed env (u8 "apartments.csv")); cbn [fst].
    + split; [set_solver | intros [H|H]; discriminate].
    + split; [intros _; right; reflexivity | intros _; exact Hin].
Qed.

End ExportMore.

(** ** Item links across the pages of a site *)

Section ItemLinks.

Variable nfkc : str -> str.
Variable chk : str -> bool.

(** What [urljoin] gives for an item link on a page URL that is not
    empty. *)
Lemma urljoin_rooted_form base href b :
  base <> [] ->
  startswith (u8 "/offer/") href = true ->
  Urllib.urlparse nfkc chk base [] = Ok b ->
  exists P prm q f,
    startswith [47] P = true
    /\ Urllib.urlparse nfkc chk href (Urllib.scheme b)
       = Ok (Urllib.mk_parse (Urllib.scheme b) [] P prm q f)
    /\ Urllib.urljoin nfkc chk base href
       = Ok (if Urllib.mem (Urllib.scheme b) Urllib.uses_relative
             then Urllib.urlunsplit
                    (Urllib.mk_split (Urllib.scheme b) (Urllib.netloc b)
                       (with_params (new_path_of (split_char 47 P)) prm) q f)
             else href).
Proof.
  intros Hbase Hs Hb.
  destruct (urlparse_base_facts nfkc chk base b Hb) as (Hwf & _).
  destruct (urlparse_rooted nfkc chk href (Urllib.scheme b) Hwf Hs)
    as (P & prm & q & f & Hu & HP & _).
  exists P, prm, q, f. split; [exact HP|]. split; [exact Hu|].
  assert (href <> []) as Hhref by (intros ->; discriminate).
  unfold Urllib.urljoin. destruct base as [|cb base']; [congruence|].
  destruct href as [|ch href']; [congruence|].
  rewrite Hb. cbn [rbind]. rewrite Hu. cbn [rbind].
  cbn [Urllib.scheme Urllib.netloc Urllib.path Urllib.params Urllib.query
       Urllib.fragment].
  unfold str_eqb. rewrite bool_decide_eq_true_2 by reflexivity.
  destruct (Urllib.mem (Urllib.scheme b) Urllib.uses_relative) eqn:Hrel;
    cbn [negb orb]; [|reflexivity].
  rewrite (uses_relative_netloc _ Hrel). cbn [negb orb andb].
  rewrite (bool_decide_eq_true_2 (@nil N = [])) by reflexivity. cbn [negb andb].
  rewrite (bool_decide_eq_false_2 (P = [])) by (intros ->; discriminate).
  cbn [andb]. rewrite HP, urlunparse_form. reflexivity.
Qed.

(** X19. An item link resolves the same way on every page of a site:
    two page URLs, neither empty, with the same scheme and the same
    network location give the same result for a link that begins with
    "/offer/", whatever their paths and queries. *)
Theorem item_link_independent_of_page base1 base2 href b1 b2 :
  base1 <> [] -> base2 <> [] ->
  startswith (u8 "/offer/") href = true ->
  Urllib.urlparse nfkc chk base1 [] = Ok b1 ->
  Urllib.urlparse nfkc chk base2 [] = Ok b2 ->
  Urllib.scheme b1 = Urllib.scheme b2 ->
  Urllib.netloc b1 = Urllib.netloc b2 ->
  Urllib.urljoin nfkc chk base1 href = Urllib.urljoin nfkc chk base2 href.
Proof.
  intros H1 H2 Hs Hb1 Hb2 Hsc Hn.
  destruct (urljoin_rooted_form base1 href b1 H1 Hs Hb1)
    as (P & prm & q & f & _ & Hu1 & ->).
  destruct (urljoin_rooted_form base2 href b2 H2 Hs Hb2)
    as (P' & prm' & q' & f' & _ & Hu2 & ->).
  rewrite Hsc, Hu2 in Hu1. injection Hu1 as <- <- <- <-.
  rewrite Hsc, Hn. reflexivity.
Qed.

(** X20. On a page URL with a network location and a scheme that allows
    relative references, an item link that begins with "/offer/" resolves
    to an absolute URL on the page's scheme and network location; under
    any other scheme the link is returned as it was found. *)
Theorem item_link_on_page_site base href b :
  startswith (u8 "/offer/") href = true ->
  Urllib.urlparse nfkc chk base [] = Ok b ->
  Urllib.netloc b <> [] ->
  if Urllib.mem (Urllib.scheme b) Urllib.uses_relative
  then exists rest,
         Urllib.urljoin nfkc chk base href
         = Ok (scheme_part (Urllib.scheme b) ++ [47; 47] ++ Urllib.netloc b ++ 47 :: rest)
  else Urllib.urljoin nfkc chk base href = Ok href.
Proof.
  intros Hs Hb Hn.
  assert (base <> []) as Hbase.
  { intros ->. apply Hn. vm_compute in Hb. injection Hb as <-. reflexivity. }
  destruct (urljoin_rooted_form base href b Hbase Hs Hb)
    as (P & prm & q & f & HP & _ & ->).
  destruct (Urllib.mem (Urllib.scheme b) Urllib.uses_relative); [|reflexivity].
  assert (has_char 47 P = true) as Hslash.
  { destruct P as [|x P']; [discriminate|]. cbn [startswith] in HP.
    apply andb_true_iff in HP as [Hx _]. rewrite has_char_cons, Hx. reflexivity. }
  destruct (last_slash P Hslash) as (a0 & z0 & HPeq & Hz0).
  destruct (new_path_facts a0 z0 Hz0) as (a & z & Hnew & _ & Hnewne & _).
  rewrite <- HPeq in Hnew, Hnewne.
  set (newp := new_path_of (split_char 47 P)) in *.
  rewrite (urlunsplit_maybe_slash _ _ _ _ _ Hn).
  rewrite (maybe_slash_with_params _ _ Hnewne).
  assert (exists rest0, maybe_slash newp = 47 :: rest0) as (rest0 & Hm).
  { unfold maybe_slash. destruct newp as [|c t]; [congruence|].
    destruct (c =? 47) eqn:Hc; [|eauto].
    apply N.eqb_eq in Hc. subst c. eauto. }
  rewrite Hm.
  assert (exists rest1, with_params (47 :: rest0) prm = 47 :: rest1) as (rest1 & ->).
  { unfold with_params. destruct prm; cbn [app]; eauto. }
  rewrite urlunsplit_netloc by (try exact Hn; reflexivity).
  cbn [app]. eexists. reflexivity.
Qed.

End ItemLinks.

(** ** The statements on examples *)

(** C8 as stated fails on a page URL without a network location: the link
    "/offer/..//?/" found on "file:///x/y" resolves to "file://?/", which
    resolves against the same page to "file:///x/y?/". *)
Lemma urljoin_not_idempotent_on_file_page :
  startswith (u8 "/offer/") (u8 "/offer/..//?/") = true
  /\ Urllib.urljoin nfkc_ascii brackets_refused (u8 "file:///x/y") (u8 "/offer/..//?/")
     = Ok (u8 "file://?/")
  /\ Urllib.urljoin nfkc_ascii brackets_refused (u8 "file:///x/y") (u8 "file://?/")
     = Ok (u8 "file:///x/y?/")
  /\ u8 "file:///x/y?/" <> u8 "file://?/".
Proof.
  split; [vm_compute; reflexivity|].
  split; [vm_compute; reflexivity|].
  split; [vm_compute; reflexivity|].
  vm_compute. discriminate.
Qed.

Lemma urljoin_rooted_idempotent_witness :
  exists r,
    Urllib.urljoin nfkc_ascii brackets_refused
      (u8 "https://realty.yandex.ru/ufa/kupit/kvartira/") (u8 "/offer/8750304431505540864/")
    = Ok r
    /\ Urllib.urljoin nfkc_ascii brackets_refused
         (u8 "https://realty.yandex.ru/ufa/kupit/kvartira/") r
       = Ok r.
Proof.
  apply (urljoin_rooted_idempotent nfkc_ascii brackets_refused
           (u8 "https://realty.yandex.ru/ufa/kupit/kvartira/")
           (u8 "/offer/8750304431505540864/")
           (Urllib.mk_parse (u8 "https") (u8 "realty.yandex.ru") (u8 "/ufa/kupit/kvartira/")
              [] [] [])).
  - vm_compute. reflexivity.
  - vm_compute. reflexivity.
  - vm_compute. discriminate.
Defined.

Lemma measurement_parsers_spec_witness :
  parse_float_value read_decimal (Some (u8 "12,4 м²")) = Ok (Some (124 # 10)%Q).
Proof.
  apply (measurement_parsers_spec read_decimal (124 # 10)%Q).
  vm_compute. reflexivity.
Defined.

Lemma floor_total_routing_witness :
  match parse_int_value (Some (u8 "9")) with
  | Ok n =>
      exists data',
        route_highlight read_decimal (empty_offer sample_item) (u8 "9") (u8 "из 9")
        = Ok data'
        /\ floor_total data' = n
        /\ same_but_floor_total (empty_offer sample_item) data'
  | Raise e =>
      route_highlight read_decimal (empty_offer sample_item) (u8 "9") (u8 "из 9") = Raise e
  end.
Proof.
  apply (floor_total_routing read_decimal (empty_offer sample_item) (u8 "9") (u8 "из 9")).
  vm_compute. reflexivity.
Defined.

(** The failing input of C4: a price text of 4301 digits. *)
Lemma parse_price_spec_witness :
  parse_price (Some (repeat 49 4301)) = Raise ValueError.
Proof.
  apply parse_price_spec. vm_compute. reflexivity.
Defined.

Lemma blank_measurement_drops_floor_witness :
  floor (snd (scrape_offer_details read_decimal lower_basic (one_card blank_area_card)
                tt sample_item)) = None
  /\ floor (snd (scrape_offer_details read_decimal lower_basic (one_card floor_only_card)
                   tt sample_item)) = Some 5%Z.
Proof.
  split.
  - apply (blank_measurement_drops_floor read_decimal lower_basic (one_card blank_area_card)
             tt tt sample_item); [vm_compute; reflexivity | vm_compute; reflexivity |].
    reflexivity.
  - apply (blank_measurement_drops_floor read_decimal lower_basic (one_card floor_only_card)
             tt tt sample_item); [vm_compute; reflexivity | vm_compute; reflexivity |].
    reflexivity.
Defined.

Lemma export_keeps_snapshot_witness :
  export_offers_to_yandex_cloud refused_upload_env ∅ None false
  = ({[u8 "apartments.csv"]} ∪ ∅, false).
Proof.
  apply (export_keeps_snapshot_unless_uploaded refused_upload_env ∅
           ({[u8 "apartments.csv"]} ∪ ∅) 3%nat (u8 "apartments.csv") None false).
  - reflexivity.
  - reflexivity.
  - reflexivity.
  - unfold upload_to_yandex_cloud, upload_file_to_s3. cbn -[u8 union singleton elem_of].
    rewrite bool_decide_eq_true_2 by set_solver. reflexivity.
Defined.

(** The first page of the sample catalogue does not end the walk. *)
Lemma sample_first_page (repeats : bool) :
  walks_on nfkc_ascii brackets_refused plain_parse_qs plain_urlencode sample_catalogue
    (repeats, sample_seed, ∅)
    (repeats, u8 "https://example.org/list?page=2", {[sample_item]} ∪ ∅).
Proof.
  apply (walks_on_page nfkc_ascii brackets_refused plain_parse_qs plain_urlencode
           sample_catalogue repeats sample_seed ∅ 1%Z repeats
           [Some (u8 "/offer/1/"); None; Some (u8 "/about")]).
  - vm_compute. reflexivity.
  - reflexivity.
  - cbn [collect_links].
    replace (Urllib.urljoin nfkc_ascii brackets_refused sample_seed (u8 "/offer/1/"))
      with (Ok sample_item) by (vm_compute; reflexivity).
    reflexivity.
  - right. lia.
  - lia.
  - vm_compute. reflexivity.
Defined.

Lemma zero_yield_page_stops_walk_witness :
  _recursive_scrape_page nfkc_ascii brackets_refused plain_parse_qs plain_urlencode
    sample_catalogue (1 + 1) true sample_seed ∅
  = (true, Some (Ok (elements ({[sample_item]} ∪ (∅ : gset str))))).
Proof.
  apply (zero_yield_page_stops_walk nfkc_ascii brackets_refused plain_parse_qs
           plain_urlencode sample_catalogue 1 true true true sample_seed
           (u8 "https://example.org/list?page=2") ∅ ({[sample_item]} ∪ ∅) 2%Z
           [Some (u8 "/offer/1/")] 0).
  - apply nsteps_once. apply sample_first_page.
  - vm_compute. reflexivity.
  - reflexivity.
  - cbn [collect_links].
    replace (Urllib.urljoin nfkc_ascii brackets_refused
               (u8 "https://example.org/list?page=2") (u8 "/offer/1/"))
      with (Ok sample_item) by (vm_compute; reflexivity).
    replace (negb (bool_decide (u8 "/offer/1/" = [])) && startswith (u8 "/offer/") (u8 "/offer/1/"))
      with true by (vm_compute; reflexivity).
    cbn [rbind]. f_equal; set_solver.
  - lia.
Defined.

Lemma navigation_failure_ends_walk_witness :
  _recursive_scrape_page nfkc_ascii brackets_refused plain_parse_qs plain_urlencode
    sample_catalogue (1 + 1) false sample_seed ∅
  = (false, Some (Ok (elements ({[sample_item]} ∪ (∅ : gset str))))).
Proof.
  apply (navigation_failure_ends_walk nfkc_ascii brackets_refused plain_parse_qs
           plain_urlencode sample_catalogue 1 false false false sample_seed
           (u8 "https://example.org/list?page=2") ∅ ({[sample_item]} ∪ ∅) 2%Z 0).
  - apply nsteps_once. apply sample_first_page.
  - vm_compute. reflexivity.
  - right. reflexivity.
Defined.

Lemma price_and_address_from_own_elements_witness :
  let r := snd (scrape_offer_details read_decimal lower_basic (one_card priced_card)
                  tt sample_item) in
  match
    match price_elem priced_card with
    | Some price_text => parse_price (Some price_text)
    | None => Ok None
    end
  with
  | Ok v =>
      price_rub r = v
      /\ address r =
         match address_elem priced_card with
         | Some address_text => parse_address (Some address_text)
         | None => None
         end
  | Raise _ => r = empty_offer sample_item
  end.
Proof.
  exact (price_and_address_from_own_elements read_decimal lower_basic (one_card priced_card)
           tt tt sample_item priced_card eq_refl).
Defined.

Lemma extraction_keeps_fields_before_failure_witness :
  scan_features read_decimal lower_basic (empty_offer sample_item)
    ([] ++ mk_highlight (Some [160]) (Some (u8 "общая"))
        :: [mk_highlight (Some (u8 "5")) (Some (u8 "этаж"))])
  = (empty_offer sample_item, Some IndexError).
Proof.
  apply (extraction_keeps_fields_before_failure read_decimal lower_basic
           (empty_offer sample_item) (empty_offer sample_item) []
           [mk_highlight (Some (u8 "5")) (Some (u8 "этаж"))] [160] (u8 "общая") IndexError).
  - reflexivity.
  - vm_compute. reflexivity.
Defined.

Lemma walk_returns_unique_item_links_witness :
  NoDup (elements ({[sample_item]} ∪ (∅ : gset str)))
  /\ forall x,
       x ∈ elements ({[sample_item]} ∪ (∅ : gset str)) <->
       x ∈ (∅ : gset str)
       \/ exists page hrefs h,
            loads_page nfkc_ascii brackets_refused plain_parse_qs plain_urlencode
              sample_catalogue (false, sample_seed, ∅) page hrefs
            /\ In (Some h) hrefs
            /\ startswith (u8 "/offer/") h = true
            /\ Urllib.urljoin nfkc_ascii brackets_refused page h = Ok x.
Proof.
  assert (_recursive_scrape_page nfkc_ascii brackets_refused plain_parse_qs plain_urlencode
            sample_catalogue (1 + 1) false sample_seed ∅
          = (false, Some (Ok (elements ({[sample_item]} ∪ (∅ : gset str)))))) as Hrun.
  { rewrite (walk_steps_from nfkc_ascii brackets_refused plain_parse_qs plain_urlencode
               sample_catalogue 1 false sample_seed ∅
               false (u8 "https://example.org/list?page=2") ({[sample_item]} ∪ ∅) 1
               (nsteps_once _ _ (sample_first_page false))).
    cbn [_recursive_scrape_page].
    replace (page_param_of nfkc_ascii brackets_refused plain_parse_qs
               (u8 "https://example.org/list?page=2")) with (@Ok Z 2%Z)
      by (vm_compute; reflexivity).
    replace (sample_catalogue false (u8 "https://example.org/list?page=2"))
      with (false, WaitTimedOut) by (vm_compute; reflexivity).
    reflexivity. }
  exact (walk_returns_unique_item_links nfkc_ascii brackets_refused plain_parse_qs
           plain_urlencode sample_catalogue (1 + 1) false false sample_seed ∅ _ Hrun).
Defined.

Lemma collect_links_seen_page_witness :
  collect_links nfkc_ascii brackets_refused sample_seed
    [Some (u8 "/offer/1/"); None; Some (u8 "/about")] ({[sample_item]} ∪ ∅)
  = Ok ({[sample_item]} ∪ ∅).
Proof.
  apply (collect_links_seen_page nfkc_ascii brackets_refused plain_parse_qs plain_urlencode
           sample_seed [Some (u8 "/offer/1/"); None; Some (u8 "/about")]
           ∅ ({[sample_item]} ∪ ∅) ({[sample_item]} ∪ ∅)).
  - cbn [collect_links].
    replace (Urllib.urljoin nfkc_ascii brackets_refused sample_seed (u8 "/offer/1/"))
      with (Ok sample_item) by (vm_compute; reflexivity).
    reflexivity.
  - reflexivity.
Defined.

Lemma walk_ends_by_page_cap_witness :
  snd (_recursive_scrape_page nfkc_ascii brackets_refused plain_parse_qs plain_urlencode
         sample_catalogue 2 true (u8 "https://example.org/list?page=24") ∅) <> None.
Proof.
  apply (walk_ends_by_page_cap nfkc_ascii brackets_refused plain_parse_qs plain_urlencode
           sample_catalogue 1 (u8 "https://example.org/list?page=24") 24%Z true ∅).
  - split; [vm_compute; reflexivity|].
    intros next Hnext. vm_compute in Hnext. injection Hnext as <-.
    split; [vm_compute; reflexivity | exact I].
  - lia.
Defined.

Lemma insert_offers_batch_all_succeed_witness :
  snd (insert_offers_batch accepting_session 0%nat [sample_item; sample_seed])
  = mk_batch_stats 2 0 2.
Proof.
  apply (insert_offers_batch_all_succeed accepting_session 0%nat [sample_item; sample_seed]).
  intros s' o. reflexivity.
Defined.

Lemma insert_offers_batch_all_fail_witness :
  snd (insert_offers_batch refusing_session 0%nat [sample_item; sample_seed])
  = mk_batch_stats 0 2 2.
Proof.
  apply (insert_offers_batch_all_fail refusing_session 0%nat [sample_item; sample_seed]).
  intros s' o. exists OtherError. reflexivity.
Defined.

Lemma upload_true_means_file_sent_witness :
  upload_to_yandex_cloud accepting_upload_env {[u8 "apartments.csv"]} (u8 "apartments.csv")
    None = true
  /\ exists s3_client b,
       create_s3_session accepting_upload_env = Some s3_client
       /\ exists r,
            s3_upload_file accepting_upload_env s3_client (u8 "apartments.csv") b = Ok r.
Proof.
  assert (upload_to_yandex_cloud accepting_upload_env {[u8 "apartments.csv"]}
            (u8 "apartments.csv") None = true) as Hup.
  { unfold upload_to_yandex_cloud, upload_file_to_s3. cbn -[u8 union singleton elem_of].
    rewrite bool_decide_eq_true_2 by set_solver. reflexivity. }
  split; [exact Hup|].
  destruct (upload_true_means_file_sent accepting_upload_env {[u8 "apartments.csv"]}
              (u8 "apartments.csv") None Hup)
    as (_ & _ & _ & _ & s3_client & b & Hc & _ & Hr).
  exists s3_client, b. split; [exact Hc | exact Hr].
Defined.

Lemma upload_refused_without_module_settings_witness :
  upload_to_yandex_cloud unset_bucket_env {[u8 "apartments.csv"]} (u8 "apartments.csv")
    (Some (u8 "bucket")) = false.
Proof.
  apply (upload_refused_without_module_settings unset_bucket_env).
  reflexivity.
Defined.

Lemma export_touches_only_snapshot_witness :
  u8 "notes.txt" ∈ fst (export_offers_to_yandex_cloud accepting_upload_env
                          {[u8 "notes.txt"]} None false).
Proof.
  apply (export_touches_only_snapshot accepting_upload_env {[u8 "notes.txt"]} None false
           (u8 "notes.txt")).
  - vm_compute. discriminate.
  - apply elem_of_singleton. reflexivity.
Defined.

Lemma export_true_means_uploaded_witness :
  snd (export_offers_to_yandex_cloud accepting_upload_env ∅ None true) = true
  /\ u8 "apartments.csv" ∈ fst (export_offers_to_yandex_cloud accepting_upload_env ∅ None true).
Proof.
  assert (snd (export_offers_to_yandex_cloud accepting_upload_env ∅ None true) = true)
    as Hok.
  { unfold export_offers_to_yandex_cloud, save_dataframe_to_csv, upload_to_yandex_cloud,
      upload_file_to_s3.
    cbn -[u8 union singleton elem_of].
    rewrite bool_decide_eq_true_2 by set_solver. reflexivity. }
  split; [exact Hok|].
  apply (export_true_means_uploaded accepting_upload_env ∅ None true Hok).
  left. reflexivity.
Defined.

Lemma item_link_independent_of_page_witness :
  Urllib.urljoin nfkc_ascii brackets_refused sample_seed (u8 "/offer/1/")
  = Urllib.urljoin nfkc_ascii brackets_refused (u8 "https://example.org/list?page=2")
      (u8 "/offer/1/").
Proof.
  apply (item_link_independent_of_page nfkc_ascii brackets_refused sample_seed
           (u8 "https://example.org/list?page=2") (u8 "/offer/1/")
           (Urllib.mk_parse (u8 "https") (u8 "example.org") (u8 "/list") [] [] [])
           (Urllib.mk_parse (u8 "https") (u8 "example.org") (u8 "/list") [] (u8 "page=2") [])).
  - vm_compute. discriminate.
  - vm_compute. discriminate.
  - vm_compute. reflexivity.
  - vm_compute. reflexivity.
  - vm_compute. reflexivity.
  - reflexivity.
  - reflexivity.
Defined.

Lemma item_link_on_page_site_witness :
  exists rest,
    Urllib.urljoin nfkc_ascii brackets_refused
      (u8 "https://realty.yandex.ru/ufa/kupit/kvartira/") (u8 "/offer/8750304431505540864/")
    = Ok (u8 "https:" ++ [47; 47] ++ u8 "realty.yandex.ru" ++ 47 :: rest).
Proof.
  apply (item_link_on_page_site nfkc_ascii brackets_refused
           (u8 "https://realty.yandex.ru/ufa/kupit/kvartira/")
           (u8 "/offer/8750304431505540864/")
           (Urllib.mk_parse (u8 "https") (u8 "realty.yandex.ru") (u8 "/ufa/kupit/kvartira/")
              [] [] [])).
  - vm_compute. reflexivity.
  - vm_compute. reflexivity.
  - vm_compute. discriminate.
Defined.

(** ** Further examples *)

Example parse_price_on_request :
  parse_price (Some (u8 "цена по запросу")) = Ok None.
Proof. vm_compute. reflexivity. Qed.

Example parse_address_docstring :
  parse_address (Some (u8 "Уфа, улица Цюрупы, 151")) = Some (u8 "улица Цюрупы, 151").
Proof. vm_compute. reflexivity. Qed.

Example parse_float_value_blank :
  parse_float_value read_decimal (Some (u8 "  ")) = Raise IndexError.
Proof. vm_compute. reflexivity. Qed.

Example urljoin_item_link :
  Urllib.urljoin nfkc_ascii brackets_refused
    (u8 "https://realty.yandex.ru/ufa/kupit/kvartira/?page=3")
    (u8 "/offer/8750304431505540864/")
  = Ok (u8 "https://realty.yandex.ru/offer/8750304431505540864/").
Proof. vm_compute. reflexivity. Qed.

Example next_page_after_seed :
  next_page_url nfkc_ascii brackets_refused plain_parse_qs plain_urlencode sample_seed 1
  = Ok (u8 "https://example.org/list?page=2").
Proof. vm_compute. reflexivity. Qed.
